(** * The acServer log monitor (monitor/monitor.py): model and properties

    A shallow embedding of the class [Monitor], which tails the server log,
    keeps the session state dictionary, writes it to web/state.json and
    talks to two Discord webhooks, followed by the properties of it that
    the specification states.

    Conventions of the model.
    - A Python [str] is a [string]; a character is a code point below 256.
    - A Python [int] is a [Z].
    - A Python [dict] is an association list in insertion order (module
      [Dict]); its keys are pairwise distinct in every dictionary the code
      builds.
    - An uncaught exception is the [Raise] outcome of the monad [M]; it
      ends the method and every caller, with the object as it then is.
    - A call that leaves the process (a webhook call, a file written) is
      appended to a trace together with the state at that moment.  The
      webhooks answer through an environment [Env]; file operations are
      taken to succeed, and race.json to hold the same document whenever
      it is read.
    - web/state.json is written and read by a model of [json.dump] and
      [json.load] on the fragment of JSON the state uses (module [Json]). *)

From Stdlib Require Import String Ascii List ZArith Lia Bool Arith.
From Stdlib Require Import Permutation Sorted.
Import ListNotations.

Local Open Scope list_scope.
Local Open Scope string_scope.
Local Open Scope nat_scope.

(** ** Python string operations used by the monitor *)

Module PyStr.

(** [s.find(p) == 0] for a non-empty [p]: [p] is a prefix of [s]. *)
Fixpoint startswith (p s : string) : bool :=
  match p, s with
  | EmptyString, _ => true
  | String a p', String b s' => Ascii.eqb a b && startswith p' s'
  | String _ _, EmptyString => false
  end.

(** [s[n:]] for [n >= 0]. *)
Fixpoint drop (n : nat) (s : string) : string :=
  match n, s with
  | O, _ => s
  | S k, String _ s' => drop k s'
  | S _, EmptyString => EmptyString
  end.

(** [s[:n]] for [n >= 0]. *)
Fixpoint take (n : nat) (s : string) : string :=
  match n, s with
  | S k, String c s' => String c (take k s')
  | _, _ => EmptyString
  end.

(** [s[0:e]] for any integer [e]: a negative end counts from the right. *)
Definition slice0 (s : string) (e : Z) : string :=
  if (0 <=? e)%Z then take (Z.to_nat e) s
  else take (Z.to_nat (Z.of_nat (String.length s) + e)) s.

(** [s.split(sep)] for a non-empty [sep]: leftmost, non-overlapping
    occurrences.  [skip] counts the characters of a separator that has just
    been matched and is still to be passed over. *)
Fixpoint split_aux (sep s : string) (skip : nat) : list string :=
  match s with
  | EmptyString => [EmptyString]
  | String c s' =>
      match skip with
      | S k => split_aux sep s' k
      | O =>
          if startswith sep s
          then EmptyString :: split_aux sep s' (String.length sep - 1)
          else match split_aux sep s' 0 with
               | p :: ps => String c p :: ps
               | [] => [String c EmptyString]
               end
      end
  end.

Definition split (sep s : string) : list string := split_aux sep s 0.

(** [l[-1]] on a list of strings; [None] stands for IndexError. *)
Definition last_item (l : list string) : option string :=
  match rev l with
  | x :: _ => Some x
  | [] => None
  end.

(** [sep.join(l)]. *)
Definition join (sep : string) (l : list string) : string := String.concat sep l.

(** [s.replace(c, by)] for a one-character [c]. *)
Fixpoint replace (c : ascii) (by_ : string) (s : string) : string :=
  match s with
  | EmptyString => EmptyString
  | String a s' =>
      if Ascii.eqb a c then by_ ++ replace c by_ s' else String a (replace c by_ s')
  end.

Definition code (c : ascii) : nat := nat_of_ascii c.

(** [str.isspace] on one character of the Latin-1 range. *)
Definition isspace (c : ascii) : bool :=
  let n := code c in
  ((9 <=? n) && (n <=? 13)) || ((28 <=? n) && (n <=? 32))
  || (n =? 133) || (n =? 160).

(** The white space that [int()] skips at both ends: the ASCII set of the C
    parser, to which the two Latin-1 spaces above 127 are mapped first. *)
Definition isspace_int (c : ascii) : bool :=
  let n := code c in
  ((9 <=? n) && (n <=? 13)) || (n =? 32) || (n =? 133) || (n =? 160).

Definition is_empty (s : string) : bool :=
  match s with EmptyString => true | _ => false end.

Fixpoint lstrip_by (f : ascii -> bool) (s : string) : string :=
  match s with
  | String c s' => if f c then lstrip_by f s' else s
  | EmptyString => EmptyString
  end.

Fixpoint rstrip_by (f : ascii -> bool) (s : string) : string :=
  match s with
  | EmptyString => EmptyString
  | String c s' =>
      let r := rstrip_by f s' in
      if f c && is_empty r then EmptyString else String c r
  end.

Definition strip_by (f : ascii -> bool) (s : string) : string :=
  rstrip_by f (lstrip_by f s).

(** [s.strip()]. *)
Definition strip : string -> string := strip_by isspace.

Definition digit_of (c : ascii) : option Z :=
  let n := code c in
  if (48 <=? n) && (n <=? 57) then Some (Z.of_nat (n - 48)) else None.

(** The digit part of a base-10 [int()] literal: decimal digits, a single
    underscore allowed between two digits. *)
Fixpoint int_digits (s : string) (acc : Z) (after_digit : bool) : option Z :=
  match s with
  | EmptyString => if after_digit then Some acc else None
  | String c s' =>
      match digit_of c with
      | Some d => int_digits s' (10 * acc + d)%Z true
      | None =>
          if Ascii.eqb c "_" && after_digit then int_digits s' acc false else None
      end
  end.

(** [int(s)]; [None] stands for ValueError. *)
Definition py_int (s : string) : option Z :=
  match strip_by isspace_int s with
  | String c r =>
      if Ascii.eqb c "-" then option_map Z.opp (int_digits r 0 false)
      else if Ascii.eqb c "+" then int_digits r 0 false
      else int_digits (String c r) 0 false
  | EmptyString => None
  end.

(** The value of a string of decimal digits, most significant first. *)
Fixpoint digits_value (s : string) (acc : Z) : Z :=
  match s with
  | EmptyString => acc
  | String c s' => digits_value s' (10 * acc + Z.of_nat (code c - 48))%Z
  end.

Fixpoint all_digits (s : string) : bool :=
  match s with
  | EmptyString => true
  | String c s' =>
      (match digit_of c with Some _ => true | None => false end) && all_digits s'
  end.

Definition digit_char (n : nat) : ascii := ascii_of_nat (48 + n).

(** The decimal digits of a non-negative integer, most significant first;
    [fuel] bounds their number. *)
Fixpoint Z_digits (fuel : nat) (z : Z) (acc : string) : string :=
  match fuel with
  | O => acc
  | S f =>
      let acc' := String (digit_char (Z.to_nat (z mod 10))) acc in
      if (z <? 10)%Z then acc' else Z_digits f (z / 10) acc'
  end.

Definition str_of_nonneg (z : Z) : string :=
  Z_digits (S (Z.to_nat (Z.log2 z))) z EmptyString.

(** [str(z)] for an integer. *)
Definition str_of_Z (z : Z) : string :=
  if (z <? 0)%Z then String "-" (str_of_nonneg (- z)) else str_of_nonneg z.

(** [str(n)] for a natural number. *)
Definition str_of_nat (n : nat) : string := str_of_nonneg (Z.of_nat n).

End PyStr.

Import PyStr.


(** ** Python dictionaries

    Insertion-ordered association lists.  [set] overwrites in place or
    appends, as assignment to [d[k]] does; [pop] removes every binding of
    the key (a dictionary has one at most). *)

Class EqKey (K : Type) := {
  keq : K -> K -> bool;
  keq_spec : forall a b, keq a b = true <-> a = b
}.

#[export] Instance EqKey_string : EqKey string :=
  {| keq := String.eqb; keq_spec := String.eqb_eq |}.

Definition opt_eqb (a b : option string) : bool :=
  match a, b with
  | Some x, Some y => String.eqb x y
  | None, None => true
  | _, _ => false
  end.

Lemma opt_eqb_spec (a b : option string) : opt_eqb a b = true <-> a = b.
Proof.
  destruct a as [x|], b as [y|]; simpl; try (split; congruence).
  rewrite String.eqb_eq. split; congruence.
Qed.

#[export] Instance EqKey_optstring : EqKey (option string) :=
  {| keq := opt_eqb; keq_spec := opt_eqb_spec |}.

Module Dict.
Section Ops.
Context {K V : Type} `{EqKey K}.

Definition t := list (K * V).

Fixpoint get (d : t) (k : K) : option V :=
  match d with
  | [] => None
  | (k', v) :: d' => if keq k' k then Some v else get d' k
  end.

Definition mem (d : t) (k : K) : bool :=
  match get d k with Some _ => true | None => false end.

Fixpoint set (d : t) (k : K) (v : V) : t :=
  match d with
  | [] => [(k, v)]
  | (k', v') :: d' => if keq k' k then (k', v) :: d' else (k', v') :: set d' k v
  end.

Fixpoint pop (d : t) (k : K) : t :=
  match d with
  | [] => []
  | (k', v') :: d' => if keq k' k then pop d' k else (k', v') :: pop d' k
  end.

Definition keys (d : t) : list K := map fst d.
Definition values (d : t) : list V := map snd d.

(** The dictionary a sequence of [(key, value)] assignments builds. *)
Definition of_pairs (l : list (K * V)) : t :=
  fold_left (fun d kv => set d (fst kv) (snd kv)) l [].
End Ops.
Arguments t : clear implicits.
End Dict.

(** ** The session state: the dictionary [self.state] *)

(** [state['online'][name] = dict(id=..., car=...)]. *)
Record Driver := mkDriver {
  id : option Z;          (* id of the join message, or None *)
  car : option string     (* the car requested before joining, or None *)
}.

(** [state[laps][name][car] = dict(time=..., time_ms=..., cuts=...)]. *)
Record Lap := mkLap {
  time : string;
  time_ms : Z;
  cuts : Z
}.

(** The laps of one driver by car.  The key is [online[name]['car']], which
    is None for a driver who joined without a car request. *)
Definition CarLaps := Dict.t (option string) Lap.
Definition LapTable := Dict.t string CarLaps.

(** The keys are those of [reset_state].  [carset] is [None] when the
    dictionary has no ['carset'] key (a snapshot written by an older
    version), which [update_state_with_race_json] tests for; the other
    keys are always there. *)
Record State := mkState {
  online : Dict.t string Driver;
  track_name : option string;
  track_directory : option string;
  track_message_id : option Z;
  archive_path : option string;
  laps : LapTable;
  naughties : LapTable;
  carset : option (option string)
}.

Definition set_online v (s : State) : State :=
  mkState v (track_name s) (track_directory s) (track_message_id s)
          (archive_path s) (laps s) (naughties s) (carset s).
Definition set_track_name v (s : State) : State :=
  mkState (online s) v (track_directory s) (track_message_id s)
          (archive_path s) (laps s) (naughties s) (carset s).
Definition set_track_directory v (s : State) : State :=
  mkState (online s) (track_name s) v (track_message_id s)
          (archive_path s) (laps s) (naughties s) (carset s).
Definition set_track_message_id v (s : State) : State :=
  mkState (online s) (track_name s) (track_directory s) v
          (archive_path s) (laps s) (naughties s) (carset s).
Definition set_archive_path v (s : State) : State :=
  mkState (online s) (track_name s) (track_directory s) (track_message_id s)
          v (laps s) (naughties s) (carset s).
Definition set_laps v (s : State) : State :=
  mkState (online s) (track_name s) (track_directory s) (track_message_id s)
          (archive_path s) v (naughties s) (carset s).
Definition set_naughties v (s : State) : State :=
  mkState (online s) (track_name s) (track_directory s) (track_message_id s)
          (archive_path s) (laps s) v (carset s).
Definition set_carset v (s : State) : State :=
  mkState (online s) (track_name s) (track_directory s) (track_message_id s)
          (archive_path s) (laps s) (naughties s) v.

(** The two lap tables, selected by the key ['laps'] or ['naughties']. *)
Inductive table := Laps | Naughties.

Definition get_table (k : table) (s : State) : LapTable :=
  match k with Laps => laps s | Naughties => naughties s end.

Definition set_table (k : table) (v : LapTable) (s : State) : State :=
  match k with Laps => set_laps v s | Naughties => set_naughties v s end.

(** Truth value of an optional string and of an optional integer. *)
Definition truthy_str (o : option string) : bool :=
  match o with Some s => negb (is_empty s) | None => false end.

Definition truthy_int (o : option Z) : bool :=
  match o with Some z => negb (z =? 0)%Z | None => false end.

(** The part of race.json the monitor reads: [track.name],
    [track.directory], [carset] and the [cars] mapping from nice name to
    directory. *)
Record RaceJson := mkRaceJson {
  rj_track_name : option string;
  rj_track_directory : option string;
  rj_carset : option string;
  rj_cars : Dict.t string string
}.

(** The settings of monitor.ini.  [path_race_json] holds the document found
    at that path, [None] when no path is set; the two webhook fields say
    whether a URL is set. *)
Record Config := mkConfig {
  server_name : string;
  path_race_json : option RaceJson;
  url_webhook_log : bool;
  url_webhook_laps : bool;
  url_more_laps : option string
}.

(** The attributes of the [Monitor] object.  [timestamp_last] and the two
    attributes that [parse_lines] initialises are [None] until assigned;
    reading [timestamp_last] before that is an AttributeError. *)
Record Monitor := mkMonitor {
  timestamp : option string;
  state : State;
  race_json : option RaceJson;
  last_requested_car : option string;
  history : list string;
  timestamp_last : option string
}.

Definition with_timestamp v (m : Monitor) : Monitor :=
  mkMonitor v (state m) (race_json m) (last_requested_car m) (history m)
            (timestamp_last m).
Definition with_state v (m : Monitor) : Monitor :=
  mkMonitor (timestamp m) v (race_json m) (last_requested_car m) (history m)
            (timestamp_last m).
Definition with_race_json v (m : Monitor) : Monitor :=
  mkMonitor (timestamp m) (state m) v (last_requested_car m) (history m)
            (timestamp_last m).
Definition with_last_requested_car v (m : Monitor) : Monitor :=
  mkMonitor (timestamp m) (state m) (race_json m) v (history m)
            (timestamp_last m).
Definition with_history v (m : Monitor) : Monitor :=
  mkMonitor (timestamp m) (state m) (race_json m) (last_requested_car m) v
            (timestamp_last m).
Definition with_timestamp_last v (m : Monitor) : Monitor :=
  mkMonitor (timestamp m) (state m) (race_json m) (last_requested_car m)
            (history m) v.

(** ** Effects *)

(** A call that leaves the process. *)
Inductive call :=
| LogSend (msg : string)             (* webhook_log.send(msg, wait=True) *)
| LogDelete (i : option Z)           (* webhook_log.delete_message(i) *)
| LapsSend (msg : string)            (* webhook_laps.send(msg, wait=True) *)
| LapsEdit (i : Z) (msg : string)    (* webhook_laps.edit_message(i, content=msg) *)
| WriteState (s : State)             (* json.dump(self.state, open('web/state.json','w')) *)
| CopyArchive (path : string).       (* shutil.copy('web/state.json', path) *)

(** One entry of the trace: the call and [self.state] as it is in memory
    when the call is made. *)
Record event := mkEvent { ev_call : call; ev_state : State }.

Definition trace := list event.

(** The answers of the messaging service, each possibly depending on all
    that happened before.  [None] and [false] stand for a raised exception.
    File operations are taken to succeed. *)
Record Env := mkEnv {
  send_answer : trace -> call -> option Z;
  edit_answer : trace -> call -> bool
}.

Inductive exn :=
| ValueError | IndexError | KeyError | AttributeError | TypeError | RuntimeError.

Inductive outcome (A : Type) :=
| Return (a : A) (m : Monitor) (tr : trace)
| Raise (e : exn) (m : Monitor) (tr : trace).
Arguments Return {A}.
Arguments Raise {A}.

(** A method of [Monitor]: from the object and the trace so far to a result
    or an uncaught exception, with the object and trace as they then are. *)
Definition M (A : Type) : Type := Monitor -> trace -> outcome A.

Definition ret {A} (a : A) : M A := fun m tr => Return a m tr.

Definition bind {A B} (c : M A) (k : A -> M B) : M B :=
  fun m tr =>
    match c m tr with
    | Return a m' tr' => k a m' tr'
    | Raise e m' tr' => Raise e m' tr'
    end.

Definition raise {A} (e : exn) : M A := fun m tr => Raise e m tr.

Notation "x <- c ;; k" := (bind c (fun x => k))
  (at level 61, c at next level, right associativity).
Notation "c ;; k" := (bind c (fun _ => k))
  (at level 61, right associativity).

Definition get_self : M Monitor := fun m tr => Return m m tr.
Definition get_state : M State := fun m tr => Return (state m) m tr.
Definition modify (f : Monitor -> Monitor) : M unit := fun m tr => Return tt (f m) tr.
Definition modify_state (f : State -> State) : M unit :=
  modify (fun m => with_state (f (state m)) m).
Definition get_trace : M trace := fun m tr => Return tr m tr.

(** Record a call in the trace, with the state at that moment. *)
Definition emit (c : call) : M unit :=
  fun m tr => Return tt m (tr ++ [mkEvent c (state m)])%list.

(** [x] if present, else the exception [e]. *)
Definition or_raise {A} (e : exn) (x : option A) : M A :=
  match x with Some a => ret a | None => raise e end.

(** [for x in l: body(x)]. *)
Fixpoint for_each {A} (l : list A) (body : A -> M unit) : M unit :=
  match l with
  | [] => ret tt
  | x :: l' => body x ;; for_each l' body
  end.

(** ** Sorting as [sorted(l, key=...)] does

    Keys are computed first, in order, and the first failing key raises;
    the sort is stable. *)

Section Sorting.
Context {A : Type}.

Fixpoint insert_keyed (x : Z * A) (l : list (Z * A)) : list (Z * A) :=
  match l with
  | [] => [x]
  | y :: l' => if (fst x <=? fst y)%Z then x :: l else y :: insert_keyed x l'
  end.

Fixpoint sort_keyed (l : list (Z * A)) : list (Z * A) :=
  match l with
  | [] => []
  | x :: l' => insert_keyed x (sort_keyed l')
  end.

Fixpoint with_keys (key : A -> exn + Z) (l : list A) : exn + list (Z * A) :=
  match l with
  | [] => inr []
  | x :: l' =>
      match key x with
      | inl e => inl e
      | inr k =>
          match with_keys key l' with
          | inl e => inl e
          | inr r => inr ((k, x) :: r)
          end
      end
  end.

Definition sorted (key : A -> exn + Z) (l : list A) : exn + list A :=
  match with_keys key l with
  | inl e => inl e
  | inr r => inr (map snd (sort_keyed r))
  end.
End Sorting.

(** ** The methods of [Monitor] *)

Definition nl : string := String (ascii_of_nat 10) EmptyString.

(** [os.path.join(a, b)] on a POSIX system. *)
Definition path_join (a b : string) : string :=
  if startswith "/" b then b else a ++ "/" ++ b.

(** [reset_state]: the state defaults. *)
Definition empty_state : State :=
  mkState [] None None None None [] [] (Some None).

(** [to_ms(s)]: the time string in milliseconds. *)
Definition to_ms (s : string) : exn + Z :=
  let p := split ":" s in
  match nth_error p 0 with
  | None => inl IndexError
  | Some a =>
  match py_int a with
  | None => inl ValueError
  | Some x =>
  match nth_error p 1 with
  | None => inl IndexError
  | Some b =>
  match py_int b with
  | None => inl ValueError
  | Some y =>
  match nth_error p 2 with
  | None => inl IndexError
  | Some c =>
  match py_int c with
  | None => inl ValueError
  | Some z => inr (x * 60000 + y * 1000 + z)%Z
  end end end end end end.

(** An entry of the list [s] of [send_laps]: [(lap, name, car)]. *)
Definition entry : Type := Lap * string * option string.

Definition lap_key (cl : option string * Lap) : exn + Z := to_ms (time (snd cl)).
Definition entry_key (e : entry) : exn + Z := to_ms (time (fst (fst e))).

(** The first loop of [send_laps]: the best lap of every driver that has
    one, in the order of the names in [state['laps']]. *)
Fixpoint driver_bests (t : LapTable) : exn + list entry :=
  match t with
  | [] => inr []
  | (name, carlaps) :: t' =>
      match carlaps with
      | [] => driver_bests t'
      | _ :: _ =>
          match sorted lap_key carlaps with
          | inl e => inl e
          | inr [] => inl IndexError
          | inr ((c, lap) :: _) =>
              match driver_bests t' with
              | inl e => inl e
              | inr r => inr ((lap, name, c) :: r)
              end
          end
      end
  end.

(** The line of rank [n + 1]; concatenating a None car is a TypeError. *)
Definition entry_line (n : nat) (e : entry) : exn + string :=
  match snd e with
  | None => inl TypeError
  | Some c =>
      inr ("**" ++ str_of_nat (n + 1) ++ ".** " ++ time (fst (fst e)) ++ " "
           ++ snd (fst e) ++ " (" ++ c ++ ")" ++ nl)
  end.

(** [for n in range(len(s)): message = message + line]. *)
Fixpoint add_lines (n : nat) (s : list entry) (message : string) : exn + string :=
  match s with
  | [] => inr message
  | e :: s' =>
      match entry_line n e with
      | inl x => inl x
      | inr l => add_lines (S n) s' (message ++ l)
      end
  end.

Definition header (st : State) : exn + string :=
  let message := "@everyone" ++ nl ++ "**This week: " in
  match carset st with
  | None => inl KeyError
  | Some cs =>
      let message := if truthy_str cs
                     then message ++ match cs with Some x => x | None => "" end ++ " at "
                     else message in
      let tn := if truthy_str (track_name st) then track_name st
                else track_directory st in
      inr (if truthy_str tn
           then message ++ match tn with Some x => x | None => "" end ++ "!**" ++ nl ++ nl
           else message)
  end.

Definition footer (cfg : Config) : string :=
  if truthy_str (url_more_laps cfg)
  then nl ++ "**More:** " ++ match url_more_laps cfg with Some u => u | None => "" end
  else "".

(** The 2000 character limit. *)
Definition fit (cfg : Config) (message : string) : string :=
  let f := footer cfg in
  if (2000 <? String.length (message ++ f))
  then slice0 message (2000 - 7 - Z.of_nat (String.length f)) ++ " ... " ++ f
  else message ++ f.

(** The sorted list [s] of [send_laps]. *)
Definition laps_entries (st : State) : exn + list entry :=
  match driver_bests (laps st) with
  | inl e => inl e
  | inr bests => sorted entry_key bests
  end.

(** The message before the footer and the length limit are applied. *)
Definition laps_text (st : State) : exn + string :=
  match laps_entries st with
  | inl e => inl e
  | inr s =>
      match header st with
      | inl e => inl e
      | inr h => add_lines 0 s h
      end
  end.

(** The message [send_laps] assembles from the state. *)
Definition laps_message (cfg : Config) (st : State) : exn + string :=
  match laps_text st with
  | inl e => inl e
  | inr message => inr (fit cfg message)
  end.

Section Methods.
Variable cfg : Config.
Variable env : Env.

(** [reset_state()]. *)
Definition reset_state : M unit := modify_state (fun _ => empty_state).

(** [save_and_archive_state(skip)]. *)
Definition save_and_archive_state (skip : bool) : M unit :=
  if skip then ret tt
  else
    self <- get_self ;;
    let st := state self in
    let path_archive := path_join "web" "archive" in
    let ap :=
      if truthy_str (track_directory st) && truthy_str (timestamp self)
      then match timestamp self, track_directory st with
           | Some ts, Some td => Some (path_join path_archive (ts ++ td ++ ".json"))
           | _, _ => None
           end
      else None in
    modify_state (set_archive_path ap) ;;
    st' <- get_state ;;
    emit (WriteState st') ;;
    if truthy_str ap
    then match ap with Some p => emit (CopyArchive p) | None => ret tt end
    else ret tt.

(** [webhook.send(message, wait=True).id] inside [try], on either
    webhook: the id, or None when the call raised. *)
Definition try_send (mk : string -> call) (message : string) : M (option Z) :=
  tr <- get_trace ;;
  emit (mk message) ;;
  ret (send_answer env tr (mk message)).

(** The message [driver_connects] assembles for [name]. *)
Definition join_message (name : string) (car : option string) : string :=
  let message := name ++ " is on " ++ server_name cfg ++ "!" in
  if truthy_str car
  then message ++ nl ++ match car with Some c => c | None => "" end
  else message.

(** [driver_connects(name, log_drivers, do_not_save_state)]. *)
Definition driver_connects (name : string) (log_drivers do_not_save_state : bool)
  : M unit :=
  self <- get_self ;;
  let message := join_message name (last_requested_car self) in
  i <- (if log_drivers && url_webhook_log cfg
        then try_send LogSend message
        else ret None) ;;
  modify_state (fun st =>
    set_online (Dict.set (online st) name (mkDriver i (last_requested_car self))) st) ;;
  save_and_archive_state do_not_save_state ;;
  modify (with_last_requested_car None).

(** [driver_disconnects(name, log_drivers, do_not_save_state)]. *)
Definition driver_disconnects (name : string) (log_drivers do_not_save_state : bool)
  : M unit :=
  st <- get_state ;;
  match Dict.get (online st) name with
  | None => ret tt
  | Some d =>
      (if url_webhook_log cfg && truthy_int (id d)
       then emit (LogDelete (id d))
       else ret tt) ;;
      modify_state (fun st => set_online (Dict.pop (online st) name) st) ;;
      save_and_archive_state do_not_save_state
  end.

(** [update_state_with_race_json()]. *)
Definition update_state_with_race_json : M unit :=
  match path_race_json cfg with
  | Some rj =>
      modify (with_race_json (Some rj)) ;;
      st <- get_state ;;
      if negb (opt_eqb (rj_track_name rj) (track_name st))
         || match carset st with
            | None => true
            | Some cs => negb (opt_eqb (rj_carset rj) cs)
            end
      then
        (if truthy_int (track_message_id st)
         then modify_state (set_track_message_id None)
         else ret tt) ;;
        modify_state (set_laps []) ;;
        modify_state (set_track_name (rj_track_name rj)) ;;
        modify_state (set_track_directory (rj_track_directory rj)) ;;
        modify_state (set_carset (Some (rj_carset rj))) ;;
        save_and_archive_state false
      else ret tt
  | None => modify (with_race_json None)
  end.

(** The sending half of [send_laps]: edit the message when an id is
    stored, send a new one when there is none or the edit failed. *)
Definition post_laps (message : string) : M unit :=
  if url_webhook_laps cfg then
    st <- get_state ;;
    let send_new : M unit :=
      i <- try_send LapsSend message ;;
      (match i with
       | Some j => modify_state (set_track_message_id (Some j))
       | None => ret tt
       end) ;;
      save_and_archive_state false in
    match track_message_id st with
    | Some i =>
        if truthy_int (Some i) then
          tr <- get_trace ;;
          emit (LapsEdit i message) ;;
          if edit_answer env tr (LapsEdit i message) then ret tt else send_new
        else send_new
    | None => send_new
    end
  else ret tt.

(** [send_laps()]. *)
Definition send_laps : M unit :=
  st <- get_state ;;
  match laps_message cfg st with
  | inl e => raise e
  | inr message => post_laps message
  end.

(** [delete_online_messages()].  The loop pops the name it is visiting,
    so asking the iterator for the next name raises RuntimeError: one
    name at most is handled. *)
Definition delete_online_messages : M unit :=
  st <- get_state ;;
  match online st with
  | [] => ret tt
  | (name, d) :: _ =>
      (if url_webhook_log cfg then emit (LogDelete (id d)) else ret tt) ;;
      modify_state (fun st => set_online (Dict.pop (online st) name) st) ;;
      raise RuntimeError
  end.

(** [new_track(new_track_directory)]. *)
Definition new_track (new_track_directory : string) : M unit :=
  self <- get_self ;;
  ts <- or_raise AttributeError (timestamp_last self) ;;
  modify (with_timestamp (Some ts)) ;;
  save_and_archive_state false ;;
  reset_state ;;
  delete_online_messages ;;
  modify_state (set_track_directory (Some new_track_directory)) ;;
  update_state_with_race_json ;;
  save_and_archive_state false ;;
  send_laps.

(** The first key of [cars] whose value is [v]:
    [list(cars.keys())[list(cars.values()).index(v)]]. *)
Fixpoint key_of_value (cars : Dict.t string string) (v : string) : option string :=
  match cars with
  | [] => None
  | (k, v') :: cars' => if String.eqb v' v then Some k else key_of_value cars' v
  end.

(** [s.split(sep)[0]]. *)
Definition first_piece (sep s : string) : string :=
  match split sep s with
  | p :: _ => p
  | [] => ""
  end.

(** [s.split(sep)[-1]]. *)
Definition last_piece (sep s : string) : string :=
  match last_item (split sep s) with
  | Some p => p
  | None => ""
  end.

(** The test on a line of the history in the lap branch. *)
Definition is_lap_line (l : string) : bool :=
  startswith "LAP " l && negb (startswith "LAP WITH CUTS" l).

(** The table a lap goes to: ['naughties'] when it has cuts. *)
Definition table_of (cuts : Z) : table :=
  if (cuts =? 0)%Z then Laps else Naughties.

(** Name and time on a "LAP name time" line of the history. *)
Definition lap_time (l : string) : string :=
  strip (match last_item (split " " (drop 4 l)) with Some x => x | None => "" end).

Definition lap_name (l : string) : string :=
  join " " (removelast (split " " (drop 4 l))).

(** What the lap branch does with the time [t] and name [n] it found:
    lines 172 to 196. *)
Definition record_lap (t n : string) (cuts : Z)
           (update_laps do_not_save_state : bool) : M unit :=
  let laps := table_of cuts in
  t_ms <- (match to_ms t with inl e => raise e | inr v => ret v end) ;;
  modify_state (fun st =>
    if Dict.mem (get_table laps st) n then st
    else set_table laps (Dict.set (get_table laps st) n []) st) ;;
  st <- get_state ;;
  match Dict.get (online st) n with
  | None => ret tt
  | Some d =>
      let c := car d in
      let mine := match Dict.get (get_table laps st) n with
                  | Some x => x | None => [] end in
      if match Dict.get mine c with
         | None => true
         | Some old => (t_ms <? time_ms old)%Z
         end
      then
        modify_state (fun st =>
          set_table laps
            (Dict.set (get_table laps st) n (Dict.set mine c (mkLap t t_ms cuts))) st) ;;
        save_and_archive_state do_not_save_state ;;
        (if update_laps then send_laps else ret tt)
      else ret tt
  end.

(** The lap branch from the first lap line of the history on. *)
Definition lap_completed (l : string) (cuts : Z)
           (update_laps do_not_save_state : bool) : M unit :=
  record_lap (lap_time l) (lap_name l) cuts update_laps do_not_save_state.

(** One turn of the loop of [parse_lines]. *)
Definition parse_line (log_drivers update_laps do_not_save_state : bool)
           (line : string) : M unit :=
  modify (fun m => with_history (firstn 10 (line :: history m)) m) ;;
  self <- get_self ;;
  if startswith "REQUESTED CAR:" line then
    let car := strip (replace "*" "" (drop 14 line)) in
    match race_json self with
    | Some rj =>
        match key_of_value (rj_cars rj) car with
        | Some nice => modify (with_last_requested_car (Some nice))
        | None => modify (with_last_requested_car (Some car))
        end
    | None => modify (with_last_requested_car (Some car))
    end
  else if startswith "DRIVER:" line then
    driver_connects (strip (first_piece "[" (drop 7 line))) log_drivers do_not_save_state
  else if startswith "Clean exit, driver disconnected" line then
    driver_disconnects (strip (first_piece "[" (drop 33 line))) log_drivers do_not_save_state
  else if startswith "Connection is now closed" line then
    driver_disconnects (strip (first_piece "[" (drop 28 line))) log_drivers do_not_save_state
  else if startswith "Result.OnLapCompleted" line then
    cuts <- or_raise ValueError (py_int (last_piece "Cuts:" line)) ;;
    match find is_lap_line (history self) with
    | Some l => lap_completed l cuts update_laps do_not_save_state
    | None => ret tt
    end
  else if startswith "TRACK=" line
          && negb (opt_eqb (Some (strip (last_piece "=" line)))
                           (track_directory (state self)))
  then new_track (strip (last_piece "=" line))
  else if startswith "Num CPU:" line then
    l1 <- or_raise IndexError (nth_error (history self) 1) ;;
    modify (with_timestamp_last (Some (replace " " "." (strip l1) ++ ".")))
  else ret tt.

(** [parse_lines(lines, log_drivers, update_laps, do_not_save_state)] on
    the lines the iterator has yielded so far. *)
Definition parse_lines (lines : list string)
           (log_drivers update_laps do_not_save_state : bool) : M unit :=
  modify (with_last_requested_car None) ;;
  modify (with_history []) ;;
  for_each lines (parse_line log_drivers update_laps do_not_save_state).

(** The object before [__init__] has assigned anything. *)
Definition blank : Monitor := mkMonitor None empty_state None None [] None.

(** [__init__], first the part before the log is read.  [loaded] is the
    content of web/state.json if the file exists, [log] the lines of the
    log file at start-up and [live] the lines that [tail -f] yields
    afterwards. *)
Definition startup (loaded : option State) : M unit :=
  modify (with_timestamp None) ;;
  (match loaded with
   | Some st => modify_state (fun _ => st)
   | None => reset_state
   end) ;;
  modify (with_race_json None) ;;
  update_state_with_race_json.

Definition init (loaded : option State) (log live : list string) : M unit :=
  startup loaded ;;
  parse_lines log false false true ;;
  self <- get_self ;;
  ts <- or_raise AttributeError (timestamp_last self) ;;
  modify (with_timestamp (Some ts)) ;;
  save_and_archive_state false ;;
  send_laps ;;
  parse_lines live true true false.
End Methods.

(** ** Notions used to state the properties *)

(** The parts of the state that only the log events change. *)
Definition same_tables (s s' : State) : Prop :=
  online s' = online s /\ laps s' = laps s /\ naughties s' = naughties s.

Definition table_eqb (a b : table) : bool :=
  match a, b with
  | Laps, Laps | Naughties, Naughties => true
  | _, _ => false
  end.

(** The record stored for a driver and a car in a lap table. *)
Definition lookup (tb : LapTable) (n : string) (c : option string) : option Lap :=
  match Dict.get tb n with
  | Some cl => Dict.get cl c
  | None => None
  end.

(** The replacement rule: a new lap takes the place of the stored one when
    there is none or when it is strictly faster. *)
Definition keep_faster (old : option Lap) (new : Lap) : option Lap :=
  match old with
  | None => Some new
  | Some o => if (time_ms new <? time_ms o)%Z then Some new else Some o
  end.

(** The laps of a sequence that go to table [k]. *)
Definition laps_for (k : table) (recs : list Lap) : list Lap :=
  filter (fun r => table_eqb (table_of (cuts r)) k) recs.

(** The times a key has seen: the one stored at the start, if any, and
    those of the laps recorded since. *)
Definition known_times (old : option Lap) (recs : list Lap) : list Z :=
  (match old with Some o => [time_ms o] | None => [] end ++ map time_ms recs)%list.

Definition is_minimum (v : Z) (l : list Z) : Prop :=
  In v l /\ forall x, In x l -> (v <= x)%Z.

(** A list of string literals has no element twice. *)
Ltac distinct_strings :=
  repeat (constructor; [cbn [In]; intuition discriminate|]); constructor.

(** Unfolding of the monad operations. *)
Ltac run :=
  unfold bind, ret, raise, or_raise, get_self, get_state, get_trace,
         modify_state, modify, emit in *.

(** A sequence of completed laps of the driver [n], fed to the lap branch
    one after the other. *)
Definition run_laps (cfg : Config) (env : Env) (n : string) (recs : list Lap)
           (update_laps do_not_save_state : bool) : M unit :=
  for_each recs
    (fun r => record_lap cfg env (time r) n (cuts r) update_laps do_not_save_state).

(** The monitor and the trace an outcome ends with. *)
Definition final_monitor {A} (o : outcome A) : Monitor :=
  match o with Return _ m _ => m | Raise _ m _ => m end.

Definition final_trace {A} (o : outcome A) : trace :=
  match o with Return _ _ tr => tr | Raise _ _ tr => tr end.

(** ** Sample data *)

Module Sample.
Definition cfg : Config := mkConfig "srv" None true true None.

(** A service that answers every send with a fresh id and accepts every
    edit, and one that fails every call. *)
Definition up : Env :=
  mkEnv (fun tr _ => Some (Z.of_nat (S (List.length tr)))) (fun _ _ => true).

Definition alice : Driver := mkDriver (Some 7%Z) (Some "abarth500").

(** Alice is online; nothing else is known. *)
Definition m_alice : Monitor :=
  with_state (set_online [("Alice", alice)] empty_state) blank.

Definition three_laps : list Lap :=
  [mkLap "01:23:456" 83456 0; mkLap "01:20:000" 80000 0; mkLap "01:25:000" 85000 0].
End Sample.

(** The state once the lap branch has made sure that [n] has an entry in
    table [k]. *)
Definition with_entry (k : table) (n : string) (st : State) : State :=
  if Dict.mem (get_table k st) n then st
  else set_table k (Dict.set (get_table k st) n []) st.

(** The calls of a trace that delete a join message. *)
Definition is_log_delete (ev : event) : bool :=
  match ev_call ev with LogDelete _ => true | _ => false end.




(** Notions for the leaderboard. *)

Definition key_le {A} (x y : Z * A) : Prop := (fst x <= fst y)%Z.

Definition entry_lap (e : entry) : Lap := fst (fst e).
Definition entry_name (e : entry) : string := snd (fst e).
Definition entry_car (e : entry) : option string := snd e.

(** A row of the lap table with at least one lap. *)
Definition has_lap (row : string * CarLaps) : bool :=
  match snd row with [] => false | _ :: _ => true end.

(** [e] holds a lap of [cl] that no lap of [cl] beats. *)
Definition fastest_of (cl : CarLaps) (e : entry) : Prop :=
  In (entry_car e, entry_lap e) cl
  /\ forall c lap, In (c, lap) cl -> (time_ms (entry_lap e) <= time_ms lap)%Z.

Definition by_time (e1 e2 : entry) : Prop :=
  (time_ms (entry_lap e1) <= time_ms (entry_lap e2))%Z.

(** Every stored lap is filed under a car name and carries the
    milliseconds of its time string. *)
Definition well_formed_laps (t : LapTable) : Prop :=
  Forall (fun row : string * CarLaps =>
            Forall (fun cl : option string * Lap =>
                      (exists c, fst cl = Some c)
                      /\ to_ms (time (snd cl)) = inr (time_ms (snd cl)))
                   (snd row)) t.

(** The ranking lines of the entries [s], the first with rank [n + 1]. *)
Fixpoint rank_lines (n : nat) (s : list entry) : string :=
  match s with
  | [] => ""
  | e :: s' =>
      "**" ++ str_of_nat (n + 1) ++ ".** " ++ time (entry_lap e) ++ " "
      ++ entry_name e ++ " ("
      ++ match entry_car e with Some c => c | None => "" end ++ ")" ++ nl
      ++ rank_lines (S n) s'
  end.

(** [needle in hay]. *)
Fixpoint contains (needle hay : string) : bool :=
  startswith needle hay
  || match hay with
     | EmptyString => false
     | String _ hay' => contains needle hay'
     end.

Fixpoint replicate (n : nat) (c : ascii) : string :=
  match n with
  | O => EmptyString
  | S k => String c (replicate k c)
  end.

Module Board.
(** Alice at 83456 ms and Bob at 80000 ms, Alice first in the table. *)
Definition two_drivers : State :=
  mkState [] (Some "Monza") (Some "monza") None None
          [("Alice", [(Some "abarth500", mkLap "01:23:456" 83456 0)]);
           ("Bob", [(Some "abarth500", mkLap "01:20:000" 80000 0)])]
          [] (Some (Some "GT3")).

Definition two_drivers_message : string :=
  "@everyone" ++ nl ++ "**This week: GT3 at Monza!**" ++ nl ++ nl
  ++ "**1.** 01:20:000 Bob (abarth500)" ++ nl
  ++ "**2.** 01:23:456 Alice (abarth500)" ++ nl.

(** A driver with a name of 2000 characters ahead of Bob. *)
Definition long_name : State :=
  set_laps [(replicate 2000 "A", [(Some "abarth500", mkLap "01:20:000" 80000 0)]);
            ("Bob", [(Some "abarth500", mkLap "01:23:456" 83456 0)])]
           empty_state.

(** Alice joined without a car request and set a lap. *)
Definition no_car : State :=
  set_laps [("Alice", [(None, mkLap "01:23:456" 83456 0)])] empty_state.
End Board.

(** ** The snapshot file: [json.dump(..., indent=2)] and [json.load]

    The fragment of JSON the state uses: null, integers, strings and
    objects.  A text with anything else (arrays, booleans, floats, an
    escape of a character above 255) is outside the model, and the parser
    answers [None] on it as it does on a malformed text. *)

Module Json.

Inductive json :=
| JNull
| JInt (z : Z)
| JStr (s : string)
| JObj (m : members)
with members :=
| MNil
| MCons (k : string) (v : json) (m : members).

Scheme json_mut := Induction for json Sort Prop
  with members_mut := Induction for members Sort Prop.

Fixpoint to_list (m : members) : list (string * json) :=
  match m with
  | MNil => []
  | MCons k v m' => (k, v) :: to_list m'
  end.

Fixpoint of_list (l : list (string * json)) : members :=
  match l with
  | [] => MNil
  | (k, v) :: l' => MCons k v (of_list l')
  end.

Definition dquote : ascii := ascii_of_nat 34.
Definition backslash : ascii := ascii_of_nat 92.
Definition quote_str : string := String dquote EmptyString.

(** *** Writing *)

Definition hex_char (n : nat) : ascii :=
  if n <? 10 then ascii_of_nat (48 + n) else ascii_of_nat (87 + n).

(** The escape of one character, as [ensure_ascii] has it. *)
Definition escape_char (c : ascii) : string :=
  let n := code c in
  if n =? 34 then String backslash quote_str
  else if n =? 92 then String backslash (String backslash "")
  else if n =? 8 then String backslash "b"
  else if n =? 12 then String backslash "f"
  else if n =? 10 then String backslash "n"
  else if n =? 13 then String backslash "r"
  else if n =? 9 then String backslash "t"
  else if (32 <=? n) && (n <=? 126) then String c ""
  else String backslash
         (String "u" (String "0" (String "0"
            (String (hex_char (n / 16)) (String (hex_char (n mod 16)) ""))))).

Fixpoint escape (s : string) : string :=
  match s with
  | EmptyString => EmptyString
  | String c s' => escape_char c ++ escape s'
  end.

Definition quote (s : string) : string := quote_str ++ escape s ++ quote_str.

(** Two spaces per level. *)
Fixpoint indent (lvl : nat) : string :=
  match lvl with
  | O => ""
  | S k => "  " ++ indent k
  end.

(** [json.dumps(v, indent=2)] for a value at nesting level [lvl]. *)
Fixpoint dumps (lvl : nat) (v : json) : string :=
  match v with
  | JNull => "null"
  | JInt z => str_of_Z z
  | JStr s => quote s
  | JObj MNil => "{}"
  | JObj m => "{" ++ dump_members (S lvl) m ++ nl ++ indent lvl ++ "}"
  end
with dump_members (lvl : nat) (m : members) : string :=
  match m with
  | MNil => ""
  | MCons k v m' =>
      nl ++ indent lvl ++ quote k ++ ": " ++ dumps lvl v
      ++ match m' with MNil => "" | MCons _ _ _ => "," end
      ++ dump_members lvl m'
  end.

(** *** Reading *)

Definition is_ws (c : ascii) : bool :=
  let n := code c in (n =? 32) || (n =? 9) || (n =? 10) || (n =? 13).

Fixpoint skip_ws (s : string) : string :=
  match s with
  | String c r => if is_ws c then skip_ws r else s
  | EmptyString => EmptyString
  end.

Definition hex_val (c : ascii) : option nat :=
  let n := code c in
  if (48 <=? n) && (n <=? 57) then Some (n - 48)
  else if (97 <=? n) && (n <=? 102) then Some (n - 87)
  else if (65 <=? n) && (n <=? 70) then Some (n - 55)
  else None.

Definition hex4 (a b c d : ascii) : option nat :=
  match hex_val a, hex_val b, hex_val c, hex_val d with
  | Some x, Some y, Some z, Some w => Some (((x * 16 + y) * 16 + z) * 16 + w)
  | _, _, _, _ => None
  end.

(** The character a one-letter escape stands for. *)
Definition unescape (e : ascii) : option ascii :=
  let n := code e in
  if n =? 34 then Some dquote
  else if n =? 92 then Some backslash
  else if n =? 47 then Some "/"%char
  else if n =? 98 then Some (ascii_of_nat 8)
  else if n =? 102 then Some (ascii_of_nat 12)
  else if n =? 110 then Some (ascii_of_nat 10)
  else if n =? 114 then Some (ascii_of_nat 13)
  else if n =? 116 then Some (ascii_of_nat 9)
  else None.

Definition prepend (c : ascii) (o : option (string * string)) : option (string * string) :=
  match o with
  | Some (x, rest) => Some (String c x, rest)
  | None => None
  end.

(** A string from just after its opening quote: the content and the text
    after the closing quote. *)
Fixpoint scan_string (s : string) : option (string * string) :=
  match s with
  | EmptyString => None
  | String c r =>
      if code c =? 34 then Some (EmptyString, r)
      else if code c =? 92 then
        match r with
        | EmptyString => None
        | String e r1 =>
            if code e =? 117 then
              match r1 with
              | String a (String b (String c2 (String d r2))) =>
                  match hex4 a b c2 d with
                  | Some n => if n <? 256 then prepend (ascii_of_nat n) (scan_string r2)
                              else None
                  | None => None
                  end
              | _ => None
              end
            else
              match unescape e with
              | Some ch => prepend ch (scan_string r1)
              | None => None
              end
        end
      else if code c <? 32 then None
      else prepend c (scan_string r)
  end.

(** The longest prefix of decimal digits, and the rest. *)
Fixpoint span_digits (s : string) : string * string :=
  match s with
  | String c r =>
      match digit_of c with
      | Some _ => let (ds, rest) := span_digits r in (String c ds, rest)
      | None => (EmptyString, s)
      end
  | EmptyString => (EmptyString, EmptyString)
  end.

Definition starts_float (rest : string) : bool :=
  match rest with
  | String c _ => (code c =? 46) || (code c =? 101) || (code c =? 69)
  | EmptyString => false
  end.

(** An integer literal: optional minus, then 0 or digits not led by 0. *)
Definition scan_number (s : string) : option (Z * string) :=
  let (neg, s1) :=
    match s with
    | String c r => if code c =? 45 then (true, r) else (false, s)
    | EmptyString => (false, s)
    end in
  let (ds, rest) := span_digits s1 in
  match ds with
  | EmptyString => None
  | String d ds' =>
      if (code d =? 48) && negb (is_empty ds') then None
      else if starts_float rest then None
      else let v := digits_value ds 0 in
           Some (if neg then (- v)%Z else v, rest)
  end.

Fixpoint parse_value (fuel : nat) (s : string) : option (json * string) :=
  match fuel with
  | O => None
  | S f =>
      match s with
      | EmptyString => None
      | String c r =>
          if code c =? 34 then
            match scan_string r with
            | Some (x, rest) => Some (JStr x, rest)
            | None => None
            end
          else if code c =? 123 then
            match skip_ws r with
            | String c1 r1 =>
                if code c1 =? 125 then Some (JObj MNil, r1)
                else match parse_members f (String c1 r1) with
                     | Some (m, rest) => Some (JObj m, rest)
                     | None => None
                     end
            | EmptyString => None
            end
          else if startswith "null" s then Some (JNull, drop 4 s)
          else match scan_number s with
               | Some (z, rest) => Some (JInt z, rest)
               | None => None
               end
      end
  end
with parse_members (fuel : nat) (s : string) : option (members * string) :=
  match fuel with
  | O => None
  | S f =>
      match s with
      | EmptyString => None
      | String c r =>
          if code c =? 34 then
            match scan_string r with
            | None => None
            | Some (k, r1) =>
                match skip_ws r1 with
                | EmptyString => None
                | String c2 r2 =>
                    if code c2 =? 58 then
                      match parse_value f (skip_ws r2) with
                      | None => None
                      | Some (v, r3) =>
                          match skip_ws r3 with
                          | EmptyString => None
                          | String c4 r4 =>
                              if code c4 =? 125 then Some (MCons k v MNil, r4)
                              else if code c4 =? 44 then
                                match parse_members f (skip_ws r4) with
                                | Some (m, rest) => Some (MCons k v m, rest)
                                | None => None
                                end
                              else None
                          end
                      end
                    else None
                end
            end
          else None
      end
  end.

(** The dictionaries the decoder builds: in every object a repeated key
    keeps its first place and its last value. *)
Fixpoint normalize (v : json) : json :=
  match v with
  | JObj m => JObj (of_list (Dict.of_pairs (norm_members m)))
  | _ => v
  end
with norm_members (m : members) : list (string * json) :=
  match m with
  | MNil => []
  | MCons k v m' => (k, normalize v) :: norm_members m'
  end.

(** [json.loads(text)]. *)
Definition loads (text : string) : option json :=
  match parse_value (S (String.length text)) (skip_ws text) with
  | Some (v, rest) => if is_empty (skip_ws rest) then Some (normalize v) else None
  | None => None
  end.

End Json.

(** ** The state as JSON *)

Module Snapshot.
Import Json.

Definition j_opt_str (o : option string) : json :=
  match o with Some s => JStr s | None => JNull end.

Definition j_opt_int (o : option Z) : json :=
  match o with Some z => JInt z | None => JNull end.

(** The key the encoder writes for a car: a None key becomes "null". *)
Definition key_text (c : option string) : string :=
  match c with Some s => s | None => "null" end.

Definition j_lap (r : Lap) : json :=
  JObj (MCons "time" (JStr (time r))
       (MCons "time_ms" (JInt (time_ms r))
       (MCons "cuts" (JInt (cuts r)) MNil))).

Fixpoint j_carlaps (cl : CarLaps) : members :=
  match cl with
  | [] => MNil
  | (c, r) :: cl' => MCons (key_text c) (j_lap r) (j_carlaps cl')
  end.

Fixpoint j_table (t : LapTable) : members :=
  match t with
  | [] => MNil
  | (n, cl) :: t' => MCons n (JObj (j_carlaps cl)) (j_table t')
  end.

Definition j_driver (d : Driver) : json :=
  JObj (MCons "id" (j_opt_int (id d)) (MCons "car" (j_opt_str (car d)) MNil)).

Fixpoint j_online (o : Dict.t string Driver) : members :=
  match o with
  | [] => MNil
  | (n, d) :: o' => MCons n (j_driver d) (j_online o')
  end.

(** What [json.dump] writes for the state, keys in the order of
    [reset_state]. *)
Definition state_json (s : State) : json :=
  JObj (MCons "online" (JObj (j_online (online s)))
       (MCons "track_name" (j_opt_str (track_name s))
       (MCons "track_directory" (j_opt_str (track_directory s))
       (MCons "track_message_id" (j_opt_int (track_message_id s))
       (MCons "archive_path" (j_opt_str (archive_path s))
       (MCons "laps" (JObj (j_table (laps s)))
       (MCons "naughties" (JObj (j_table (naughties s)))
       (match carset s with
        | Some cs => MCons "carset" (j_opt_str cs) MNil
        | None => MNil
        end)))))))).

(** The text of web/state.json after [json.dump(self.state, ..., indent=2)]. *)
Definition dump_state (s : State) : string := dumps 0 (state_json s).

(** Reading a loaded dictionary as a state. *)

Definition field (m : members) (k : string) : option json := Dict.get (to_list m) k.

Definition as_str (j : option json) : option string :=
  match j with Some (JStr s) => Some s | _ => None end.

Definition as_int (j : option json) : option Z :=
  match j with Some (JInt z) => Some z | _ => None end.

Definition as_opt_str (j : option json) : option (option string) :=
  match j with
  | Some JNull => Some None
  | Some (JStr s) => Some (Some s)
  | _ => None
  end.

Definition as_opt_int (j : option json) : option (option Z) :=
  match j with
  | Some JNull => Some None
  | Some (JInt z) => Some (Some z)
  | _ => None
  end.

Fixpoint map_members {A} (f : json -> option A) (m : members) : option (list (string * A)) :=
  match m with
  | MNil => Some []
  | MCons k v m' =>
      match f v, map_members f m' with
      | Some a, Some r => Some ((k, a) :: r)
      | _, _ => None
      end
  end.

Definition of_lap (j : json) : option Lap :=
  match j with
  | JObj m =>
      match as_str (field m "time"), as_int (field m "time_ms"), as_int (field m "cuts") with
      | Some t, Some ms, Some c => Some (mkLap t ms c)
      | _, _, _ => None
      end
  | _ => None
  end.

(** The keys of a loaded dictionary are strings. *)
Definition of_carlaps (j : json) : option CarLaps :=
  match j with
  | JObj m =>
      option_map (map (fun kr : string * Lap => (Some (fst kr), snd kr)))
                 (map_members of_lap m)
  | _ => None
  end.

Definition of_table (j : option json) : option LapTable :=
  match j with
  | Some (JObj m) => map_members of_carlaps m
  | _ => None
  end.

Definition of_driver (j : json) : option Driver :=
  match j with
  | JObj m =>
      match as_opt_int (field m "id"), as_opt_str (field m "car") with
      | Some i, Some c => Some (mkDriver i c)
      | _, _ => None
      end
  | _ => None
  end.

Definition of_online (j : option json) : option (Dict.t string Driver) :=
  match j with
  | Some (JObj m) => map_members of_driver m
  | _ => None
  end.

Definition of_state (j : json) : option State :=
  match j with
  | JObj m =>
      match of_online (field m "online"),
            as_opt_str (field m "track_name"),
            as_opt_str (field m "track_directory"),
            as_opt_int (field m "track_message_id"),
            as_opt_str (field m "archive_path"),
            of_table (field m "laps"),
            of_table (field m "naughties"),
            match field m "carset" with
            | None => Some None
            | Some c => option_map Some (as_opt_str (Some c))
            end
      with
      | Some o, Some tn, Some td, Some ti, Some ap, Some l, Some n, Some cs =>
          Some (mkState o tn td ti ap l n cs)
      | _, _, _, _, _, _, _, _ => None
      end
  | _ => None
  end.

(** [self.state = json.load(open(p))], read as a state. *)
Definition load_state (text : string) : option State :=
  match loads text with
  | Some j => of_state j
  | None => None
  end.

(** The last state written to web/state.json in a trace. *)
Fixpoint last_written (tr : trace) : option State :=
  match tr with
  | [] => None
  | ev :: tr' =>
      match last_written tr' with
      | Some s => Some s
      | None => match ev_call ev with WriteState s => Some s | _ => None end
      end
  end.

End Snapshot.

(** ** Notions for the snapshot round trip *)

Module RoundTrip.
Import Json.

(** What may follow a value in a written text: nothing, a comma or a line
    break. *)
Definition delimited (rest : string) : Prop :=
  match rest with
  | EmptyString => True
  | String c _ => code c = 44 \/ code c = 10
  end.

Fixpoint size (v : json) : nat :=
  match v with
  | JObj m => S (msize m)
  | _ => 1
  end
with msize (m : members) : nat :=
  match m with
  | MNil => 0
  | MCons _ v m' => S (size v + msize m')
  end.

(** No object has a key twice. *)
Fixpoint distinct_keys (v : json) : Prop :=
  match v with
  | JObj m => NoDup (map fst (to_list m)) /\ members_distinct m
  | _ => True
  end
with members_distinct (m : members) : Prop :=
  match m with
  | MNil => True
  | MCons _ v m' => distinct_keys v /\ members_distinct m'
  end.

(** A lap table as a dictionary of dictionaries whose laps are all filed
    under a car name. *)
Definition named_cars (t : LapTable) : Prop :=
  NoDup (Dict.keys t)
  /\ Forall (fun row : string * CarLaps =>
               NoDup (Dict.keys (snd row))
               /\ Forall (fun cl : option string * Lap => exists c, fst cl = Some c)
                         (snd row)) t.

Definition restorable (s : State) : Prop :=
  NoDup (Dict.keys (online s)) /\ named_cars (laps s) /\ named_cars (naughties s).

End RoundTrip.

Module RoundTripText.
Import Json.

(** The comma [dump_members] writes between a member and the next. *)
Definition sep (m : members) : string :=
  match m with MNil => "" | MCons _ _ _ => "," end.

(** The closing of an object at level [lvl]. *)
Definition closing (lvl : nat) (rest : string) : string :=
  nl ++ indent lvl ++ "}" ++ rest.

End RoundTripText.

(** ** Notions for the further properties *)

(** The method [c], when it returns, leaves the part [proj] of the object
    as it found it. *)
Definition keeps {B A} (proj : Monitor -> B) (c : M A) : Prop :=
  forall m tr a m' tr', c m tr = Return a m' tr' -> proj m' = proj m.

(** The fields of the state other than the archive path and the id of the
    leaderboard message. *)
Definition same_session (s s' : State) : Prop :=
  online s' = online s /\ laps s' = laps s /\ naughties s' = naughties s
  /\ track_name s' = track_name s /\ track_directory s' = track_directory s
  /\ carset s' = carset s.

(** The test of [update_state_with_race_json]: the track name or the
    carset of race.json is not the one of the state, or the state has no
    carset key. *)
Definition race_json_differs (rj : RaceJson) (st : State) : bool :=
  negb (opt_eqb (rj_track_name rj) (track_name st))
  || match carset st with
     | None => true
     | Some cs => negb (opt_eqb (rj_carset rj) cs)
     end.

(** The character [c] does not occur in [s]. *)
Fixpoint lacks (c : ascii) (s : string) : bool :=
  match s with
  | EmptyString => true
  | String a s' => negb (Ascii.eqb c a) && lacks c s'
  end.

(** What the lap branch does to the table a lap of an online driver goes
    to: the entry of the name is made sure of, and the lap is stored under
    the car if there is none yet or if it is strictly faster. *)
Definition upsert (tb : LapTable) (n : string) (c : option string) (lap : Lap)
  : LapTable :=
  let tb1 := if Dict.mem tb n then tb else Dict.set tb n [] in
  let mine := match Dict.get tb1 n with Some x => x | None => [] end in
  if match Dict.get mine c with
     | None => true
     | Some old => (time_ms lap <? time_ms old)%Z
     end
  then Dict.set tb1 n (Dict.set mine c lap)
  else tb1.

(** Every lap stored in the table satisfies [P]. *)
Definition all_laps (P : Lap -> Prop) (t : LapTable) : Prop :=
  Forall (fun row : string * CarLaps =>
            Forall (fun cl : option string * Lap => P (snd cl)) (snd row)) t.

(** The lap carries the milliseconds of its time string. *)
Definition timed (r : Lap) : Prop := to_ms (time r) = inr (time_ms r).

(** The valid laps have no cuts, the cut laps have some, and all carry
    the milliseconds of their time string. *)
Definition sound_tables (st : State) : Prop :=
  all_laps (fun r => cuts r = 0%Z /\ timed r) (laps st)
  /\ all_laps (fun r => cuts r <> 0%Z /\ timed r) (naughties st).

(** web/state.json holds the state that is in memory. *)
Definition synced (m : Monitor) (tr : trace) : Prop :=
  Snapshot.last_written tr = Some (state m).

(** The method leaves the file and the memory in step, whatever they were
    before; the method keeps them in step if they were. *)
Definition syncs {A} (c : M A) : Prop :=
  forall m tr a m' tr', c m tr = Return a m' tr' -> synced m' tr'.

Definition keeps_synced {A} (c : M A) : Prop :=
  forall m tr a m' tr', synced m tr -> c m tr = Return a m' tr' -> synced m' tr'.

(** No driver of the roster has a join message on the log webhook. *)
Definition no_ids (st : State) : Prop :=
  Forall (fun nd : string * Driver => truthy_int (id (snd nd)) = false) (online st).

(** Every driver of the roster has a car, and the snapshot of the state
    can be read back. *)
Definition named (st : State) : Prop :=
  RoundTrip.restorable st
  /\ Forall (fun nd : string * Driver => car (snd nd) <> None) (online st).

(** The laps of one driver: each car once, and each a car name. *)
Definition named_row (cl : CarLaps) : Prop :=
  NoDup (Dict.keys cl)
  /\ Forall (fun x : option string * Lap => exists c, fst x = Some c) cl.

(** Every "DRIVER:" line of the log comes with a car: since the last join
    (or the start, unless a request is [pending]) there was a
    "REQUESTED CAR:" line. *)
Fixpoint cars_requested (pending : bool) (lines : list string) : bool :=
  match lines with
  | [] => true
  | l :: rest =>
      if startswith "REQUESTED CAR:" l then cars_requested true rest
      else if startswith "DRIVER:" l then pending && cars_requested false rest
      else cars_requested pending rest
  end.

(** * Properties *)

(** ** Strings *)

Section StringFacts.

Lemma digit_not_colon c d : digit_of c = Some d -> Ascii.eqb ":" c = false.
Proof.
  destruct c as [[] [] [] [] [] [] [] []]; vm_compute; congruence.
Qed.

Lemma digit_not_space c d : digit_of c = Some d -> isspace_int c = false.
Proof.
  destruct c as [[] [] [] [] [] [] [] []]; vm_compute; congruence.
Qed.

Lemma digit_not_sign c d :
  digit_of c = Some d -> Ascii.eqb c "-" = false /\ Ascii.eqb c "+" = false.
Proof.
  destruct c as [[] [] [] [] [] [] [] []]; vm_compute; split; congruence.
Qed.

Lemma digit_of_value c d : digit_of c = Some d -> d = Z.of_nat (code c - 48).
Proof.
  unfold digit_of. destruct (_ && _); congruence.
Qed.

(** Splitting at a one-character separator, character by character. *)
Lemma split_char_sep c s :
  split (String c "") (String c s) = "" :: split (String c "") s.
Proof.
  unfold split. simpl. rewrite Ascii.eqb_refl. reflexivity.
Qed.

Lemma split_char_other c a s :
  Ascii.eqb c a = false ->
  split (String c "") (String a s) =
  match split (String c "") s with
  | p :: ps => String a p :: ps
  | [] => [String a ""]
  end.
Proof.
  intros Hne. unfold split. simpl. rewrite Hne. reflexivity.
Qed.

Lemma split_colon_digits d rest :
  all_digits d = true ->
  split ":" (d ++ ":" ++ rest) = d :: split ":" rest.
Proof.
  induction d as [|c d IH]; simpl; intros Hd.
  - apply split_char_sep.
  - apply andb_prop in Hd. destruct Hd as [Hc Hd].
    destruct (digit_of c) as [v|] eqn:Hv; [|discriminate].
    rewrite split_char_other by (eapply digit_not_colon; eauto).
    simpl in IH. rewrite IH by assumption. reflexivity.
Qed.

Lemma split_colon_last d : all_digits d = true -> split ":" d = [d].
Proof.
  induction d as [|c d IH]; simpl; intros Hd; [reflexivity|].
  apply andb_prop in Hd. destruct Hd as [Hc Hd].
  destruct (digit_of c) as [v|] eqn:Hv; [|discriminate].
  rewrite split_char_other by (eapply digit_not_colon; eauto).
  rewrite IH by assumption. reflexivity.
Qed.

Lemma rstrip_digits d : all_digits d = true -> rstrip_by isspace_int d = d.
Proof.
  induction d as [|c d IH]; simpl; intros Hd; [reflexivity|].
  apply andb_prop in Hd. destruct Hd as [Hc Hd].
  destruct (digit_of c) as [v|] eqn:Hv; [|discriminate].
  rewrite (digit_not_space _ _ Hv), IH by assumption. reflexivity.
Qed.

Lemma lstrip_digits d : all_digits d = true -> lstrip_by isspace_int d = d.
Proof.
  destruct d as [|c d]; simpl; intros Hd; [reflexivity|].
  apply andb_prop in Hd. destruct Hd as [Hc Hd].
  destruct (digit_of c) as [v|] eqn:Hv; [|discriminate].
  rewrite (digit_not_space _ _ Hv). reflexivity.
Qed.

Lemma int_digits_value d : forall acc b,
  all_digits d = true -> (d <> "" \/ b = true) ->
  int_digits d acc b = Some (digits_value d acc).
Proof.
  induction d as [|c d IH]; simpl; intros acc b Hd Hne.
  - destruct Hne as [Hne | ->]; [congruence | reflexivity].
  - apply andb_prop in Hd. destruct Hd as [Hc Hd].
    destruct (digit_of c) as [v|] eqn:Hv; [|discriminate].
    rewrite (digit_of_value _ _ Hv). apply IH; auto.
Qed.

(** [int()] of a non-empty string of decimal digits is its value. *)
Lemma py_int_digits d :
  d <> "" -> all_digits d = true -> py_int d = Some (digits_value d 0).
Proof.
  intros Hne Hd. unfold py_int, strip_by.
  rewrite lstrip_digits, rstrip_digits by assumption.
  destruct d as [|c d]; [congruence|].
  pose proof Hd as Hd'. simpl in Hd'. apply andb_prop in Hd'.
  destruct Hd' as [Hc _].
  destruct (digit_of c) as [v|] eqn:Hv; [|discriminate].
  destruct (digit_not_sign _ _ Hv) as [-> ->].
  apply int_digits_value; auto.
Qed.

End StringFacts.

(** ** C9: the time conversion *)

(** C9.  For a time string made of three non-empty groups of decimal
    digits separated by colons, [to_ms] returns minutes * 60000 +
    seconds * 1000 + millis in exact integer arithmetic; "01:23:456" gives
    83456. *)
Theorem to_ms_well_formed (mi se ms : string) :
  mi <> "" -> se <> "" -> ms <> "" ->
  all_digits mi = true -> all_digits se = true -> all_digits ms = true ->
  to_ms (mi ++ ":" ++ se ++ ":" ++ ms)
  = inr (digits_value mi 0 * 60000 + digits_value se 0 * 1000 + digits_value ms 0)%Z
  /\ to_ms "01:23:456" = inr 83456%Z.
Proof.
  intros Hmi Hse Hms Dmi Dse Dms. split; [|reflexivity].
  unfold to_ms.
  rewrite (split_colon_digits mi _ Dmi), (split_colon_digits se _ Dse),
          (split_colon_last ms Dms).
  cbv beta iota delta [nth_error].
  rewrite (py_int_digits mi Hmi Dmi), (py_int_digits se Hse Dse),
          (py_int_digits ms Hms Dms).
  reflexivity.
Qed.

Lemma to_ms_well_formed_witness :
  to_ms ("1" ++ ":" ++ "02" ++ ":" ++ "003") = inr 62003%Z.
Proof.
  exact (proj1 (to_ms_well_formed "1" "02" "003"
                  ltac:(discriminate) ltac:(discriminate) ltac:(discriminate)
                  eq_refl eq_refl eq_refl)).
Defined.

(** ** C7: a TRACK= line that names the current track *)

Lemma track_line_other_markers line :
  startswith "TRACK=" line = true ->
  startswith "REQUESTED CAR:" line = false
  /\ startswith "DRIVER:" line = false
  /\ startswith "Clean exit, driver disconnected" line = false
  /\ startswith "Connection is now closed" line = false
  /\ startswith "Result.OnLapCompleted" line = false
  /\ startswith "Num CPU:" line = false.
Proof.
  destruct line as [|a s]; cbn [startswith]; [discriminate|].
  intros H. apply andb_prop in H. destruct H as [Ha _].
  apply Ascii.eqb_eq in Ha. subst a. repeat split; reflexivity.
Qed.

(** C7.  A line that starts with "TRACK=" and whose value (the stripped
    text after its last "=") is the stored track directory leaves the
    object as it was but for the line history, and makes no call: no
    reset, no file written, no message. *)
Theorem track_same_is_noop cfg env (ld ul dn : bool) line m tr :
  startswith "TRACK=" line = true ->
  track_directory (state m) = Some (strip (last_piece "=" line)) ->
  parse_line cfg env ld ul dn line m tr
  = Return tt (with_history (firstn 10 (line :: history m)) m) tr.
Proof.
  intros Hp Hd.
  destruct (track_line_other_markers line Hp) as (H1 & H2 & H3 & H4 & H5 & H6).
  unfold parse_line, bind, modify, get_self, ret.
  rewrite H1, H2, H3, H4, H5, H6, Hp.
  cbn [state with_history]. rewrite Hd. cbn [opt_eqb].
  rewrite String.eqb_refl. reflexivity.
Qed.

Lemma track_same_is_noop_witness :
  let m := with_state (set_track_directory (Some "monza") empty_state) blank in
  parse_line (mkConfig "srv" None true true None)
             (mkEnv (fun _ _ => Some 1%Z) (fun _ _ => true))
             true true false ("TRACK=monza" ++ nl) m []
  = Return tt (with_history ["TRACK=monza" ++ nl] m) [].
Proof.
  intro m.
  exact (track_same_is_noop (mkConfig "srv" None true true None)
           (mkEnv (fun _ _ => Some 1%Z) (fun _ _ => true))
           true true false ("TRACK=monza" ++ nl) m [] eq_refl eq_refl).
Defined.

(** ** Dictionaries *)

Section DictFacts.
Context {K V : Type} `{EqKey K}.

Lemma keq_refl (k : K) : keq k k = true.
Proof. apply keq_spec. reflexivity. Qed.

Lemma keq_neq (a b : K) : a <> b -> keq a b = false.
Proof.
  intros Hne. destruct (keq a b) eqn:E; [|reflexivity].
  apply keq_spec in E. contradiction.
Qed.

Lemma get_set_same (d : Dict.t K V) k v : Dict.get (Dict.set d k v) k = Some v.
Proof.
  induction d as [|[k' v'] d IH]; simpl.
  - rewrite keq_refl. reflexivity.
  - destruct (keq k' k) eqn:E; simpl; rewrite E; auto.
Qed.

Lemma get_set_other (d : Dict.t K V) k k' v :
  k <> k' -> Dict.get (Dict.set d k v) k' = Dict.get d k'.
Proof.
  intros Hne. induction d as [|[k0 v0] d IH]; simpl.
  - rewrite keq_neq by assumption. reflexivity.
  - destruct (keq k0 k) eqn:E; simpl.
    + apply keq_spec in E. subst k0. rewrite keq_neq by assumption.
      reflexivity.
    + destruct (keq k0 k'); auto.
Qed.


Lemma get_pop_other (d : Dict.t K V) k k' :
  k <> k' -> Dict.get (Dict.pop d k) k' = Dict.get d k'.
Proof.
  intros Hne. induction d as [|[k0 v0] d IH]; simpl; [reflexivity|].
  destruct (keq k0 k) eqn:E; simpl.
  - apply keq_spec in E. subst k0. rewrite keq_neq by assumption. exact IH.
  - destruct (keq k0 k'); auto.
Qed.
End DictFacts.

(** ** What saving and posting leave alone *)

Section Frames.
Variable cfg : Config.
Variable env : Env.

Lemma same_tables_refl s : same_tables s s.
Proof. repeat split. Qed.

Lemma same_tables_trans s1 s2 s3 :
  same_tables s1 s2 -> same_tables s2 s3 -> same_tables s1 s3.
Proof.
  unfold same_tables. intros (A & B & C) (D & E & F).
  repeat split; congruence.
Qed.

(** Saving never raises; it sets [archive_path] and nothing else. *)
Lemma save_returns skip m tr :
  exists ap tr',
    save_and_archive_state skip m tr
    = Return tt (if skip then m else with_state (set_archive_path ap (state m)) m) tr'.
Proof.
  unfold save_and_archive_state. destruct skip.
  - exists None, tr. reflexivity.
  - run. cbn [state with_state].
    match goal with |- context [set_archive_path ?a _] => set (ap := a) end.
    exists ap. destruct (truthy_str ap) eqn:T.
    + destruct ap as [p|]; [|discriminate]. eexists. reflexivity.
    + eexists. reflexivity.
Qed.

Lemma save_same_tables skip m tr a m' tr' :
  save_and_archive_state skip m tr = Return a m' tr' ->
  same_tables (state m) (state m').
Proof.
  destruct (save_returns skip m tr) as (ap & tr0 & E). rewrite E.
  intros [= _ <- _]. destruct skip; repeat split.
Qed.

Lemma post_laps_same_tables message m tr a m' tr' :
  post_laps cfg env message m tr = Return a m' tr' ->
  same_tables (state m) (state m').
Proof.
  unfold post_laps. destruct (url_webhook_laps cfg).
  2:{ intros [= _ <- _]. apply same_tables_refl. }
  assert (Hnew : forall m0 tr0 a0 m1 tr1,
    (i <- try_send env LapsSend message ;;
     (match i with
      | Some j => modify_state (set_track_message_id (Some j))
      | None => ret tt
      end) ;;
     save_and_archive_state false) m0 tr0 = Return a0 m1 tr1 ->
    same_tables (state m0) (state m1)).
  { intros m0 tr0 a0 m1 tr1. unfold try_send. run.
    destruct (send_answer env tr0 (LapsSend message)) as [j|]; intros E;
      apply save_same_tables in E; exact E. }
  run. destruct (track_message_id (state m)) as [i|].
  - destruct (truthy_int (Some i)).
    + destruct (edit_answer env tr (LapsEdit i message)).
      * intros [= _ <- _]. apply same_tables_refl.
      * apply Hnew.
    + apply Hnew.
  - apply Hnew.
Qed.

Lemma send_laps_same_tables m tr a m' tr' :
  send_laps cfg env m tr = Return a m' tr' ->
  same_tables (state m) (state m').
Proof.
  unfold send_laps. run. destruct (laps_message cfg (state m)); [discriminate|].
  apply post_laps_same_tables.
Qed.
End Frames.

(** ** C1: the stored lap is the fastest one *)

Section BestLap.
Variable cfg : Config.
Variable env : Env.

Lemma table_eqb_eq a b : table_eqb a b = true -> a = b.
Proof. destruct a, b; simpl; congruence. Qed.

Lemma get_set_table k k' v s :
  get_table k' (set_table k v s) = if table_eqb k k' then v else get_table k' s.
Proof. destruct k, k'; reflexivity. Qed.

Lemma online_set_table k v s : online (set_table k v s) = online s.
Proof. destruct k; reflexivity. Qed.

Lemma same_tables_get k s s' : same_tables s s' -> get_table k s' = get_table k s.
Proof. intros (_ & A & B). destruct k; assumption. Qed.

(** Making sure the name has an entry stores no lap. *)
Lemma lookup_ensure (tb : LapTable) n n' c :
  lookup (if Dict.mem tb n then tb else Dict.set tb n []) n' c = lookup tb n' c.
Proof.
  unfold Dict.mem. destruct (Dict.get tb n) as [cl|] eqn:E; [reflexivity|].
  unfold lookup. destruct (String.eqb n n') eqn:En.
  - apply String.eqb_eq in En. subst n'.
    rewrite get_set_same, E. reflexivity.
  - apply String.eqb_neq in En. rewrite get_set_other by assumption.
    reflexivity.
Qed.

Lemma lookup_set (tb : LapTable) n mine c lap :
  lookup (Dict.set tb n (Dict.set mine c lap)) n c = Some lap.
Proof. unfold lookup. rewrite get_set_same. apply get_set_same. Qed.

(** One lap of an online driver: the roster is untouched, and the record
    of the driver's car follows the replacement rule in the table the lap
    goes to. *)
Lemma record_lap_step t ms n d cuts ul dn m tr m' tr' :
  to_ms t = inr ms ->
  Dict.get (online (state m)) n = Some d ->
  record_lap cfg env t n cuts ul dn m tr = Return tt m' tr' ->
  online (state m') = online (state m)
  /\ forall k,
       lookup (get_table k (state m')) n (car d)
       = if table_eqb (table_of cuts) k
         then keep_faster (lookup (get_table k (state m)) n (car d)) (mkLap t ms cuts)
         else lookup (get_table k (state m)) n (car d).
Proof.
  intros Hms Hon. unfold record_lap. rewrite Hms. run.
  cbn [state with_state].
  set (K := table_of cuts).
  set (st1 := if Dict.mem (get_table K (state m)) n then state m
              else set_table K (Dict.set (get_table K (state m)) n []) (state m)).
  assert (Hon1 : online st1 = online (state m)).
  { subst st1. destruct (Dict.mem _ _); [reflexivity | apply online_set_table]. }
  assert (Hlk1 : forall k, lookup (get_table k st1) n (car d)
                           = lookup (get_table k (state m)) n (car d)).
  { intros k. subst st1. destruct (table_eqb K k) eqn:Ek.
    - pose proof (table_eqb_eq _ _ Ek) as <-.
      rewrite <- (lookup_ensure (get_table K (state m)) n n (car d)).
      destruct (Dict.mem _ _); [reflexivity|].
      rewrite get_set_table, Ek. reflexivity.
    - destruct (Dict.mem _ _); [reflexivity|].
      rewrite get_set_table, Ek. reflexivity. }
  rewrite Hon1, Hon.
  set (mine := match Dict.get (get_table K st1) n with Some x => x | None => [] end).
  assert (Hmine : Dict.get mine (car d) = lookup (get_table K (state m)) n (car d)).
  { rewrite <- Hlk1. unfold lookup, mine.
    destruct (Dict.get (get_table K st1) n); reflexivity. }
  set (lap := mkLap t ms cuts).
  set (cond := match Dict.get mine (car d) with
               | None => true
               | Some old => (ms <? time_ms old)%Z
               end).
  assert (Hkf : keep_faster (lookup (get_table K (state m)) n (car d)) lap
                = if cond then Some lap else lookup (get_table K (state m)) n (car d)).
  { subst cond. rewrite Hmine.
    destruct (lookup (get_table K (state m)) n (car d)) as [old|]; [|reflexivity].
    cbn [keep_faster lap time_ms]. destruct (ms <? time_ms old)%Z; reflexivity. }
  destruct cond.
  - intros E.
    match type of E with
    | context [save_and_archive_state dn ?m1 ?tr1] =>
        destruct (save_returns dn m1 tr1) as (ap & tr2 & Es)
    end.
    rewrite Es in E. clear Es.
    assert (Hs : same_tables (set_table K
                  (Dict.set (get_table K st1) n (Dict.set mine (car d) lap)) st1)
                  (state m')).
    { destruct ul.
      - apply send_laps_same_tables in E.
        eapply same_tables_trans; [|exact E].
        destruct dn; cbn [state with_state]; repeat split.
      - injection E as <- _. destruct dn; cbn [state with_state]; repeat split. }
    split.
    + destruct Hs as (A & _). rewrite A, online_set_table. exact Hon1.
    + intros k. rewrite (same_tables_get k _ _ Hs), get_set_table.
      destruct (table_eqb K k) eqn:Ek.
      * pose proof (table_eqb_eq _ _ Ek) as <-.
        rewrite lookup_set, Hkf. reflexivity.
      * rewrite Hlk1. reflexivity.
  - intros [= <- _]. cbn [state with_state]. split; [exact Hon1|].
    intros k. rewrite Hlk1. destruct (table_eqb K k) eqn:Ek; [|reflexivity].
    pose proof (table_eqb_eq _ _ Ek) as <-.
    rewrite Hkf. reflexivity.
Qed.
End BestLap.

Section BestLapSequence.
Variable cfg : Config.
Variable env : Env.

Lemma run_laps_fold n d ul dn recs : forall m tr m' tr',
  Dict.get (online (state m)) n = Some d ->
  Forall (fun r => to_ms (time r) = inr (time_ms r)) recs ->
  run_laps cfg env n recs ul dn m tr = Return tt m' tr' ->
  online (state m') = online (state m)
  /\ forall k,
       lookup (get_table k (state m')) n (car d)
       = fold_left keep_faster (laps_for k recs)
                   (lookup (get_table k (state m)) n (car d)).
Proof.
  induction recs as [|r recs IH]; intros m tr m' tr' Hon Hok Hrun.
  - injection Hrun as <- _. split; reflexivity.
  - inversion Hok as [|? ? Hr Hrest]; subst.
    unfold run_laps in Hrun. cbn [for_each] in Hrun. unfold bind in Hrun.
    destruct (record_lap cfg env (time r) n (cuts r) ul dn m tr)
      as [[] m1 tr1|] eqn:Hstep; [|discriminate].
    destruct (record_lap_step cfg env _ _ _ _ _ _ _ _ _ _ _ Hr Hon Hstep)
      as (Hon1 & Hlk1).
    assert (Hon' : Dict.get (online (state m1)) n = Some d) by (rewrite Hon1; exact Hon).
    destruct (IH m1 tr1 m' tr' Hon' Hrest Hrun) as (Hon2 & Hlk2).
    split; [congruence|].
    intros k. rewrite Hlk2, Hlk1. unfold laps_for. cbn [filter].
    destruct (table_eqb (table_of (cuts r)) k); cbn [fold_left]; [|reflexivity].
    destruct r; reflexivity.
Qed.
End BestLapSequence.

(** The replacement rule keeps the minimum of the times seen. *)
Lemma keep_faster_minimum recs : forall old v,
  option_map time_ms (fold_left keep_faster recs old) = Some v
  <-> is_minimum v (known_times old recs).
Proof.
  unfold is_minimum, known_times.
  induction recs as [|r recs IH]; intros old v.
  - destruct old as [o|]; simpl.
    + split.
      * intros [= <-]. split; [auto|]. intros x [<-|[]]. lia.
      * intros ([<-|[]] & _). reflexivity.
    + split; [discriminate | intros ([] & _)].
  - cbn [fold_left]. rewrite IH. destruct old as [o|]; cbn [keep_faster].
    + destruct (time_ms r <? time_ms o)%Z eqn:Hlt.
      * apply Z.ltb_lt in Hlt. simpl. split.
        -- intros (Hin & Hle). split; [tauto|].
           intros x [<-|[<-|Hx]]; [|auto|auto].
           specialize (Hle (time_ms r)). assert (v <= time_ms r)%Z by auto. lia.
        -- intros (Hin & Hle). split.
           ++ destruct Hin as [<-|Hin]; [|exact Hin].
              specialize (Hle (time_ms r)). assert (time_ms o <= time_ms r)%Z by auto.
              lia.
           ++ intros x [<-|Hx]; auto.
      * apply Z.ltb_ge in Hlt. simpl. split.
        -- intros (Hin & Hle). split; [tauto|].
           intros x [<-|[<-|Hx]]; [auto| |auto].
           specialize (Hle (time_ms o)). assert (v <= time_ms o)%Z by auto. lia.
        -- intros (Hin & Hle). split.
           ++ destruct Hin as [<-|[<-|Hin]]; [auto| |auto].
              assert (time_ms r <= time_ms o)%Z by auto.
              left. lia.
           ++ intros x [<-|Hx]; auto.
    + simpl. tauto.
Qed.

(** C1.  Let the driver [n] be online with some car, and let a sequence of
    laps of [n] with well-formed times be recorded, in any order and in
    either processing mode.  If the run returns then, in each of the two
    tables, the record stored for [n] and that car results from the one
    stored at the start by the rule "replace when there is none or when
    strictly faster" applied to the laps that go to the table, and its
    time in ms is the minimum of the time stored at the start and the
    times of those laps, whatever their order. *)
Theorem best_lap_is_minimum cfg env n d (ul dn : bool) k recs m tr m' tr' :
  Dict.get (online (state m)) n = Some d ->
  Forall (fun r => to_ms (time r) = inr (time_ms r)) recs ->
  run_laps cfg env n recs ul dn m tr = Return tt m' tr' ->
  let old := lookup (get_table k (state m)) n (car d) in
  let new := lookup (get_table k (state m')) n (car d) in
  new = fold_left keep_faster (laps_for k recs) old
  /\ (forall v, option_map time_ms new = Some v
                <-> is_minimum v (known_times old (laps_for k recs)))
  /\ (forall recs' m2 tr2,
        Permutation recs recs' ->
        run_laps cfg env n recs' ul dn m tr = Return tt m2 tr2 ->
        option_map time_ms (lookup (get_table k (state m2)) n (car d))
        = option_map time_ms new).
Proof.
  intros Hon Hok Hrun old new.
  destruct (run_laps_fold cfg env _ _ _ _ _ _ _ _ _ Hon Hok Hrun) as (_ & Hlk).
  assert (Hnew : new = fold_left keep_faster (laps_for k recs) old) by apply Hlk.
  assert (Hmin : forall v, option_map time_ms new = Some v
                 <-> is_minimum v (known_times old (laps_for k recs))).
  { intros v. rewrite Hnew. apply keep_faster_minimum. }
  split; [exact Hnew|]. split; [exact Hmin|].
  intros recs' m2 tr2 Hperm Hrun2.
  assert (Hok2 : Forall (fun r => to_ms (time r) = inr (time_ms r)) recs').
  { rewrite Forall_forall in *. intros r Hr. apply Hok.
    eapply Permutation_in; [apply Permutation_sym; exact Hperm | exact Hr]. }
  destruct (run_laps_fold cfg env _ _ _ _ _ _ _ _ _ Hon Hok2 Hrun2) as (_ & Hlk2).
  specialize (Hlk2 k). fold old in Hlk2.
  assert (Hiff : forall v,
            is_minimum v (known_times old (laps_for k recs'))
            <-> is_minimum v (known_times old (laps_for k recs))).
  { assert (Hp : Permutation (known_times old (laps_for k recs))
                             (known_times old (laps_for k recs'))).
    { unfold known_times, laps_for. apply Permutation_app_head.
      apply Permutation_map. clear - Hperm.
      induction Hperm; cbn [filter].
      - constructor.
      - destruct (table_eqb _ _); [constructor|]; assumption.
      - destruct (table_eqb (table_of (cuts x)) k), (table_eqb (table_of (cuts y)) k);
          try reflexivity; constructor.
      - etransitivity; eassumption. }
    intros v. unfold is_minimum. split; intros (Hin & Hle); split.
    - eapply Permutation_in; [apply Permutation_sym; exact Hp | exact Hin].
    - intros x Hx. apply Hle. eapply Permutation_in; [exact Hp | exact Hx].
    - eapply Permutation_in; [exact Hp | exact Hin].
    - intros x Hx. apply Hle.
      eapply Permutation_in; [apply Permutation_sym; exact Hp | exact Hx]. }
  destruct (option_map time_ms (lookup (get_table k (state m2)) n (car d)))
    as [v2|] eqn:E2.
  - symmetry. apply Hmin. apply Hiff.
    apply (keep_faster_minimum (laps_for k recs') old v2).
    rewrite <- Hlk2. exact E2.
  - destruct (option_map time_ms new) as [v|] eqn:E; [|reflexivity].
    exfalso. pose proof (proj1 (Hmin v) eq_refl) as Hm. apply Hiff in Hm.
    apply (keep_faster_minimum (laps_for k recs') old v) in Hm.
    rewrite <- Hlk2 in Hm. congruence.
Qed.

Lemma best_lap_is_minimum_witness :
  lookup (laps (state (final_monitor
            (run_laps Sample.cfg Sample.up "Alice" Sample.three_laps true false
                      Sample.m_alice []))))
         "Alice" (Some "abarth500")
  = Some (mkLap "01:20:000" 80000 0).
Proof.
  set (o := run_laps Sample.cfg Sample.up "Alice" Sample.three_laps true false
                     Sample.m_alice []).
  assert (Hrun : o = Return tt (final_monitor o) (final_trace o))
    by (vm_compute; reflexivity).
  assert (Hok : Forall (fun r => to_ms (time r) = inr (time_ms r)) Sample.three_laps)
    by (repeat constructor).
  destruct (best_lap_is_minimum Sample.cfg Sample.up "Alice" Sample.alice true false
              Laps Sample.three_laps Sample.m_alice [] (final_monitor o)
              (final_trace o) eq_refl Hok Hrun) as (H & _).
  exact (eq_trans H eq_refl).
Defined.

(** In replay mode (no leaderboard update) a lap with a well-formed time
    never raises, so a sequence of such laps always runs to its end. *)
Lemma record_lap_returns cfg env t ms n cuts dn m tr :
  to_ms t = inr ms ->
  exists m' tr', record_lap cfg env t n cuts false dn m tr = Return tt m' tr'.
Proof.
  intros Hms. unfold record_lap. rewrite Hms. run. cbn [state with_state].
  match goal with |- context [Dict.get (online ?s) n] =>
    destruct (Dict.get (online s) n) as [d|] end.
  2:{ eexists. eexists. reflexivity. }
  match goal with |- context [if ?c then _ else _] => destruct c end.
  2:{ eexists. eexists. reflexivity. }
  match goal with |- context [save_and_archive_state dn ?m1 ?tr1] =>
    destruct (save_returns dn m1 tr1) as (ap & tr2 & ->) end.
  eexists. eexists. reflexivity.
Qed.

Lemma run_laps_returns cfg env n dn recs : forall m tr,
  Forall (fun r => to_ms (time r) = inr (time_ms r)) recs ->
  exists m' tr', run_laps cfg env n recs false dn m tr = Return tt m' tr'.
Proof.
  induction recs as [|r recs IH]; intros m tr Hok.
  - exists m, tr. reflexivity.
  - inversion Hok as [|? ? Hr Hrest]; subst.
    destruct (record_lap_returns cfg env _ _ n (cuts r) dn m tr Hr) as (m1 & tr1 & E1).
    destruct (IH m1 tr1 Hrest) as (m' & tr' & E).
    exists m', tr'. unfold run_laps in *. cbn [for_each]. unfold bind.
    rewrite E1. exact E.
Qed.

(** ** C3: a lap of a driver who is not online *)

(** As C3 states it, the state after such a lap would be the state before.
    Here a lap of "Ghost", who never joined, leaves an entry for that name
    in the table of valid laps. *)
Lemma offline_lap_counterexample :
  let lines := ["LAP Ghost 01:23:456" ++ nl; "Result.OnLapCompleted. Cuts: 0" ++ nl] in
  let o := parse_lines Sample.cfg Sample.up lines true true false blank [] in
  Dict.get (online (state blank)) "Ghost" = None
  /\ o = Return tt (final_monitor o) []
  /\ laps (state (final_monitor o)) = [("Ghost", [])]
  /\ state (final_monitor o) <> state blank.
Proof.
  cbv zeta. split; [reflexivity|]. split; [vm_compute; reflexivity|].
  split; [vm_compute; reflexivity|]. vm_compute. discriminate.
Qed.

(** C3, amended.  A lap with a well-formed time of a driver who is not
    online is dropped: the run returns, nothing is written or sent, every
    attribute of the object but the state is as before, and the state
    differs at most by an empty entry for the name in the table the lap
    would have gone to.  No lap record is added to either table, and the
    roster and the track fields are unchanged. *)
Theorem offline_lap_dropped cfg env t ms n cuts (ul dn : bool) m tr :
  to_ms t = inr ms ->
  Dict.get (online (state m)) n = None ->
  let st' := with_entry (table_of cuts) n (state m) in
  record_lap cfg env t n cuts ul dn m tr = Return tt (with_state st' m) tr
  /\ (forall k n' c, lookup (get_table k st') n' c = lookup (get_table k (state m)) n' c)
  /\ online st' = online (state m)
  /\ track_name st' = track_name (state m)
  /\ track_directory st' = track_directory (state m)
  /\ track_message_id st' = track_message_id (state m)
  /\ archive_path st' = archive_path (state m)
  /\ carset st' = carset (state m).
Proof.
  intros Hms Hoff st'. split.
  - unfold record_lap. rewrite Hms. run. cbn [state with_state].
    fold (with_entry (table_of cuts) n (state m)). fold st'.
    assert (Hon : online st' = online (state m)).
    { unfold st', with_entry. destruct (Dict.mem _ _); [reflexivity|].
      apply online_set_table. }
    rewrite Hon, Hoff. reflexivity.
  - split.
    + intros k n' c. unfold st', with_entry.
      destruct (table_eqb (table_of cuts) k) eqn:Ek.
      * pose proof (table_eqb_eq _ _ Ek) as <-.
        rewrite <- (lookup_ensure (get_table (table_of cuts) (state m)) n n' c).
        destruct (Dict.mem _ _); [reflexivity|].
        rewrite get_set_table, Ek. reflexivity.
      * destruct (Dict.mem _ _); [reflexivity|].
        rewrite get_set_table, Ek. reflexivity.
    + unfold st', with_entry.
      destruct (Dict.mem _ _); [repeat split|].
      destruct (table_of cuts); repeat split.
Qed.

Lemma offline_lap_dropped_witness :
  record_lap Sample.cfg Sample.up "01:23:456" "Ghost" 0 true false blank []
  = Return tt (with_state (with_entry Laps "Ghost" empty_state) blank) [].
Proof.
  exact (proj1 (offline_lap_dropped Sample.cfg Sample.up "01:23:456" 83456 "Ghost" 0
                  true false blank [] eq_refl eq_refl)).
Defined.

(** ** C10: the race configuration at start-up *)

(** C10.  Let a race configuration be set whose track name or carset is
    not the one of the loaded snapshot (or let the snapshot have no carset
    key).  Then start-up up to the point where the log is read returns,
    and in the resulting state the table of valid laps is empty, the track
    name, track directory and carset are those of the configuration, and
    the leaderboard message id is cleared: None, unless the snapshot held
    the id 0, which counts as no id and is kept.  The table of cut laps and
    the roster are those of the snapshot. *)
Theorem startup_race_json_reset cfg st rj m0 tr0 :
  path_race_json cfg = Some rj ->
  rj_track_name rj <> track_name st \/ Some (rj_carset rj) <> carset st ->
  exists m' tr',
    startup cfg (Some st) m0 tr0 = Return tt m' tr'
    /\ laps (state m') = []
    /\ track_name (state m') = rj_track_name rj
    /\ track_directory (state m') = rj_track_directory rj
    /\ carset (state m') = Some (rj_carset rj)
    /\ track_message_id (state m')
       = (if truthy_int (track_message_id st) then None else track_message_id st)
    /\ truthy_int (track_message_id (state m')) = false
    /\ naughties (state m') = naughties st
    /\ online (state m') = online st
    /\ race_json m' = Some rj.
Proof.
  intros Hrj Hdiff.
  assert (Hcond : negb (opt_eqb (rj_track_name rj) (track_name st))
                  || match carset st with
                     | None => true
                     | Some cs => negb (opt_eqb (rj_carset rj) cs)
                     end = true).
  { destruct (opt_eqb (rj_track_name rj) (track_name st)) eqn:E1; [|reflexivity].
    apply opt_eqb_spec in E1. destruct Hdiff as [Hd|Hd]; [contradiction|].
    destruct (carset st) as [cs|]; [|reflexivity]. cbn [negb orb].
    destruct (opt_eqb (rj_carset rj) cs) eqn:E2; [|reflexivity].
    apply opt_eqb_spec in E2. congruence. }
  unfold startup, update_state_with_race_json. rewrite Hrj. run.
  cbn [state with_state with_timestamp with_race_json].
  rewrite Hcond.
  destruct (truthy_int (track_message_id st)) eqn:Hid;
    cbn [state with_state];
    match goal with |- context [save_and_archive_state false ?m1 ?tr1] =>
      destruct (save_returns false m1 tr1) as (ap & tr2 & ->) end;
    eexists; eexists; (split; [reflexivity|]);
    cbn [state with_state laps track_name track_directory carset track_message_id
         naughties online race_json set_archive_path set_carset
         set_track_directory set_track_name set_laps set_track_message_id];
    repeat split; auto.
Qed.

Lemma startup_race_json_reset_witness :
  let rj := mkRaceJson (Some "Monza") (Some "monza") (Some "GT3") [] in
  let st := mkState [("Alice", Sample.alice)] (Some "Imola") (Some "imola")
                    (Some 99%Z) None
                    [("Alice", [(Some "abarth500", mkLap "01:23:456" 83456 0)])]
                    [("Alice", [(Some "abarth500", mkLap "01:20:000" 80000 2)])]
                    (Some (Some "GT3")) in
  exists m' tr',
    startup (mkConfig "srv" (Some rj) true true None) (Some st) blank []
    = Return tt m' tr'
    /\ laps (state m') = []
    /\ track_name (state m') = Some "Monza"
    /\ track_message_id (state m') = None
    /\ naughties (state m') = naughties st
    /\ online (state m') = online st.
Proof.
  intros rj st.
  assert (Hdiff : rj_track_name rj <> track_name st \/ Some (rj_carset rj) <> carset st)
    by (left; discriminate).
  destruct (startup_race_json_reset (mkConfig "srv" (Some rj) true true None)
              st rj blank [] eq_refl Hdiff)
    as (m' & tr' & H & H1 & H2 & _ & _ & H5 & _ & H7 & H8 & _).
  exists m', tr'.
  exact (conj H (conj H1 (conj H2 (conj H5 (conj H7 H8))))).
Defined.

(** ** C4: the leave cleanup on a track change *)

(** C4 at a failing input.  [new_track] resets the state, roster included,
    and only then runs [delete_online_messages]: whatever the roster was,
    the cleanup finds it empty and does nothing.  In the live log below
    Alice joins and her join message gets the id 1; the line "TRACK=monza"
    then runs to its end, empties the roster and deletes no message. *)
Theorem new_track_cleanup_after_reset :
  (forall cfg m tr,
      (reset_state ;; delete_online_messages cfg) m tr = reset_state m tr)
  /\ let join := ["2021-01-01 12:00:00" ++ nl; "Num CPU: 8" ++ nl;
                  "REQUESTED CAR: abarth500*" ++ nl; "DRIVER: Alice []" ++ nl] in
     let before := parse_lines Sample.cfg Sample.up join true true false blank [] in
     let o := parse_lines Sample.cfg Sample.up (join ++ ["TRACK=monza" ++ nl])
                          true true false blank [] in
     Dict.get (online (state (final_monitor before))) "Alice"
     = Some (mkDriver (Some 1%Z) (Some "abarth500"))
     /\ o = Return tt (final_monitor o) (final_trace o)
     /\ online (state (final_monitor o)) = []
     /\ filter is_log_delete (final_trace o) = [].
Proof.
  split.
  - intros cfg m tr. reflexivity.
  - cbv zeta. split; [vm_compute; reflexivity|]. split; [vm_compute; reflexivity|].
    split; vm_compute; reflexivity.
Qed.

(** ** C5: the order of state change and webhook call *)

Section CallOrder.
Variable cfg : Config.
Variable env : Env.



End CallOrder.

Section CallOrderEvents.
Variable cfg : Config.
Variable env : Env.




End CallOrderEvents.




(** ** C2: a line whose handling raises *)

Lemma for_each_app {A} (body : A -> M unit) pre post m tr :
  for_each (pre ++ post) body m tr
  = match for_each pre body m tr with
    | Return _ m1 tr1 => for_each post body m1 tr1
    | Raise e m1 tr1 => Raise e m1 tr1
    end.
Proof.
  revert m tr. induction pre as [|x pre IH]; intros m tr; [reflexivity|].
  cbn [app for_each]. unfold bind. destruct (body x m tr); [apply IH | reflexivity].
Qed.

Lemma parse_lines_app cfg env ld ul dn pre post m tr :
  parse_lines cfg env (pre ++ post) ld ul dn m tr
  = match parse_lines cfg env pre ld ul dn m tr with
    | Return _ m1 tr1 => for_each post (parse_line cfg env ld ul dn) m1 tr1
    | Raise e m1 tr1 => Raise e m1 tr1
    end.
Proof.
  unfold parse_lines. run. apply for_each_app.
Qed.

Lemma lap_marker_other_markers line :
  startswith "Result.OnLapCompleted" line = true ->
  startswith "REQUESTED CAR:" line = false
  /\ startswith "DRIVER:" line = false
  /\ startswith "Clean exit, driver disconnected" line = false
  /\ startswith "Connection is now closed" line = false.
Proof.
  destruct line as [|a [|b s]]; cbn [startswith]; try discriminate.
  - rewrite andb_false_r. discriminate.
  - intros H. apply andb_prop in H. destruct H as [Ha H].
    apply andb_prop in H. destruct H as [Hb _].
    apply Ascii.eqb_eq in Ha, Hb. subst a b. repeat split; reflexivity.
Qed.

Lemma cpu_line_other_markers line :
  startswith "Num CPU:" line = true ->
  startswith "REQUESTED CAR:" line = false
  /\ startswith "DRIVER:" line = false
  /\ startswith "Clean exit, driver disconnected" line = false
  /\ startswith "Connection is now closed" line = false
  /\ startswith "Result.OnLapCompleted" line = false
  /\ startswith "TRACK=" line = false.
Proof.
  destruct line as [|a s]; cbn [startswith]; [discriminate|].
  intros H. apply andb_prop in H. destruct H as [Ha _].
  apply Ascii.eqb_eq in Ha. subst a. repeat split; reflexivity.
Qed.

(** As C2 states it, a line with an unparseable cut count would be skipped
    and the next line processed.  Here the run ends with ValueError at
    that line, and the join on the next line never happens. *)
Lemma malformed_line_counterexample :
  let bad := "Result.OnLapCompleted. Cuts: x" ++ nl in
  let good := "DRIVER: Alice []" ++ nl in
  (exists m tr,
      parse_lines Sample.cfg Sample.up [bad; good] true true false blank []
      = Raise ValueError m tr
      /\ online (state m) = [])
  /\ (exists m tr,
        parse_lines Sample.cfg Sample.up [good] true true false blank []
        = Return tt m tr
        /\ Dict.mem (online (state m)) "Alice" = true).
Proof.
  cbv zeta. split; eexists; eexists; (split; [vm_compute; reflexivity|]); reflexivity.
Qed.

(** C2, amended.  The loop catches nothing: when the handling of a line
    raises, the run of [parse_lines] ends there with that exception and
    the lines after it are not processed.  This is what happens on a
    lap-completed line whose cut count is unparseable, on one whose lap
    line carries an unparseable time, and on a "Num CPU:" line that has no
    line before it.  A lap-completed line with no lap line in the history
    raises nothing: it changes nothing but the history, and the loop goes
    on, as it does after every line whose handling returns. *)
Theorem malformed_line_ends_loop cfg env (ld ul dn : bool) :
  (forall pre line post m tr m1 tr1 e m2 tr2,
      parse_lines cfg env pre ld ul dn m tr = Return tt m1 tr1 ->
      parse_line cfg env ld ul dn line m1 tr1 = Raise e m2 tr2 ->
      parse_lines cfg env (pre ++ line :: post) ld ul dn m tr = Raise e m2 tr2)
  /\ (forall pre line post m tr m1 tr1 m2 tr2,
        parse_lines cfg env pre ld ul dn m tr = Return tt m1 tr1 ->
        parse_line cfg env ld ul dn line m1 tr1 = Return tt m2 tr2 ->
        parse_lines cfg env (pre ++ line :: post) ld ul dn m tr
        = for_each post (parse_line cfg env ld ul dn) m2 tr2)
  /\ (forall line m tr,
        startswith "Result.OnLapCompleted" line = true ->
        py_int (last_piece "Cuts:" line) = None ->
        parse_line cfg env ld ul dn line m tr
        = Raise ValueError (with_history (firstn 10 (line :: history m)) m) tr)
  /\ (forall line cuts l e m tr,
        startswith "Result.OnLapCompleted" line = true ->
        py_int (last_piece "Cuts:" line) = Some cuts ->
        find is_lap_line (firstn 10 (line :: history m)) = Some l ->
        to_ms (lap_time l) = inl e ->
        parse_line cfg env ld ul dn line m tr
        = Raise e (with_history (firstn 10 (line :: history m)) m) tr)
  /\ (forall line m tr,
        startswith "Num CPU:" line = true ->
        history m = [] ->
        parse_line cfg env ld ul dn line m tr
        = Raise IndexError (with_history [line] m) tr)
  /\ (forall line cuts m tr,
        startswith "Result.OnLapCompleted" line = true ->
        py_int (last_piece "Cuts:" line) = Some cuts ->
        find is_lap_line (firstn 10 (line :: history m)) = None ->
        parse_line cfg env ld ul dn line m tr
        = Return tt (with_history (firstn 10 (line :: history m)) m) tr).
Proof.
  split; [|split; [|split; [|split; [|split]]]].
  - intros pre line post m tr m1 tr1 e m2 tr2 Hpre Hline.
    rewrite parse_lines_app, Hpre. cbn [for_each]. unfold bind.
    rewrite Hline. reflexivity.
  - intros pre line post m tr m1 tr1 m2 tr2 Hpre Hline.
    rewrite parse_lines_app, Hpre. cbn [for_each]. unfold bind.
    rewrite Hline. reflexivity.
  - intros line m tr Hp Hint.
    destruct (lap_marker_other_markers line Hp) as (H1 & H2 & H3 & H4).
    unfold parse_line. run. rewrite H1, H2, H3, H4, Hp, Hint. reflexivity.
  - intros line cuts l e m tr Hp Hint Hfind Hms.
    destruct (lap_marker_other_markers line Hp) as (H1 & H2 & H3 & H4).
    unfold parse_line. run. rewrite H1, H2, H3, H4, Hp, Hint.
    cbn [history with_history]. rewrite Hfind.
    unfold lap_completed, record_lap. rewrite Hms. reflexivity.
  - intros line m tr Hp Hh.
    destruct (cpu_line_other_markers line Hp) as (H1 & H2 & H3 & H4 & H5 & H6).
    unfold parse_line. run. rewrite H1, H2, H3, H4, H5, H6, Hp.
    cbn [history with_history andb]. rewrite Hh. reflexivity.
  - intros line cuts m tr Hp Hint Hfind.
    destruct (lap_marker_other_markers line Hp) as (H1 & H2 & H3 & H4).
    unfold parse_line. run. rewrite H1, H2, H3, H4, Hp, Hint.
    cbn [history with_history]. rewrite Hfind. reflexivity.
Qed.

Lemma malformed_line_ends_loop_witness :
  let bad := "Result.OnLapCompleted. Cuts: x" ++ nl in
  let pre := ["REQUESTED CAR: abarth500*" ++ nl; "DRIVER: Alice []" ++ nl] in
  let o := parse_lines Sample.cfg Sample.up pre true true false blank [] in
  parse_lines Sample.cfg Sample.up (pre ++ bad :: ["DRIVER: Bob []" ++ nl])
              true true false blank []
  = Raise ValueError
          (with_history (firstn 10 (bad :: history (final_monitor o))) (final_monitor o))
          (final_trace o).
Proof.
  intros bad pre o.
  destruct (malformed_line_ends_loop Sample.cfg Sample.up true true false)
    as (Hstop & _ & Hcuts & _).
  assert (Hpre : o = Return tt (final_monitor o) (final_trace o))
    by (vm_compute; reflexivity).
  exact (Hstop pre bad ["DRIVER: Bob []" ++ nl] blank []
               (final_monitor o) (final_trace o) ValueError _ _ Hpre
               (Hcuts bad (final_monitor o) (final_trace o) eq_refl eq_refl)).
Defined.

(** ** C6: the leaderboard *)

Section SortingFacts.
Context {A : Type}.

Lemma insert_keyed_perm (x : Z * A) l : Permutation (x :: l) (insert_keyed x l).
Proof.
  induction l as [|y l IH]; cbn [insert_keyed]; [reflexivity|].
  destruct (fst x <=? fst y)%Z; [reflexivity|].
  etransitivity; [apply perm_swap|]. constructor. exact IH.
Qed.

Lemma sort_keyed_perm (l : list (Z * A)) : Permutation l (sort_keyed l).
Proof.
  induction l as [|x l IH]; cbn [sort_keyed]; [constructor|].
  etransitivity; [|apply insert_keyed_perm]. constructor. exact IH.
Qed.

Lemma insert_keyed_sorted (x : Z * A) l :
  StronglySorted key_le l -> StronglySorted key_le (insert_keyed x l).
Proof.
  induction 1 as [|y l Hs IH Hall]; cbn [insert_keyed].
  - repeat constructor.
  - destruct (fst x <=? fst y)%Z eqn:E.
    + apply Z.leb_le in E. constructor; [constructor; assumption|].
      constructor; [exact E|].
      rewrite Forall_forall in *. intros z Hz. specialize (Hall z Hz).
      unfold key_le in *. lia.
    + apply Z.leb_gt in E. constructor; [exact IH|].
      rewrite Forall_forall in *. intros z Hz.
      apply (Permutation_in _ (Permutation_sym (insert_keyed_perm x l))) in Hz.
      destruct Hz as [<-|Hz]; [unfold key_le; lia | auto].
Qed.

Lemma sort_keyed_sorted (l : list (Z * A)) : StronglySorted key_le (sort_keyed l).
Proof.
  induction l as [|x l IH]; cbn [sort_keyed]; [constructor|].
  apply insert_keyed_sorted. exact IH.
Qed.

Lemma with_keys_total (key : A -> exn + Z) (k : A -> Z) l :
  (forall x, In x l -> key x = inr (k x)) ->
  with_keys key l = inr (map (fun x => (k x, x)) l).
Proof.
  induction l as [|x l IH]; intros Hk; [reflexivity|].
  cbn [with_keys map]. rewrite (Hk x) by (left; reflexivity).
  rewrite IH by (intros y Hy; apply Hk; right; exact Hy). reflexivity.
Qed.

Lemma sorted_map_snd (k : A -> Z) (l : list (Z * A)) :
  StronglySorted key_le l ->
  (forall p, In p l -> fst p = k (snd p)) ->
  StronglySorted (fun a b => (k a <= k b)%Z) (map snd l).
Proof.
  induction 1 as [|p q Hs IH Hall]; intros Hfst; cbn [map]; [constructor|].
  constructor.
  - apply IH. intros p' Hp'. apply Hfst. right. exact Hp'.
  - rewrite Forall_forall in *. intros y Hy.
    apply in_map_iff in Hy. destruct Hy as (p' & <- & Hp').
    specialize (Hall p' Hp'). unfold key_le in Hall.
    rewrite (Hfst p) in Hall by (left; reflexivity).
    rewrite (Hfst p') in Hall by (right; exact Hp'). exact Hall.
Qed.

(** [sorted] with a key that never fails returns a sorted permutation. *)
Lemma sorted_total (key : A -> exn + Z) (k : A -> Z) l :
  (forall x, In x l -> key x = inr (k x)) ->
  exists s, sorted key l = inr s
    /\ Permutation l s
    /\ StronglySorted (fun a b => (k a <= k b)%Z) s.
Proof.
  intros Hk. unfold sorted. rewrite (with_keys_total key k l Hk).
  set (r := map (fun x => (k x, x)) l).
  exists (map snd (sort_keyed r)). split; [reflexivity|].
  pose proof (sort_keyed_perm r) as Hp.
  assert (Hr : map snd r = l).
  { subst r. rewrite map_map. cbn [snd]. apply map_id. }
  split.
  - rewrite <- Hr at 1. apply Permutation_map. exact Hp.
  - assert (Hfst : forall p, In p (sort_keyed r) -> fst p = k (snd p)).
    { intros p Hin. apply (Permutation_in _ (Permutation_sym Hp)) in Hin.
      subst r. apply in_map_iff in Hin. destruct Hin as (x & <- & _). reflexivity. }
    apply sorted_map_snd; [apply sort_keyed_sorted | exact Hfst].
Qed.
End SortingFacts.

Lemma str_app_assoc (a b c : string) : (a ++ b) ++ c = a ++ (b ++ c).
Proof.
  induction a as [|x a IH]; cbn [append]; [reflexivity|]. rewrite IH. reflexivity.
Qed.

Lemma str_app_nil_r (a : string) : a ++ "" = a.
Proof.
  induction a as [|x a IH]; cbn [append]; [reflexivity|]. rewrite IH. reflexivity.
Qed.

(** The best lap of every driver that has one, for well-formed laps. *)
Lemma driver_bests_total (t : LapTable) :
  well_formed_laps t ->
  exists bests,
    driver_bests t = inr bests
    /\ Forall2 (fun e row => entry_name e = fst row /\ fastest_of (snd row) e)
               bests (filter has_lap t)
    /\ Forall (fun e => (exists c, entry_car e = Some c)
                        /\ to_ms (time (entry_lap e)) = inr (time_ms (entry_lap e)))
              bests.
Proof.
  induction t as [|[name carlaps] t IH]; intros Hwf.
  - exists []. repeat split; constructor.
  - inversion Hwf as [|? ? Hrow Hrest]; subst. cbn [snd] in Hrow.
    destruct (IH Hrest) as (bests & Hb & Hf2 & Hall).
    cbn [driver_bests filter has_lap snd].
    destruct carlaps as [|cl0 carlaps']; [exists bests; auto|].
    set (carlaps := cl0 :: carlaps') in *.
    destruct (sorted_total lap_key (fun cl => time_ms (snd cl)) carlaps)
      as (s & Hs & Hperm & Hsorted).
    { intros x Hx. rewrite Forall_forall in Hrow. apply (Hrow x Hx). }
    rewrite Hs. destruct s as [|[c lap] s'].
    { apply Permutation_sym, Permutation_nil in Hperm. discriminate. }
    rewrite Hb. exists ((lap, name, c) :: bests). split; [reflexivity|].
    assert (Hin : In (c, lap) carlaps).
    { apply (Permutation_in _ (Permutation_sym Hperm)). left. reflexivity. }
    split.
    + constructor; [|exact Hf2]. split; [reflexivity|]. split; [exact Hin|].
      intros c' lap' Hin'. cbn [entry_lap fst].
      apply (Permutation_in _ Hperm) in Hin'. destruct Hin' as [[= -> ->]|Hin'].
      * lia.
      * inversion Hsorted as [|? ? _ Hhd]; subst.
        rewrite Forall_forall in Hhd. apply (Hhd _ Hin').
    + constructor; [|exact Hall].
      rewrite Forall_forall in Hrow. destruct (Hrow _ Hin) as (Hc & Hms).
      split; assumption.
Qed.

Lemma add_lines_total s : forall n message,
  Forall (fun e => exists c, entry_car e = Some c) s ->
  add_lines n s message = inr (message ++ rank_lines n s).
Proof.
  induction s as [|e s IH]; intros n message Hall; cbn [add_lines rank_lines].
  - rewrite str_app_nil_r. reflexivity.
  - inversion Hall as [|? ? (c & Hc) Hrest]; subst.
    unfold entry_line. unfold entry_car in Hc. rewrite Hc.
    rewrite IH by assumption. unfold entry_car, entry_lap, entry_name.
    rewrite Hc. rewrite !str_app_assoc. reflexivity.
Qed.

Lemma fit_within cfg message :
  String.length (message ++ footer cfg) <= 2000 ->
  fit cfg message = message ++ footer cfg.
Proof.
  intros Hlen. unfold fit.
  destruct (2000 <? String.length (message ++ footer cfg)) eqn:E; [|reflexivity].
  apply Nat.ltb_lt in E. lia.
Qed.

(** As C6 states it, the message would show the best lap of every driver
    in the table.  Here Bob has a lap and the message does not mention
    him: it is cut at the length limit.  And for a lap stored under no car
    no message is assembled at all. *)
Lemma leaderboard_counterexample :
  (exists cl, Dict.get (laps Board.long_name) "Bob" = Some cl /\ cl <> [])
  /\ (exists msg, laps_message Sample.cfg Board.long_name = inr msg
                  /\ contains "Bob" msg = false)
  /\ laps_message Sample.cfg Board.no_car = inl TypeError.
Proof.
  split; [|split].
  - eexists. split; [reflexivity | discriminate].
  - eexists. split; vm_compute; reflexivity.
  - vm_compute. reflexivity.
Qed.

(** C6, amended.  Let every stored lap be filed under a car name and carry
    the milliseconds of its time string, and let the state have a carset
    key.  Then [send_laps] selects, for every driver with at least one
    valid lap and in table order, a (car, record) pair of that driver that
    no pair of that driver beats in time-in-ms; it orders these by
    ascending time-in-ms; and, when header, ranking lines and footer
    together do not exceed 2000 characters, the message is the header, one
    line "**N.** time name (car)" per entry with N counting from 1, and
    the footer.  With Alice at 83456 ms and Bob at 80000 ms the message
    ranks Bob first and Alice second. *)
Theorem leaderboard_ranks cfg st cs :
  well_formed_laps (laps st) ->
  carset st = Some cs ->
  (exists bests s h,
      driver_bests (laps st) = inr bests
      /\ Forall2 (fun e row => entry_name e = fst row /\ fastest_of (snd row) e)
                 bests (filter has_lap (laps st))
      /\ laps_entries st = inr s
      /\ Permutation bests s
      /\ StronglySorted by_time s
      /\ header st = inr h
      /\ (String.length (h ++ rank_lines 0 s ++ footer cfg) <= 2000 ->
          laps_message cfg st = inr (h ++ rank_lines 0 s ++ footer cfg)))
  /\ laps_message Sample.cfg Board.two_drivers = inr Board.two_drivers_message.
Proof.
  intros Hwf Hcs. split; [|vm_compute; reflexivity].
  destruct (driver_bests_total (laps st) Hwf) as (bests & Hb & Hf2 & Hall).
  destruct (sorted_total entry_key (fun e => time_ms (entry_lap e)) bests)
    as (s & Hs & Hperm & Hsorted).
  { intros e He. rewrite Forall_forall in Hall. apply (Hall e He). }
  assert (Hh : exists h, header st = inr h).
  { unfold header. rewrite Hcs. eexists. reflexivity. }
  destruct Hh as (h & Hh).
  exists bests, s, h.
  assert (He : laps_entries st = inr s).
  { unfold laps_entries. rewrite Hb. exact Hs. }
  repeat (split; [assumption|]).
  intros Hlen. unfold laps_message, laps_text. rewrite He, Hh.
  rewrite add_lines_total.
  - rewrite fit_within; rewrite str_app_assoc; [reflexivity | exact Hlen].
  - rewrite Forall_forall in *. intros e Hin.
    apply (Permutation_in _ (Permutation_sym Hperm)) in Hin.
    apply (Hall e Hin).
Qed.

Lemma leaderboard_ranks_witness :
  exists bests s h,
    driver_bests (laps Board.two_drivers) = inr bests
    /\ laps_entries Board.two_drivers = inr s
    /\ StronglySorted by_time s
    /\ header Board.two_drivers = inr h
    /\ laps_message Sample.cfg Board.two_drivers
       = inr (h ++ rank_lines 0 s ++ footer Sample.cfg).
Proof.
  assert (Hwf : well_formed_laps (laps Board.two_drivers)).
  { repeat constructor; eexists; reflexivity. }
  destruct (leaderboard_ranks Sample.cfg Board.two_drivers (Some "GT3") Hwf eq_refl)
    as ((bests & s & h & Hb & _ & He & _ & Hs & Hh & Hmsg) & _).
  exists bests, s, h. repeat (split; [assumption|]).
  apply Hmsg.
  unfold laps_entries in He. rewrite Hb in He.
  injection Hb as <-. injection He as <-. injection Hh as <-.
  apply Nat.leb_le. vm_compute. reflexivity.
Defined.

(** ** C8: writing the snapshot and reading it back *)

(** ** Decimal numbers written and read *)

Section Decimal.

Lemma digit_char_spec k :
  k < 10 -> digit_of (digit_char k) = Some (Z.of_nat k) /\ code (digit_char k) - 48 = k.
Proof.
  intros Hk. do 10 (destruct k as [|k]; [split; reflexivity|]). lia.
Qed.

Lemma digits_value_app s : forall t a,
  digits_value (s ++ t) a = digits_value t (digits_value s a).
Proof.
  induction s as [|c s IH]; intros t a; cbn [append digits_value]; [reflexivity|].
  apply IH.
Qed.

Lemma all_digits_app s t : all_digits (s ++ t) = all_digits s && all_digits t.
Proof.
  induction s as [|c s IH]; cbn [append all_digits]; [reflexivity|].
  rewrite IH. apply andb_assoc.
Qed.

Lemma Z_digits_acc fuel : forall z acc,
  Z_digits fuel z acc = Z_digits fuel z "" ++ acc.
Proof.
  induction fuel as [|f IH]; intros z acc; cbn [Z_digits]; [reflexivity|].
  destruct (z <? 10)%Z; [reflexivity|].
  rewrite IH. rewrite (IH _ (String _ "")). rewrite str_app_assoc. reflexivity.
Qed.

(** The digits of a number: all decimal, at least one, no leading zero,
    and their value is the number. *)
Lemma Z_digits_spec fuel : forall z,
  fuel <> 0 ->
  (0 <= z < 2 ^ Z.of_nat fuel)%Z ->
  exists d ds,
    Z_digits fuel z "" = String d ds
    /\ all_digits (String d ds) = true
    /\ digits_value (String d ds) 0 = z
    /\ (code d = 48 -> ds = "" /\ z = 0%Z).
Proof.
  induction fuel as [|f IH]; intros z Hf Hz.
  - congruence.
  - clear Hf. cbn [Z_digits].
    assert (Hmod : (0 <= z mod 10 < 10)%Z) by (apply Z.mod_pos_bound; lia).
    assert (Hk : Z.to_nat (z mod 10) < 10) by lia.
    destruct (digit_char_spec _ Hk) as (Hdig & Hcode).
    destruct (z <? 10)%Z eqn:Hlt.
    + apply Z.ltb_lt in Hlt. rewrite Z.mod_small in * by lia.
      eexists. eexists. split; [reflexivity|]. cbn [all_digits digits_value].
      rewrite Hdig, Hcode. split; [reflexivity|]. split; [lia|].
      intros H48. split; [reflexivity|].
      unfold digit_char in H48. unfold code in H48.
      rewrite nat_ascii_embedding in H48 by lia. lia.
    + apply Z.ltb_ge in Hlt. rewrite Z_digits_acc.
      assert (Hq : (0 <= z / 10 < 2 ^ Z.of_nat f)%Z).
      { split; [apply Z.div_pos; lia|].
        rewrite Nat2Z.inj_succ, Z.pow_succ_r in Hz by lia.
        apply Z.div_lt_upper_bound; lia. }
      assert (Hf : f <> 0).
      { intros ->. assert (1 <= z / 10)%Z by (apply Z.div_le_lower_bound; lia).
        cbn in Hq. lia. }
      destruct (IH _ Hf Hq) as (d & ds & E & Hall & Hval & Hzero).
      rewrite E. cbn [append]. eexists. eexists. split; [reflexivity|].
      split; [|split].
      * change (String d (ds ++ String (digit_char (Z.to_nat (z mod 10))) ""))
          with (String d ds ++ String (digit_char (Z.to_nat (z mod 10))) "").
        rewrite all_digits_app, Hall. cbn [all_digits]. rewrite Hdig. reflexivity.
      * change (String d (ds ++ String (digit_char (Z.to_nat (z mod 10))) ""))
          with (String d ds ++ String (digit_char (Z.to_nat (z mod 10))) "").
        rewrite digits_value_app, Hval. cbn [digits_value]. rewrite Hcode.
        rewrite Z2Nat.id by lia. pose proof (Z.div_mod z 10). lia.
      * intros H48. destruct (Hzero H48) as (_ & Hz0).
        assert (1 <= z / 10)%Z by (apply Z.div_le_lower_bound; lia). lia.
Qed.

Lemma str_of_nonneg_spec z :
  (0 <= z)%Z ->
  exists d ds,
    str_of_nonneg z = String d ds
    /\ all_digits (String d ds) = true
    /\ digits_value (String d ds) 0 = z
    /\ (code d = 48 -> ds = "" /\ z = 0%Z).
Proof.
  intros Hz. unfold str_of_nonneg. apply Z_digits_spec; [discriminate|].
  split; [exact Hz|].
  destruct (Z.eq_dec z 0) as [->|Hne]; [cbn; lia|].
  rewrite Nat2Z.inj_succ, Z2Nat.id by apply Z.log2_nonneg.
  apply Z.log2_spec. lia.
Qed.

End Decimal.

(** ** The pieces of a written text read back *)

Section ReadBack.
Import Json RoundTrip.

Lemma delimited_no_digit c r :
  delimited (String c r) ->
  digit_of c = None /\ starts_float (String c r) = false.
Proof.
  cbn [delimited]. unfold digit_of, starts_float.
  intros [H|H]; rewrite H; split; reflexivity.
Qed.

Lemma span_digits_written ds rest :
  all_digits ds = true -> delimited rest ->
  span_digits (ds ++ rest) = (ds, rest).
Proof.
  intros Hall Hrest. induction ds as [|c ds IH]; cbn [append].
  - destruct rest as [|c r]; [reflexivity|].
    cbn [span_digits]. destruct (delimited_no_digit c r Hrest) as (-> & _).
    reflexivity.
  - cbn [all_digits] in Hall. apply andb_prop in Hall. destruct Hall as [Hc Hds].
    cbn [span_digits]. destruct (digit_of c); [|discriminate].
    rewrite IH by assumption. reflexivity.
Qed.

Lemma starts_float_delimited rest : delimited rest -> starts_float rest = false.
Proof.
  destruct rest as [|c r]; [reflexivity|]. intros H.
  apply (delimited_no_digit c r H).
Qed.

Lemma digit_code c v : digit_of c = Some v -> 48 <= code c <= 57.
Proof.
  unfold digit_of. destruct (48 <=? code c) eqn:A; [|discriminate].
  destruct (code c <=? 57) eqn:B; [|discriminate].
  apply Nat.leb_le in A, B. lia.
Qed.

Lemma leading_digit d ds :
  all_digits (String d ds) = true -> 48 <= code d <= 57.
Proof.
  cbn [all_digits]. intros H. apply andb_prop in H. destruct H as [H _].
  destruct (digit_of d) eqn:E; [|discriminate]. eapply digit_code; eauto.
Qed.

(** An integer is read back as written. *)
Lemma scan_number_written z rest :
  delimited rest -> scan_number (str_of_Z z ++ rest) = Some (z, rest).
Proof.
  intros Hrest. unfold str_of_Z. destruct (z <? 0)%Z eqn:Hneg.
  - apply Z.ltb_lt in Hneg.
    destruct (str_of_nonneg_spec (- z)) as (d & ds & E & Hall & Hval & Hzero); [lia|].
    rewrite E. unfold scan_number. cbn [append].
    change (code "-" =? 45) with true. cbv iota beta.
    change (String d (ds ++ rest)) with (String d ds ++ rest).
    rewrite (span_digits_written _ _ Hall Hrest).
    destruct (code d =? 48) eqn:H48.
    + apply Nat.eqb_eq in H48. destruct (Hzero H48) as (_ & Hz0). lia.
    + cbn [andb]. rewrite (starts_float_delimited _ Hrest), Hval.
      f_equal. f_equal. lia.
  - apply Z.ltb_ge in Hneg.
    destruct (str_of_nonneg_spec z Hneg) as (d & ds & E & Hall & Hval & Hzero).
    rewrite E. unfold scan_number. cbn [append].
    pose proof (leading_digit d ds Hall) as Hd.
    destruct (code d =? 45) eqn:H45; [apply Nat.eqb_eq in H45; lia|].
    change (String d (ds ++ rest)) with (String d ds ++ rest).
    rewrite (span_digits_written _ _ Hall Hrest).
    destruct (code d =? 48) eqn:H48.
    + apply Nat.eqb_eq in H48. destruct (Hzero H48) as (-> & _).
      cbn [is_empty negb andb]. rewrite (starts_float_delimited _ Hrest), Hval.
      reflexivity.
    + cbn [andb]. rewrite (starts_float_delimited _ Hrest), Hval. reflexivity.
Qed.

(** The first character of a written integer: a minus sign or a digit. *)
Lemma str_of_Z_head z :
  exists c r, str_of_Z z = String c r /\ (code c = 45 \/ 48 <= code c <= 57).
Proof.
  unfold str_of_Z. destruct (z <? 0)%Z eqn:Hneg.
  - eexists. eexists. split; [reflexivity|]. left. reflexivity.
  - apply Z.ltb_ge in Hneg.
    destruct (str_of_nonneg_spec z Hneg) as (d & ds & E & Hall & _).
    exists d, ds. split; [exact E|]. right. eapply leading_digit; eauto.
Qed.

Lemma scan_escape_char c r :
  scan_string (escape_char c ++ r) = prepend c (scan_string r).
Proof.
  destruct c as [[] [] [] [] [] [] [] []]; reflexivity.
Qed.

(** A string is read back as written. *)
Lemma scan_string_written s rest :
  scan_string (escape s ++ quote_str ++ rest) = Some (s, rest).
Proof.
  induction s as [|c s IH]; cbn [escape].
  - reflexivity.
  - rewrite str_app_assoc, scan_escape_char, IH. reflexivity.
Qed.

Lemma skip_ws_indent n X : skip_ws (indent n ++ X) = skip_ws X.
Proof.
  induction n as [|n IH]; cbn [indent]; [reflexivity|].
  rewrite str_app_assoc. exact IH.
Qed.

Lemma skip_ws_nl X : skip_ws (nl ++ X) = skip_ws X.
Proof. reflexivity. Qed.

Lemma skip_ws_stop c X : is_ws c = false -> skip_ws (String c X) = String c X.
Proof. intros H. cbn [skip_ws]. rewrite H. reflexivity. Qed.

End ReadBack.

(** ** A written value read back *)

Section ParseWritten.
Import Json RoundTrip RoundTripText.

Lemma dump_members_cons lvl k v m X :
  dump_members lvl (MCons k v m) ++ X
  = nl ++ indent lvl
    ++ String dquote (escape k ++ quote_str ++ ": " ++ dumps lvl v ++ sep m
                      ++ dump_members lvl m ++ X).
Proof.
  cbn [dump_members]. unfold quote, sep.
  rewrite !str_app_assoc. reflexivity.
Qed.

Lemma skip_ws_members lvl k v m X :
  skip_ws (dump_members lvl (MCons k v m) ++ X)
  = String dquote (escape k ++ quote_str ++ ": " ++ dumps lvl v ++ sep m
                   ++ dump_members lvl m ++ X).
Proof.
  rewrite dump_members_cons, skip_ws_nl, skip_ws_indent.
  apply skip_ws_stop. reflexivity.
Qed.

Lemma dumps_obj_cons lvl k v m X :
  dumps lvl (JObj (MCons k v m)) ++ X
  = String "{" (dump_members (S lvl) (MCons k v m) ++ closing lvl X).
Proof.
  cbn [dumps]. unfold closing. rewrite !str_app_assoc. reflexivity.
Qed.

Lemma is_ws_code c : code c <> 32 -> code c <> 9 -> code c <> 10 -> code c <> 13 ->
  is_ws c = false.
Proof.
  intros A B C D. unfold is_ws.
  repeat (apply orb_false_intro); apply Nat.eqb_neq; assumption.
Qed.

(** A written value does not start with white space. *)
Lemma skip_ws_dumps lvl v X : skip_ws (dumps lvl v ++ X) = dumps lvl v ++ X.
Proof.
  destruct v as [|z|s|[|k v m]].
  - reflexivity.
  - cbn [dumps]. destruct (str_of_Z_head z) as (c & r & -> & Hc).
    cbn [append]. apply skip_ws_stop. apply is_ws_code; lia.
  - reflexivity.
  - reflexivity.
  - rewrite dumps_obj_cons. reflexivity.
Qed.

Lemma skip_ws_closing lvl rest : skip_ws (closing lvl rest) = String "}" rest.
Proof.
  unfold closing. rewrite skip_ws_nl, skip_ws_indent. reflexivity.
Qed.

Lemma delimited_tail lvl lvl' m rest :
  delimited (sep m ++ dump_members lvl m ++ closing lvl' rest).
Proof.
  destruct m as [|k v m]; cbn; [right|left]; reflexivity.
Qed.

(** Reading what [dumps] wrote gives the value back, and what follows it. *)
Lemma parse_written v : forall lvl rest fuel,
  size v <= fuel -> delimited rest ->
  parse_value fuel (dumps lvl v ++ rest) = Some (v, rest).
Proof.
  induction v using json_mut with
    (P0 := fun m => forall lvl lvl' rest fuel,
             m <> MNil -> msize m <= fuel -> delimited rest ->
             parse_members fuel (skip_ws (dump_members lvl m ++ closing lvl' rest))
             = Some (m, rest)).
  - intros lvl rest [|f] Hf Hrest; [cbn in Hf; lia|]. reflexivity.
  - intros lvl rest [|f] Hf Hrest; [cbn in Hf; lia|].
    cbn [dumps]. destruct (str_of_Z_head z) as (c & r & E & Hc).
    pose proof (scan_number_written z rest Hrest) as Hnum.
    rewrite E in *. cbn [append] in *. cbn [parse_value].
    destruct (code c =? 34) eqn:H34; [apply Nat.eqb_eq in H34; lia|].
    destruct (code c =? 123) eqn:H123; [apply Nat.eqb_eq in H123; lia|].
    assert (Hn : startswith "null" (String c (r ++ rest)) = false).
    { cbn [startswith]. destruct (Ascii.eqb "n" c) eqn:En; [|reflexivity].
      apply Ascii.eqb_eq in En. subst c. cbn in Hc. lia. }
    rewrite Hn, Hnum. reflexivity.
  - intros lvl rest [|f] Hf Hrest; [cbn in Hf; lia|].
    cbn [dumps]. unfold quote. rewrite !str_app_assoc.
    change (quote_str ++ escape s ++ quote_str ++ rest)
      with (String dquote (escape s ++ quote_str ++ rest)).
    cbn [parse_value]. change (code dquote =? 34) with true. cbv iota.
    rewrite scan_string_written. reflexivity.
  - intros lvl rest [|f] Hf Hrest; [cbn in Hf; lia|].
    destruct m as [|k v m]; [reflexivity|].
    rewrite dumps_obj_cons. cbn [parse_value].
    change (code "{" =? 34) with false. change (code "{" =? 123) with true.
    cbv iota.
    pose proof (IHv (S lvl) lvl rest f) as Hm.
    rewrite skip_ws_members in *.
    change (code dquote =? 125) with false. cbv iota.
    rewrite Hm; [reflexivity | discriminate | cbn [size] in Hf; lia | exact Hrest].
  - intros lvl lvl' rest fuel Hne. congruence.
  - intros lvl lvl' rest [|f] _ Hf Hrest; [cbn in Hf; lia|].
    rewrite skip_ws_members. cbn [parse_members].
    change (code dquote =? 34) with true. cbv iota.
    rewrite scan_string_written.
    change (skip_ws (": " ++ dumps lvl v ++ sep m ++ dump_members lvl m ++ closing lvl' rest))
      with (String ":" (" " ++ dumps lvl v ++ sep m ++ dump_members lvl m ++ closing lvl' rest)).
    change (code ":" =? 58) with true. cbv iota.
    change (skip_ws (" " ++ dumps lvl v ++ sep m ++ dump_members lvl m ++ closing lvl' rest))
      with (skip_ws (dumps lvl v ++ sep m ++ dump_members lvl m ++ closing lvl' rest)).
    rewrite skip_ws_dumps.
    cbn [msize] in Hf.
    rewrite IHv; [|lia|apply delimited_tail].
    destruct m as [|k' v' m'].
    + cbn [sep dump_members append]. rewrite skip_ws_closing.
      change (code "}" =? 125) with true. reflexivity.
    + cbn [sep]. change ("," ++ ?X) with (String "," X).
      rewrite skip_ws_stop by reflexivity.
      change (code "," =? 125) with false. change (code "," =? 44) with true.
      cbv iota.
      rewrite IHv0; [reflexivity | discriminate | lia | exact Hrest].
Qed.

End ParseWritten.

(** ** The decoder on a written text *)

Section LoadsWritten.
Import Json RoundTrip RoundTripText.

Lemma str_length_app (a b : string) :
  String.length (a ++ b) = String.length a + String.length b.
Proof.
  induction a as [|c a IH]; cbn [append String.length]; [reflexivity|].
  rewrite IH. reflexivity.
Qed.

(** A written value has at least as many characters as it has nodes. *)
Lemma size_le_length v : forall lvl, size v <= String.length (dumps lvl v).
Proof.
  induction v using json_mut with
    (P0 := fun m => forall lvl, msize m <= String.length (dump_members lvl m)).
  - intros lvl. cbn. lia.
  - intros lvl. cbn [dumps size]. destruct (str_of_Z_head z) as (c & r & -> & _).
    cbn [String.length]. lia.
  - intros lvl. cbn [dumps size]. unfold quote. rewrite !str_length_app.
    change (String.length quote_str) with 1. lia.
  - intros lvl. destruct m as [|k v m]; [cbn; lia|].
    specialize (IHv (S lvl)). cbn [size].
    change (dumps lvl (JObj (MCons k v m)))
      with ("{" ++ dump_members (S lvl) (MCons k v m) ++ nl ++ indent lvl ++ "}").
    rewrite !str_length_app. cbn [String.length]. lia.
  - intros lvl. cbn. lia.
  - intros lvl. specialize (IHv lvl). specialize (IHv0 lvl).
    cbn [dump_members msize]. rewrite !str_length_app.
    cbn [String.length]. lia.
Qed.

(** The decoder reads a written value as the dictionaries it builds. *)
Lemma loads_written v : loads (dumps 0 v) = Some (normalize v).
Proof.
  unfold loads.
  assert (E : skip_ws (dumps 0 v) = dumps 0 v ++ "").
  { rewrite <- (skip_ws_dumps 0 v ""), str_app_nil_r. reflexivity. }
  rewrite E, parse_written.
  - reflexivity.
  - pose proof (size_le_length v 0). lia.
  - exact I.
Qed.

Lemma set_fresh {V} (d : Dict.t string V) k v :
  ~ In k (Dict.keys d) -> Dict.set d k v = (d ++ [(k, v)])%list.
Proof.
  induction d as [|[k' v'] d IH]; cbn; intros Hnot; [reflexivity|].
  destruct (String.eqb k' k) eqn:E.
  - apply String.eqb_eq in E. subst. exfalso. apply Hnot. left. reflexivity.
  - rewrite IH; [reflexivity|]. intros Hin. apply Hnot. right. exact Hin.
Qed.

(** Assignments to pairwise distinct keys build the list of the pairs. *)
Lemma of_pairs_distinct {V} (l : list (string * V)) :
  NoDup (map fst l) -> Dict.of_pairs l = l.
Proof.
  unfold Dict.of_pairs.
  assert (H : forall acc, NoDup (map fst (acc ++ l)%list) ->
                fold_left (fun d kv => Dict.set d (fst kv) (snd kv)) l acc
                = (acc ++ l)%list).
  { induction l as [|[k v] l IH]; intros acc Hnd; cbn [fold_left].
    - rewrite app_nil_r. reflexivity.
    - cbn [fst snd]. rewrite set_fresh.
      + rewrite IH; rewrite <- app_assoc; [reflexivity | exact Hnd].
      + rewrite map_app in Hnd. cbn [map fst] in Hnd.
        apply NoDup_remove_2 in Hnd. intros Hin. apply Hnd.
        apply in_or_app. left. exact Hin. }
  intros Hnd. apply (H [] Hnd).
Qed.

Lemma of_list_to_list m : of_list (to_list m) = m.
Proof.
  induction m as [|k v m IH]; cbn [to_list of_list]; [reflexivity|].
  rewrite IH. reflexivity.
Qed.

(** Where no key is repeated the decoder changes nothing. *)
Lemma normalize_distinct v : distinct_keys v -> normalize v = v.
Proof.
  induction v using json_mut with
    (P0 := fun m => members_distinct m -> norm_members m = to_list m);
    try (intros; reflexivity).
  - intros (Hnd & Hm). cbn [normalize]. rewrite (IHv Hm).
    rewrite of_pairs_distinct by exact Hnd. rewrite of_list_to_list. reflexivity.
  - intros (Hv & Hm). cbn [norm_members to_list].
    rewrite (IHv Hv), (IHv0 Hm). reflexivity.
Qed.

End LoadsWritten.

(** ** The state written and read back *)

Section StateRoundTrip.
Import Json Snapshot RoundTrip.

Lemma of_driver_written d : of_driver (j_driver d) = Some d.
Proof. destruct d as [[i|] [c|]]; reflexivity. Qed.

Lemma of_online_written o : map_members of_driver (j_online o) = Some o.
Proof.
  induction o as [|[n d] o IH]; cbn [j_online map_members]; [reflexivity|].
  rewrite of_driver_written, IH. reflexivity.
Qed.

Lemma of_lap_written r : of_lap (j_lap r) = Some r.
Proof. destruct r; reflexivity. Qed.

Lemma of_carlaps_written cl :
  Forall (fun x : option string * Lap => exists c, fst x = Some c) cl ->
  of_carlaps (JObj (j_carlaps cl)) = Some cl.
Proof.
  intros Hall. unfold of_carlaps.
  assert (E : map_members of_lap (j_carlaps cl)
              = Some (map (fun x : option string * Lap => (key_text (fst x), snd x)) cl)).
  { clear Hall. induction cl as [|[c r] cl IH]; cbn [j_carlaps map_members map];
      [reflexivity|].
    rewrite of_lap_written, IH. reflexivity. }
  rewrite E. cbn [option_map].
  assert (Hmap : map (fun kr : string * Lap => (Some (fst kr), snd kr))
                     (map (fun x : option string * Lap => (key_text (fst x), snd x)) cl)
                 = cl).
  { clear E. induction Hall as [|[c r] cl (c' & Hc) _ IH]; cbn [map]; [reflexivity|].
    cbn [fst] in Hc. subst c. rewrite IH. reflexivity. }
  rewrite Hmap. reflexivity.
Qed.

Lemma of_table_written t :
  named_cars t -> map_members of_carlaps (j_table t) = Some t.
Proof.
  intros (_ & Hall).
  induction Hall as [|[n cl] t (_ & Hcl) _ IH]; cbn [j_table map_members];
    [reflexivity|].
  cbn [snd] in Hcl. rewrite (of_carlaps_written cl Hcl), IH. reflexivity.
Qed.

(** Read as a state, the written dictionary is the state. *)
Lemma of_state_written s :
  named_cars (laps s) -> named_cars (naughties s) ->
  of_state (state_json s) = Some s.
Proof.
  intros Hl Hn. destruct s as [o tn td ti ap l n cs]. cbn [laps naughties] in *.
  assert (Hos : forall x, as_opt_str (Some (j_opt_str x)) = Some x)
    by (intros [x|]; reflexivity).
  assert (Hoi : forall x, as_opt_int (Some (j_opt_int x)) = Some x)
    by (intros [x|]; reflexivity).
  pose proof (of_online_written o) as Ho.
  pose proof (of_table_written l Hl) as Hl'.
  pose proof (of_table_written n Hn) as Hn'.
  destruct cs as [cs|].
  - change (of_state (state_json (mkState o tn td ti ap l n (Some cs))))
      with (match map_members of_driver (j_online o),
                  as_opt_str (Some (j_opt_str tn)),
                  as_opt_str (Some (j_opt_str td)),
                  as_opt_int (Some (j_opt_int ti)),
                  as_opt_str (Some (j_opt_str ap)),
                  map_members of_carlaps (j_table l),
                  map_members of_carlaps (j_table n),
                  option_map Some (as_opt_str (Some (j_opt_str cs)))
            with
            | Some o', Some tn', Some td', Some ti', Some ap', Some l', Some n', Some cs' =>
                Some (mkState o' tn' td' ti' ap' l' n' cs')
            | _, _, _, _, _, _, _, _ => None
            end).
    rewrite Ho, !Hos, Hoi, Hl', Hn'. reflexivity.
  - change (of_state (state_json (mkState o tn td ti ap l n None)))
      with (match map_members of_driver (j_online o),
                  as_opt_str (Some (j_opt_str tn)),
                  as_opt_str (Some (j_opt_str td)),
                  as_opt_int (Some (j_opt_int ti)),
                  as_opt_str (Some (j_opt_str ap)),
                  map_members of_carlaps (j_table l),
                  map_members of_carlaps (j_table n),
                  Some (@None (option string))
            with
            | Some o', Some tn', Some td', Some ti', Some ap', Some l', Some n', Some cs' =>
                Some (mkState o' tn' td' ti' ap' l' n' cs')
            | _, _, _, _, _, _, _, _ => None
            end).
    rewrite Ho, !Hos, Hoi, Hl', Hn'. reflexivity.
Qed.

End StateRoundTrip.

Section StateKeys.
Import Json Snapshot RoundTrip.

Lemma keys_j_online o : map fst (to_list (j_online o)) = Dict.keys o.
Proof.
  induction o as [|[n d] o IH]; cbn [j_online to_list map fst]; [reflexivity|].
  rewrite IH. reflexivity.
Qed.

Lemma keys_j_table t : map fst (to_list (j_table t)) = Dict.keys t.
Proof.
  induction t as [|[n cl] t IH]; cbn [j_table to_list map fst]; [reflexivity|].
  rewrite IH. reflexivity.
Qed.

Lemma keys_j_carlaps cl : map fst (to_list (j_carlaps cl)) = map key_text (Dict.keys cl).
Proof.
  induction cl as [|[c r] cl IH]; cbn [j_carlaps to_list map fst]; [reflexivity|].
  rewrite IH. reflexivity.
Qed.

Lemma distinct_j_driver d : distinct_keys (j_driver d).
Proof.
  destruct d as [[i|] [c|]]; cbn; (split; [distinct_strings | tauto]).
Qed.

Lemma distinct_j_lap r : distinct_keys (j_lap r).
Proof.
  cbn. split; [distinct_strings | tauto].
Qed.

Lemma distinct_j_online o : members_distinct (j_online o).
Proof.
  induction o as [|[n d] o IH]; cbn [j_online members_distinct]; [exact I|].
  split; [apply distinct_j_driver | exact IH].
Qed.

Lemma distinct_j_carlaps_members cl : members_distinct (j_carlaps cl).
Proof.
  induction cl as [|[c r] cl IH]; cbn [j_carlaps members_distinct]; [exact I|].
  split; [apply distinct_j_lap | exact IH].
Qed.

(** Distinct car names are written as distinct keys. *)
Lemma named_keys_distinct (cl : CarLaps) :
  NoDup (Dict.keys cl) ->
  Forall (fun x : option string * Lap => exists c, fst x = Some c) cl ->
  NoDup (map key_text (Dict.keys cl)).
Proof.
  intros Hnd Hall. induction cl as [|[c r] cl IH]; cbn [Dict.keys map fst]; [constructor|].
  cbn [Dict.keys map fst] in Hnd.
  inversion Hnd as [|? ? Hnotin Hnd']; subst.
  inversion Hall as [|? ? (c' & Hc) Hall']; subst. cbn [fst] in Hc. subst c.
  constructor; [|apply IH; assumption].
  intros Hin. apply in_map_iff in Hin. destruct Hin as (k & Hk & Hin).
  assert (Ek : k = Some c').
  { pose proof Hin as Hin'. unfold Dict.keys in Hin'. apply in_map_iff in Hin'.
    destruct Hin' as (x & Hx & Hxin). rewrite Forall_forall in Hall'.
    destruct (Hall' x Hxin) as (c'' & Hc''). rewrite Hx in Hc''.
    rewrite Hc'' in Hk. cbn [key_text] in Hk. congruence. }
  apply Hnotin. rewrite <- Ek. exact Hin.
Qed.

Lemma distinct_j_table t : named_cars t -> distinct_keys (JObj (j_table t)).
Proof.
  intros (Hnd & Hall). cbn [distinct_keys]. rewrite keys_j_table.
  split; [exact Hnd|]. clear Hnd.
  induction Hall as [|[n cl] t (Hk & Hc) _ IH]; cbn [j_table members_distinct];
    [exact I|].
  split; [|exact IH]. cbn [distinct_keys snd] in *. rewrite keys_j_carlaps.
  split; [apply named_keys_distinct; assumption | apply distinct_j_carlaps_members].
Qed.

Lemma distinct_state_json s : restorable s -> distinct_keys (state_json s).
Proof.
  intros (Ho & Hl & Hn).
  pose proof (distinct_j_table _ Hl) as Dl.
  pose proof (distinct_j_table _ Hn) as Dn.
  assert (Do : distinct_keys (JObj (j_online (online s)))).
  { cbn [distinct_keys]. rewrite keys_j_online.
    split; [exact Ho | apply distinct_j_online]. }
  assert (Hs : forall x, distinct_keys (j_opt_str x)) by (intros [x|]; exact I).
  assert (Hi : forall x, distinct_keys (j_opt_int x)) by (intros [x|]; exact I).
  unfold state_json. destruct (carset s) as [cs|].
  - split; [cbn [to_list map fst]; distinct_strings|].
    cbn [members_distinct]. repeat (split; auto).
  - split; [cbn [to_list map fst]; distinct_strings|].
    cbn [members_distinct]. repeat (split; auto).
Qed.

End StateKeys.

(** The snapshot round trip where it holds: a state whose dictionaries
    have each key once and whose laps are all filed under a car name is
    read back from web/state.json exactly as it was written. *)
Lemma snapshot_round_trip s :
  RoundTrip.restorable s ->
  Snapshot.load_state (Snapshot.dump_state s) = Some s.
Proof.
  intros Hr. unfold Snapshot.load_state, Snapshot.dump_state.
  rewrite loads_written, (normalize_distinct _ (distinct_state_json s Hr)).
  destruct Hr as (_ & Hl & Hn). apply of_state_written; assumption.
Qed.

(** The round trip on the leaderboard sample, in which both drivers have a
    named car. *)
Lemma snapshot_round_trip_sample :
  Snapshot.load_state (Snapshot.dump_state Board.two_drivers) = Some Board.two_drivers.
Proof.
  apply snapshot_round_trip.
  assert (Hcar : NoDup (Dict.keys [(Some "abarth500", mkLap "" 0 0)]))
    by (repeat constructor; intros []).
  split; [constructor|]. split; (split; [distinct_strings|]).
  - repeat (constructor; [split; [exact Hcar | repeat constructor; eexists; reflexivity]|]).
    constructor.
  - constructor.
Qed.

(** C8 at a failing input.  The log has Alice join without a car request
    and complete a lap, as in the scenario of the specification; the lap
    is stored under the car None.  Start-up replays the log and writes the
    state to web/state.json, where the encoder turns the key None into the
    string "null".  Read back at the next start, the lap is filed under a
    car named "null" and the record of Alice's car None is gone. *)
Theorem snapshot_none_car_not_restored :
  let log := ["2021-01-01 12:00:00" ++ nl; "Num CPU: 8" ++ nl;
              "DRIVER: Alice []" ++ nl; "LAP Alice 01:23:456" ++ nl;
              "Result.OnLapCompleted. Cuts: 0" ++ nl] in
  let o := init Sample.cfg Sample.up None log [] blank [] in
  exists st st',
    Snapshot.last_written (final_trace o) = Some st
    /\ state (final_monitor o) = st
    /\ lookup (laps st) "Alice" None = Some (mkLap "01:23:456" 83456 0)
    /\ Snapshot.load_state (Snapshot.dump_state st) = Some st'
    /\ lookup (laps st') "Alice" None = None
    /\ lookup (laps st') "Alice" (Some "null") = Some (mkLap "01:23:456" 83456 0)
    /\ st' <> st.
Proof.
  cbv zeta. eexists. eexists.
  split; [vm_compute; reflexivity|].
  split; [vm_compute; reflexivity|].
  split; [vm_compute; reflexivity|].
  split; [vm_compute; reflexivity|].
  split; [vm_compute; reflexivity|].
  split; [vm_compute; reflexivity|].
  vm_compute. discriminate.
Qed.

(** * Further properties of the monitor *)

(** ** Attributes a method leaves alone *)

Section Keeps.
Context {B : Type} (proj : Monitor -> B).

Lemma keeps_ret {A} (a : A) : keeps proj (ret a).
Proof. intros m tr a' m' tr' [= _ <- _]. reflexivity. Qed.

Lemma keeps_raise {A} e : keeps proj (@raise A e).
Proof. intros m tr a m' tr' H. discriminate H. Qed.

Lemma keeps_or_raise {A} e (x : option A) : keeps proj (or_raise e x).
Proof. destruct x; [apply keeps_ret | apply keeps_raise]. Qed.

Lemma keeps_get_self : keeps proj get_self.
Proof. intros m tr a m' tr' [= _ <- _]. reflexivity. Qed.

Lemma keeps_get_state : keeps proj get_state.
Proof. intros m tr a m' tr' [= _ <- _]. reflexivity. Qed.

Lemma keeps_get_trace : keeps proj get_trace.
Proof. intros m tr a m' tr' [= _ <- _]. reflexivity. Qed.

Lemma keeps_emit c : keeps proj (emit c).
Proof. intros m tr a m' tr' [= _ <- _]. reflexivity. Qed.

Lemma keeps_modify f : (forall m, proj (f m) = proj m) -> keeps proj (modify f).
Proof. intros Hf m tr a m' tr' [= _ <- _]. apply Hf. Qed.

Lemma keeps_bind {A C} (c : M A) (k : A -> M C) :
  keeps proj c -> (forall a, keeps proj (k a)) -> keeps proj (bind c k).
Proof.
  intros Hc Hk m tr a m' tr'. unfold bind.
  destruct (c m tr) as [x m1 tr1|] eqn:E; [|discriminate].
  intros H. rewrite (Hk x _ _ _ _ _ H). eapply Hc. exact E.
Qed.

Lemma keeps_for_each {A} (l : list A) body :
  (forall x, keeps proj (body x)) -> keeps proj (for_each l body).
Proof.
  intros Hb. induction l as [|x l IH]; cbn [for_each]; [apply keeps_ret|].
  apply keeps_bind; [apply Hb | intros _; exact IH].
Qed.

(** The attribute is none of those the methods assign. *)
Hypothesis proj_state : forall s m, proj (with_state s m) = proj m.
Hypothesis proj_timestamp : forall v m, proj (with_timestamp v m) = proj m.
Hypothesis proj_race_json : forall v m, proj (with_race_json v m) = proj m.
Hypothesis proj_car : forall v m, proj (with_last_requested_car v m) = proj m.

Lemma keeps_modify_state f : keeps proj (modify_state f).
Proof. apply keeps_modify. intros m. apply proj_state. Qed.

Ltac keeps_step :=
  first
    [ apply keeps_ret | apply keeps_raise | apply keeps_or_raise
    | apply keeps_get_self | apply keeps_get_state | apply keeps_get_trace
    | apply keeps_emit | apply keeps_modify_state
    | apply keeps_modify; intros; first [apply proj_timestamp | apply proj_race_json | apply proj_car]
    | apply keeps_bind; [|intros ?]
    | match goal with
      | |- keeps _ (if ?b then _ else _) => destruct b
      | |- keeps _ (match ?x with _ => _ end) => destruct x
      end
    | progress cbv zeta ].

Ltac keeps_all := repeat keeps_step.

Lemma keeps_save skip : keeps proj (save_and_archive_state skip).
Proof. unfold save_and_archive_state. keeps_all. Qed.

Lemma keeps_try_send env mk message : keeps proj (try_send env mk message).
Proof. unfold try_send. keeps_all. Qed.

Lemma keeps_driver_connects cfg env name ld dn :
  keeps proj (driver_connects cfg env name ld dn).
Proof.
  unfold driver_connects.
  repeat first [apply keeps_save | apply keeps_try_send | keeps_step].
Qed.

Lemma keeps_driver_disconnects cfg name ld dn :
  keeps proj (driver_disconnects cfg name ld dn).
Proof.
  unfold driver_disconnects. repeat first [apply keeps_save | keeps_step].
Qed.

Lemma keeps_update_race_json cfg : keeps proj (update_state_with_race_json cfg).
Proof.
  unfold update_state_with_race_json. repeat first [apply keeps_save | keeps_step].
Qed.

Lemma keeps_post_laps cfg env message : keeps proj (post_laps cfg env message).
Proof.
  unfold post_laps.
  repeat first [apply keeps_save | apply keeps_try_send | keeps_step].
Qed.

Lemma keeps_send_laps cfg env : keeps proj (send_laps cfg env).
Proof.
  unfold send_laps. repeat first [apply keeps_post_laps | keeps_step].
Qed.

Lemma keeps_delete_online cfg : keeps proj (delete_online_messages cfg).
Proof. unfold delete_online_messages. keeps_all. Qed.

Lemma keeps_new_track cfg env d : keeps proj (new_track cfg env d).
Proof.
  unfold new_track, reset_state.
  repeat first [apply keeps_save | apply keeps_delete_online
               | apply keeps_update_race_json | apply keeps_send_laps | keeps_step].
Qed.

Lemma keeps_record_lap cfg env t n cuts ul dn :
  keeps proj (record_lap cfg env t n cuts ul dn).
Proof.
  unfold record_lap.
  repeat first [apply keeps_save | apply keeps_send_laps | keeps_step].
Qed.

End Keeps.

(** Steps of a proof that a method keeps a given attribute; the side
    conditions on the attribute are closed by computation. *)
Ltac keeps_prim :=
  first
    [ apply keeps_ret | apply keeps_raise | apply keeps_or_raise
    | apply keeps_get_self | apply keeps_get_state | apply keeps_get_trace
    | apply keeps_emit
    | apply keeps_modify_state; intros; reflexivity
    | apply keeps_modify; intros; reflexivity
    | apply keeps_for_each; intros ?
    | apply keeps_bind; [|intros ?]
    | progress cbv beta iota zeta
    | match goal with
      | |- keeps _ (if ?b then _ else _) => destruct b
      | |- keeps _ (match ?x with _ => _ end) => destruct x
      end ].

Ltac keeps_method :=
  first
    [ apply keeps_save | apply keeps_driver_connects | apply keeps_driver_disconnects
    | apply keeps_update_race_json | apply keeps_send_laps | apply keeps_new_track
    | apply keeps_record_lap ];
  intros; reflexivity.

Ltac keeps_auto := repeat first [keeps_method | keeps_prim].

(** ** The line history *)

Lemma firstn_app_firstn {A} n (a b : list A) :
  firstn n (a ++ firstn n b) = firstn n (a ++ b).
Proof.
  rewrite !firstn_app, firstn_firstn.
  replace (Nat.min (n - List.length a) n) with (n - List.length a) by lia.
  reflexivity.
Qed.

Lemma parse_line_history cfg env ld ul dn line m tr a m' tr' :
  parse_line cfg env ld ul dn line m tr = Return a m' tr' ->
  history m' = firstn 10 (line :: history m).
Proof.
  unfold parse_line.
  match goal with
  | |- bind (modify ?f) ?k m tr = _ -> _ =>
      change (bind (modify f) k m tr) with (k tt (f m) tr); cbv beta
  end.
  intros H.
  match type of H with
  | ?c (with_history ?h m) tr = _ =>
      assert (K : keeps (@history) c); [|exact (K _ _ _ _ _ H)]
  end.
  unfold lap_completed. keeps_auto.
Qed.

(** X1.  When [parse_lines] returns, the history holds the last ten lines
    it read, the latest first: never more than ten, whatever the lines
    were and whatever the history held before. *)
Theorem history_is_last_ten_lines cfg env (ld ul dn : bool) lines m tr m' tr' :
  parse_lines cfg env lines ld ul dn m tr = Return tt m' tr' ->
  history m' = firstn 10 (rev lines) /\ List.length (history m') <= 10.
Proof.
  intros H.
  assert (Hfold : forall l m0 tr0 m1 tr1,
             List.length (history m0) <= 10 ->
             for_each l (parse_line cfg env ld ul dn) m0 tr0 = Return tt m1 tr1 ->
             history m1 = firstn 10 (rev l ++ history m0)).
  { induction l as [|x l IH]; intros m0 tr0 m1 tr1 Hlen E.
    - injection E as <- _. cbn [rev app]. symmetry. apply firstn_all2. exact Hlen.
    - cbn [for_each] in E. unfold bind in E.
      destruct (parse_line cfg env ld ul dn x m0 tr0) as [u m2 tr2|] eqn:E1;
        [|discriminate].
      apply parse_line_history in E1.
      rewrite (IH _ _ _ _ (eq_ind_r (fun h => List.length h <= 10)
                             (firstn_le_length 10 _) E1) E).
      rewrite E1, firstn_app_firstn. cbn [rev]. rewrite <- app_assoc. reflexivity. }
  unfold parse_lines in H. run.
  apply Hfold in H; [|cbn; lia].
  cbn [history with_history] in H. rewrite app_nil_r in H.
  split; [exact H|]. rewrite H. apply firstn_le_length.
Qed.

Lemma history_is_last_ten_lines_witness :
  let lines := ["one"; "two"; "three"] in
  history (final_monitor (parse_lines Sample.cfg Sample.up lines true true false
                                      Sample.m_alice []))
  = ["three"; "two"; "one"].
Proof.
  intro lines.
  set (o := parse_lines Sample.cfg Sample.up lines true true false Sample.m_alice []).
  assert (Hrun : o = Return tt (final_monitor o) (final_trace o))
    by (vm_compute; reflexivity).
  exact (proj1 (history_is_last_ten_lines Sample.cfg Sample.up true true false lines
                  Sample.m_alice [] (final_monitor o) (final_trace o) Hrun)).
Defined.

(** ** Start-up and the time stamp *)

Lemma parse_line_keeps_timestamp_last cfg env ld ul dn line :
  startswith "Num CPU:" line = false ->
  keeps timestamp_last (parse_line cfg env ld ul dn line).
Proof.
  intros H. unfold parse_line.
  apply keeps_bind; [keeps_auto | intros ?].
  apply keeps_bind; [keeps_auto | intros self].
  rewrite H. unfold lap_completed. keeps_auto.
Qed.

(** X2.  Only a "Num CPU:" line assigns [timestamp_last], and [__init__]
    reads it right after the replay.  So when no line of the log file
    starts with "Num CPU:", start-up never completes: it ends with an
    exception, at the latest the AttributeError of that read. *)
Theorem startup_needs_a_timestamp cfg env loaded log live m tr :
  timestamp_last m = None ->
  Forall (fun line => startswith "Num CPU:" line = false) log ->
  exists e m' tr', init cfg env loaded log live m tr = Raise e m' tr'.
Proof.
  intros Hnone Hlog.
  destruct (init cfg env loaded log live m tr) as [a m' tr'|e m' tr'] eqn:E;
    [exfalso | eauto].
  unfold init in E. unfold bind at 1 in E.
  destruct (startup cfg loaded m tr) as [u m1 tr1|] eqn:E1; [|discriminate].
  assert (K1 : keeps timestamp_last (startup cfg loaded)).
  { unfold startup, reset_state. keeps_auto. }
  apply K1 in E1.
  unfold bind at 1 in E.
  destruct (parse_lines cfg env log false false true m1 tr1) as [u2 m2 tr2|] eqn:E2;
    [|discriminate].
  assert (K2 : keeps timestamp_last (parse_lines cfg env log false false true)).
  { unfold parse_lines. apply keeps_bind; [keeps_auto | intros ?].
    apply keeps_bind; [keeps_auto | intros ?].
    clear - Hlog. induction Hlog as [|x l Hx _ IH]; cbn [for_each]; [apply keeps_ret|].
    apply keeps_bind; [|intros _; exact IH].
    apply parse_line_keeps_timestamp_last. exact Hx. }
  apply K2 in E2.
  run. rewrite E2, E1, Hnone in E. discriminate E.
Qed.

Lemma startup_needs_a_timestamp_witness :
  exists e m' tr',
    init Sample.cfg Sample.up None ["DRIVER: Alice []" ++ nl] [] blank []
    = Raise e m' tr'.
Proof.
  apply startup_needs_a_timestamp; [reflexivity|].
  repeat constructor.
Defined.

(** ** Joining and leaving *)


(** What a join does to the object. *)
Lemma driver_connects_result cfg env name ld dn m tr :
  exists i m' tr',
    driver_connects cfg env name ld dn m tr = Return tt m' tr'
    /\ online (state m')
       = Dict.set (online (state m)) name (mkDriver i (last_requested_car m))
    /\ laps (state m') = laps (state m)
    /\ naughties (state m') = naughties (state m)
    /\ track_message_id (state m') = track_message_id (state m)
    /\ last_requested_car m' = None
    /\ timestamp m' = timestamp m.
Proof.
  unfold driver_connects. run.
  destruct (ld && url_webhook_log cfg).
  - unfold try_send. run. cbn [state with_state last_requested_car].
    match goal with |- context [save_and_archive_state dn ?m1 ?tr1] =>
      destruct (save_returns dn m1 tr1) as (ap & tr2 & ->) end.
    eexists. eexists. eexists. split; [reflexivity|].
    destruct dn; repeat split.
  - cbn [state with_state last_requested_car].
    match goal with |- context [save_and_archive_state dn ?m1 ?tr1] =>
      destruct (save_returns dn m1 tr1) as (ap & tr2 & ->) end.
    eexists. eexists. eexists. split; [reflexivity|].
    destruct dn; repeat split.
Qed.

(** What a leave of an online driver does to the object. *)
Lemma driver_disconnects_result cfg name d ld dn m tr :
  Dict.get (online (state m)) name = Some d ->
  exists m' tr',
    driver_disconnects cfg name ld dn m tr = Return tt m' tr'
    /\ online (state m') = Dict.pop (online (state m)) name
    /\ laps (state m') = laps (state m)
    /\ naughties (state m') = naughties (state m)
    /\ track_message_id (state m') = track_message_id (state m)
    /\ last_requested_car m' = last_requested_car m.
Proof.
  intros Hon. unfold driver_disconnects. run. rewrite Hon.
  destruct (url_webhook_log cfg && truthy_int (id d)); cbn [state with_state];
    match goal with |- context [save_and_archive_state dn ?m1 ?tr1] =>
      destruct (save_returns dn m1 tr1) as (ap & tr2 & ->) end;
    eexists; eexists; (split; [reflexivity|]); destruct dn; repeat split.
Qed.





(** ** The time conversion on other field counts *)



(** ** The length limit *)

Lemma take_length n : forall s, String.length (take n s) = Nat.min n (String.length s).
Proof.
  induction n as [|n IH]; intros [|c s]; cbn [take String.length]; try reflexivity.
  rewrite IH. reflexivity.
Qed.

(** X6.  The message [send_laps] posts always ends with the footer, and
    as long as the footer has at most 1993 characters it never has more
    than 2000: a longer text is cut and closed with " ... ". *)
Theorem posted_message_fits cfg message :
  (exists body, fit cfg message = body ++ footer cfg)
  /\ (String.length (footer cfg) <= 1993 ->
      String.length (fit cfg message) <= 2000).
Proof.
  unfold fit.
  destruct (2000 <? String.length (message ++ footer cfg)) eqn:E.
  - split.
    + eexists. rewrite <- str_app_assoc. reflexivity.
    + intros Hf. unfold slice0.
      destruct (0 <=? 2000 - 7 - Z.of_nat (String.length (footer cfg)))%Z eqn:Ez.
      * rewrite !str_length_app, take_length. cbn [String.length]. lia.
      * apply Z.leb_gt in Ez. lia.
  - split; [eexists; reflexivity|]. intros _. apply Nat.ltb_ge in E. exact E.
Qed.

Lemma posted_message_fits_witness :
  String.length (fit Sample.cfg (replicate 3000 "A")) <= 2000.
Proof.
  apply (proj2 (posted_message_fits Sample.cfg (replicate 3000 "A"))).
  apply Nat.leb_le. vm_compute. reflexivity.
Defined.

(** ** The race configuration and the track change *)

(** X7.  When the track name and the carset of race.json are those of the
    state, [update_state_with_race_json] changes nothing in the state and
    writes no file: the laps, the id of the leaderboard message and the
    track directory stay, even if race.json names another directory.
    Without a race.json it only forgets the one it had read. *)
Theorem race_json_match_changes_nothing cfg m tr :
  (forall rj,
      path_race_json cfg = Some rj ->
      track_name (state m) = rj_track_name rj ->
      carset (state m) = Some (rj_carset rj) ->
      update_state_with_race_json cfg m tr = Return tt (with_race_json (Some rj) m) tr)
  /\ (path_race_json cfg = None ->
      update_state_with_race_json cfg m tr = Return tt (with_race_json None m) tr).
Proof.
  split.
  - intros rj Hp Hn Hc. unfold update_state_with_race_json. rewrite Hp. run.
    cbn [state with_race_json]. rewrite Hn, Hc.
    replace (opt_eqb (rj_track_name rj) (rj_track_name rj)) with true
      by (symmetry; apply opt_eqb_spec; reflexivity).
    replace (opt_eqb (rj_carset rj) (rj_carset rj)) with true
      by (symmetry; apply opt_eqb_spec; reflexivity).
    reflexivity.
  - intros Hp. unfold update_state_with_race_json. rewrite Hp. reflexivity.
Qed.

Lemma race_json_match_changes_nothing_witness :
  let rj := mkRaceJson (Some "Monza") (Some "monza_osrw") (Some "GT3") [] in
  let cfg := mkConfig "srv" (Some rj) true true None in
  let m := with_state Board.two_drivers blank in
  update_state_with_race_json cfg m [] = Return tt (with_race_json (Some rj) m) [].
Proof.
  intros rj cfg m.
  exact (proj1 (race_json_match_changes_nothing cfg m []) rj eq_refl eq_refl eq_refl).
Defined.

(** What [update_state_with_race_json] does in general: it always returns,
    and touches neither the roster, the cut laps nor the time stamp. *)
Lemma update_race_json_result cfg m tr :
  exists m' tr',
    update_state_with_race_json cfg m tr = Return tt m' tr'
    /\ online (state m') = online (state m)
    /\ naughties (state m') = naughties (state m)
    /\ match path_race_json cfg with
       | Some rj =>
           if race_json_differs rj (state m)
           then laps (state m') = []
                /\ track_name (state m') = rj_track_name rj
                /\ track_directory (state m') = rj_track_directory rj
                /\ carset (state m') = Some (rj_carset rj)
           else state m' = state m
       | None => state m' = state m
       end.
Proof.
  unfold update_state_with_race_json.
  destruct (path_race_json cfg) as [rj|].
  2:{ eexists. eexists. split; [reflexivity|]. repeat split. }
  run. cbn [state with_race_json].
  change (negb (opt_eqb (rj_track_name rj) (track_name (state m)))
          || match carset (state m) with
             | None => true
             | Some cs => negb (opt_eqb (rj_carset rj) cs)
             end) with (race_json_differs rj (state m)).
  destruct (race_json_differs rj (state m)).
  2:{ eexists. eexists. split; [reflexivity|]. repeat split. }
  destruct (truthy_int (track_message_id (state m))); cbn [state with_state];
    match goal with |- context [save_and_archive_state false ?m1 ?tr1] =>
      destruct (save_returns false m1 tr1) as (ap & tr2 & ->) end;
    eexists; eexists; (split; [reflexivity|]); repeat split.
Qed.

(** Posting the leaderboard always returns and leaves the session alone. *)
Lemma post_laps_result cfg env message m tr :
  exists m' tr',
    post_laps cfg env message m tr = Return tt m' tr'
    /\ same_session (state m) (state m').
Proof.
  unfold post_laps. destruct (url_webhook_laps cfg).
  2:{ eexists. eexists. split; [reflexivity|]. repeat split. }
  assert (Hnew : forall tr0,
    exists m' tr',
      (i <- try_send env LapsSend message ;;
       (match i with
        | Some j => modify_state (set_track_message_id (Some j))
        | None => ret tt
        end) ;;
       save_and_archive_state false) m tr0 = Return tt m' tr'
      /\ same_session (state m) (state m')).
  { intros tr0. unfold try_send. run.
    destruct (send_answer env tr0 (LapsSend message)) as [j|];
      match goal with |- context [save_and_archive_state false ?m1 ?tr1] =>
        destruct (save_returns false m1 tr1) as (ap & tr2 & ->) end;
      eexists; eexists; (split; [reflexivity|]); repeat split. }
  run. destruct (track_message_id (state m)) as [i|]; [|apply Hnew].
  destruct (truthy_int (Some i)); [|apply Hnew].
  destruct (edit_answer env tr (LapsEdit i message)); [|apply Hnew].
  eexists. eexists. split; [reflexivity|]. repeat split.
Qed.

Lemma laps_message_no_laps cfg st cs :
  laps st = [] -> carset st = Some cs -> exists msg, laps_message cfg st = inr msg.
Proof.
  intros Hl Hc. unfold laps_message, laps_text, laps_entries, header.
  rewrite Hl, Hc. cbn [driver_bests]. eexists. reflexivity.
Qed.

(** With a time stamp at hand [new_track] returns, and this is the state
    it leaves. *)
Lemma new_track_returns cfg env d m tr ts :
  timestamp_last m = Some ts ->
  exists m' tr',
    new_track cfg env d m tr = Return tt m' tr'
    /\ timestamp m' = Some ts
    /\ online (state m') = []
    /\ laps (state m') = []
    /\ naughties (state m') = []
    /\ match path_race_json cfg with
       | None =>
           track_directory (state m') = Some d
           /\ track_name (state m') = None
           /\ carset (state m') = Some None
       | Some rj =>
           if race_json_differs rj (set_track_directory (Some d) empty_state)
           then track_directory (state m') = rj_track_directory rj
                /\ track_name (state m') = rj_track_name rj
                /\ carset (state m') = Some (rj_carset rj)
           else track_directory (state m') = Some d
                /\ track_name (state m') = None
                /\ carset (state m') = Some None
       end.
Proof.
  intros Hts. unfold new_track. run. rewrite Hts. run. cbv beta iota.
    match goal with |- context [save_and_archive_state false ?m1 ?tr1] =>
      destruct (save_returns false m1 tr1) as (ap & tr2 & ->) end.
    unfold reset_state, delete_online_messages. run.
    cbn [state with_state online empty_state].
    match goal with |- context [update_state_with_race_json cfg ?m1 ?tr1] =>
      destruct (update_race_json_result cfg m1 tr1)
        as (m3 & tr3 & E3 & Ho3 & Hn3 & Hc3);
      assert (Ht3 : timestamp m3 = Some ts)
        by (rewrite (keeps_update_race_json (@timestamp)
                       ltac:(reflexivity) ltac:(reflexivity) cfg _ _ _ _ _ E3);
            reflexivity);
      rewrite E3
    end.
    cbn [state with_state online naughties set_track_directory empty_state] in Ho3, Hn3, Hc3.
    match goal with |- context [save_and_archive_state false ?m1 ?tr1] =>
      destruct (save_returns false m1 tr1) as (ap4 & tr4 & ->) end.
    unfold send_laps. run. cbn [state with_state].
    assert (Hlaps : laps (state m3) = [] /\ exists cs, carset (state m3) = Some cs).
    { destruct (path_race_json cfg) as [rj|].
      - destruct (race_json_differs rj _).
        + destruct Hc3 as (A & _ & _ & C). split; [exact A | eauto].
        + rewrite Hc3. split; [reflexivity | eexists; reflexivity].
      - rewrite Hc3. split; [reflexivity | eexists; reflexivity]. }
    destruct Hlaps as (Hl & cs & Hcs).
    destruct (laps_message_no_laps cfg (set_archive_path ap4 (state m3)) cs Hl Hcs)
      as (msg & ->).
    match goal with |- context [post_laps cfg env msg ?m1 ?tr1] =>
      destruct (post_laps_result cfg env msg m1 tr1) as (m5 & tr5 & E5 & Hs5);
      assert (Ht5 : timestamp m5 = timestamp m1)
        by (apply (keeps_post_laps (@timestamp) ltac:(reflexivity)
                     cfg env msg _ _ _ _ _ E5));
      rewrite E5
    end.
    cbn [state with_state timestamp] in Hs5, Ht5.
    destruct Hs5 as (A & B & C & D & E & F).
    cbn [online laps naughties track_name track_directory carset set_archive_path]
      in A, B, C, D, E, F.
    exists m5, tr5. split; [reflexivity|].
    split; [congruence|]. split; [congruence|]. split; [congruence|].
    split; [congruence|].
    destruct (path_race_json cfg) as [rj|].
    + destruct (race_json_differs rj _).
      * destruct Hc3 as (_ & H1 & H2 & H3). repeat split; congruence.
      * rewrite Hc3 in D, E, F. repeat split; assumption.
    + rewrite Hc3 in D, E, F. repeat split; assumption.
Qed.



(** ** Lap lines *)

Section LapLines.

Lemma split_char_nonempty c s : split (String c "") s <> [].
Proof.
  induction s as [|a s IH]; [discriminate|].
  destruct (Ascii.eqb c a) eqn:E.
  - apply Ascii.eqb_eq in E. subst a. rewrite split_char_sep. discriminate.
  - rewrite split_char_other by exact E.
    destruct (split (String c "") s); discriminate.
Qed.

Lemma split_char_lacks c t : lacks c t = true -> split (String c "") t = [t].
Proof.
  induction t as [|a t IH]; [reflexivity|]. cbn [lacks]. intros H.
  apply andb_prop in H. destruct H as [Ha Ht].
  rewrite split_char_other by (destruct (Ascii.eqb c a); [discriminate|reflexivity]).
  rewrite IH by exact Ht. reflexivity.
Qed.

(** A last field without the separator is the last piece. *)
Lemma split_char_snoc c s t :
  lacks c t = true ->
  split (String c "") (s ++ String c t) = (split (String c "") s ++ [t])%list.
Proof.
  intros Ht. induction s as [|a s IH]; cbn [append].
  - rewrite split_char_sep, split_char_lacks by exact Ht. reflexivity.
  - destruct (Ascii.eqb c a) eqn:E.
    + apply Ascii.eqb_eq in E. subst a. rewrite !split_char_sep, IH. reflexivity.
    + rewrite !split_char_other by exact E. rewrite IH.
      pose proof (split_char_nonempty c s) as Hne.
      destruct (split (String c "") s); [congruence | reflexivity].
Qed.

(** Joining the pieces with the separator gives the string back. *)
Lemma join_split_char c s : join (String c "") (split (String c "") s) = s.
Proof.
  unfold join. induction s as [|a s IH]; [reflexivity|].
  destruct (Ascii.eqb c a) eqn:E.
  - apply Ascii.eqb_eq in E. subst a. rewrite split_char_sep.
    pose proof (split_char_nonempty c s) as Hne.
    destruct (split (String c "") s) as [|p ps] eqn:Es; [congruence|].
    change (String.concat (String c "") ("" :: p :: ps))
      with ("" ++ String c "" ++ String.concat (String c "") (p :: ps)).
    rewrite IH. reflexivity.
  - rewrite split_char_other by exact E.
    destruct (split (String c "") s) as [|p ps] eqn:Es.
    + exfalso. exact (split_char_nonempty c s Es).
    + destruct ps as [|q qs].
      * cbn [String.concat] in *. rewrite IH. reflexivity.
      * change (String.concat (String c "") (String a p :: q :: qs))
          with (String a (p ++ String c "" ++ String.concat (String c "") (q :: qs))).
        change (String.concat (String c "") (p :: q :: qs))
          with (p ++ String c "" ++ String.concat (String c "") (q :: qs)) in IH.
        rewrite IH. reflexivity.
Qed.

Lemma last_item_snoc l t : last_item (l ++ [t]) = Some t.
Proof. unfold last_item. rewrite rev_app_distr. reflexivity. Qed.

Lemma lap_line_fields n t :
  lacks " " t = true ->
  lap_name ("LAP " ++ n ++ " " ++ t) = n
  /\ lap_time ("LAP " ++ n ++ " " ++ t) = strip t.
Proof.
  intros Ht. unfold lap_name, lap_time.
  change (drop 4 ("LAP " ++ n ++ " " ++ t)) with (n ++ String " " t).
  rewrite (split_char_snoc " " n t Ht). split.
  - rewrite removelast_last. apply join_split_char.
  - rewrite last_item_snoc. reflexivity.
Qed.

Lemma lap_line_other_markers s :
  startswith "REQUESTED CAR:" (String "L" s) = false
  /\ startswith "DRIVER:" (String "L" s) = false
  /\ startswith "Clean exit, driver disconnected" (String "L" s) = false
  /\ startswith "Connection is now closed" (String "L" s) = false
  /\ startswith "Result.OnLapCompleted" (String "L" s) = false
  /\ startswith "TRACK=" (String "L" s) = false
  /\ startswith "Num CPU:" (String "L" s) = false.
Proof. repeat split. Qed.

End LapLines.

(** X9.  A line "LAP name time" changes nothing by itself; the
    lap-completed marker after it records the lap.  Together the two lines
    do exactly what recording the lap does, with the name taken whole,
    spaces included, and the time stripped of the line end, provided the
    name does not begin with "WITH CUTS". *)
Theorem lap_line_then_marker cfg env (ld ul dn : bool) n t marker cuts m tr :
  lacks " " t = true ->
  startswith "LAP WITH CUTS" ("LAP " ++ n ++ " " ++ t) = false ->
  startswith "Result.OnLapCompleted" marker = true ->
  py_int (last_piece "Cuts:" marker) = Some cuts ->
  (parse_line cfg env ld ul dn ("LAP " ++ n ++ " " ++ t) ;;
   parse_line cfg env ld ul dn marker) m tr
  = record_lap cfg env (strip t) n cuts ul dn
      (with_history
         (firstn 10 (marker :: firstn 10 (("LAP " ++ n ++ " " ++ t) :: history m))) m)
      tr.
Proof.
  intros Ht Hcut Hmark Hint.
  set (lapline := "LAP " ++ n ++ " " ++ t) in *.
  assert (E1 : parse_line cfg env ld ul dn lapline m tr
               = Return tt (with_history (firstn 10 (lapline :: history m)) m) tr).
  { destruct (lap_line_other_markers (String "A" (String "P" (String " " (n ++ " " ++ t)))))
      as (H1 & H2 & H3 & H4 & H5 & H6 & H7).
    change (String "L" (String "A" (String "P" (String " " (n ++ " " ++ t)))))
      with lapline in *.
    unfold parse_line. run. rewrite H1, H2, H3, H4, H5, H6, H7. reflexivity. }
  unfold bind at 1. rewrite E1.
  destruct (lap_marker_other_markers marker Hmark) as (H1 & H2 & H3 & H4).
  unfold parse_line. run. rewrite H1, H2, H3, H4, Hmark, Hint.
  cbn [history with_history firstn find].
  assert (Hm : is_lap_line marker = false).
  { unfold is_lap_line. destruct marker as [|a s]; [reflexivity|].
    cbn [startswith] in Hmark. apply andb_prop in Hmark. destruct Hmark as [Ha _].
    apply Ascii.eqb_eq in Ha. subst a. reflexivity. }
  assert (Hl : is_lap_line lapline = true).
  { unfold is_lap_line. rewrite Hcut. reflexivity. }
  rewrite Hm, Hl. unfold lap_completed.
  destruct (lap_line_fields n t Ht) as (Hn & Htime).
  fold lapline in Hn, Htime. rewrite Hn, Htime. reflexivity.
Qed.

Lemma lap_line_then_marker_witness :
  let o := (parse_line Sample.cfg Sample.up true true false
              ("LAP " ++ "Juan Pablo" ++ " " ++ ("01:23:456" ++ nl)) ;;
            parse_line Sample.cfg Sample.up true true false
              ("Result.OnLapCompleted. Cuts: 2" ++ nl))
             (with_state (set_online [("Juan Pablo", Sample.alice)] empty_state) blank)
             [] in
  lookup (naughties (state (final_monitor o))) "Juan Pablo" (Some "abarth500")
  = Some (mkLap "01:23:456" 83456 2).
Proof.
  intro o. subst o.
  rewrite (lap_line_then_marker Sample.cfg Sample.up true true false
             "Juan Pablo" ("01:23:456" ++ nl) ("Result.OnLapCompleted. Cuts: 2" ++ nl)
             2%Z _ [] eq_refl eq_refl eq_refl eq_refl).
  vm_compute. reflexivity.
Defined.

(** ** The lap tables under a lap *)

(** The tables after a lap that returns. *)
Lemma record_lap_tables cfg env t n cuts ul dn m tr m' tr' :
  record_lap cfg env t n cuts ul dn m tr = Return tt m' tr' ->
  exists ms,
    to_ms t = inr ms
    /\ online (state m') = online (state m)
    /\ forall k,
         get_table k (state m')
         = if table_eqb (table_of cuts) k
           then match Dict.get (online (state m)) n with
                | None => get_table k (with_entry k n (state m))
                | Some d => upsert (get_table k (state m)) n (car d) (mkLap t ms cuts)
                end
           else get_table k (state m).
Proof.
  unfold record_lap. destruct (to_ms t) as [e|ms]; [discriminate|].
  intros H. exists ms. split; [reflexivity|]. revert H. run.
  cbn [state with_state].
  fold (with_entry (table_of cuts) n (state m)).
  set (K := table_of cuts). set (st1 := with_entry K n (state m)).
  assert (Hon1 : online st1 = online (state m)).
  { subst st1. unfold with_entry.
    destruct (Dict.mem _ _); [reflexivity | apply online_set_table]. }
  assert (Hother : forall k, table_eqb K k = false -> get_table k st1 = get_table k (state m)).
  { intros k Ek. subst st1. unfold with_entry. destruct (Dict.mem _ _); [reflexivity|].
    rewrite get_set_table, Ek. reflexivity. }
  rewrite Hon1. destruct (Dict.get (online (state m)) n) as [d|] eqn:Hon.
  2:{ intros [= <- _]. cbn [state with_state]. split; [exact Hon1|].
      intros k. destruct (table_eqb K k) eqn:Ek; [|apply Hother; exact Ek].
      pose proof (table_eqb_eq _ _ Ek) as <-. reflexivity. }
  assert (Hst1 : get_table K st1
                 = if Dict.mem (get_table K (state m)) n then get_table K (state m)
                   else Dict.set (get_table K (state m)) n []).
  { subst st1. unfold with_entry. destruct (Dict.mem _ _); [reflexivity|].
    rewrite get_set_table. replace (table_eqb K K) with true by (destruct K; reflexivity).
    reflexivity. }
  set (mine := match Dict.get (get_table K st1) n with Some x => x | None => [] end).
  set (lap := mkLap t ms cuts).
  assert (Hup : upsert (get_table K (state m)) n (car d) lap
                = if match Dict.get mine (car d) with
                     | None => true
                     | Some old => (ms <? time_ms old)%Z
                     end
                  then Dict.set (get_table K st1) n (Dict.set mine (car d) lap)
                  else get_table K st1).
  { unfold upsert, mine. rewrite Hst1. reflexivity. }
  destruct (match Dict.get mine (car d) with
            | None => true
            | Some old => (ms <? time_ms old)%Z
            end).
  - intros E.
    match type of E with
    | context [save_and_archive_state dn ?m1 ?tr1] =>
        destruct (save_returns dn m1 tr1) as (ap & tr2 & Es)
    end.
    rewrite Es in E. clear Es.
    assert (Hs : same_tables (set_table K
                  (Dict.set (get_table K st1) n (Dict.set mine (car d) lap)) st1)
                  (state m')).
    { destruct ul.
      - apply send_laps_same_tables in E.
        eapply same_tables_trans; [|exact E].
        destruct dn; cbn [state with_state]; repeat split.
      - injection E as <- _. destruct dn; cbn [state with_state]; repeat split. }
    split.
    + destruct Hs as (A & _). rewrite A, online_set_table. exact Hon1.
    + intros k. rewrite (same_tables_get k _ _ Hs), get_set_table.
      destruct (table_eqb K k) eqn:Ek; [|apply Hother; exact Ek].
      pose proof (table_eqb_eq _ _ Ek) as <-. symmetry. exact Hup.
  - intros [= <- _]. cbn [state with_state]. split; [exact Hon1|].
    intros k. destruct (table_eqb K k) eqn:Ek; [|apply Hother; exact Ek].
    pose proof (table_eqb_eq _ _ Ek) as <-. symmetry. exact Hup.
Qed.

Section UpsertFacts.

Lemma lookup_upsert_same tb n c lap :
  lookup (upsert tb n c lap) n c = keep_faster (lookup tb n c) lap.
Proof.
  unfold upsert.
  set (tb1 := if Dict.mem tb n then tb else Dict.set tb n []).
  assert (H1 : forall c', lookup tb1 n c' = lookup tb n c')
    by (intros c'; apply lookup_ensure).
  set (mine := match Dict.get tb1 n with Some x => x | None => [] end).
  assert (Hm : forall c', Dict.get mine c' = lookup tb n c').
  { intros c'. rewrite <- H1. unfold lookup, mine.
    destruct (Dict.get tb1 n); reflexivity. }
  rewrite Hm. destruct (lookup tb n c) as [old|] eqn:E; cbn [keep_faster].
  - destruct (time_ms lap <? time_ms old)%Z.
    + apply lookup_set.
    + rewrite H1. exact E.
  - apply lookup_set.
Qed.

Lemma lookup_upsert_other tb n c lap n' c' :
  n' <> n \/ c' <> c ->
  lookup (upsert tb n c lap) n' c' = lookup tb n' c'.
Proof.
  intros Hne. unfold upsert.
  set (tb1 := if Dict.mem tb n then tb else Dict.set tb n []).
  assert (H1 : forall x y, lookup tb1 x y = lookup tb x y)
    by (intros x y; apply lookup_ensure).
  set (mine := match Dict.get tb1 n with Some x => x | None => [] end).
  destruct (match Dict.get mine c with
            | None => true
            | Some old => (time_ms lap <? time_ms old)%Z
            end); [|apply H1].
  rewrite <- H1. unfold lookup at 1.
  destruct (String.eqb n n') eqn:En.
  - apply String.eqb_eq in En. subst n'.
    destruct Hne as [Hne|Hne]; [congruence|].
    rewrite get_set_same, get_set_other by congruence.
    unfold lookup, mine. destruct (Dict.get tb1 n); reflexivity.
  - apply String.eqb_neq in En. rewrite get_set_other by exact En. reflexivity.
Qed.

Lemma all_laps_set P (tb : LapTable) n cl :
  all_laps P tb -> Forall (fun x : option string * Lap => P (snd x)) cl ->
  all_laps P (Dict.set tb n cl).
Proof.
  unfold all_laps. intros Htb Hcl.
  induction tb as [|[k v] tb IH]; cbn [Dict.set].
  - constructor; [exact Hcl | constructor].
  - inversion Htb as [|? ? Hv Hrest]; subst.
    destruct (keq k n); constructor; auto.
Qed.

Lemma all_laps_get P (tb : LapTable) n cl :
  all_laps P tb -> Dict.get tb n = Some cl ->
  Forall (fun x : option string * Lap => P (snd x)) cl.
Proof.
  unfold all_laps. intros Htb.
  induction Htb as [|[k v] tb Hv _ IH]; cbn [Dict.get]; [discriminate|].
  destruct (keq k n); [intros [= <-]; exact Hv | exact IH].
Qed.

Lemma carlaps_set P (cl : CarLaps) c lap :
  Forall (fun x : option string * Lap => P (snd x)) cl -> P lap ->
  Forall (fun x : option string * Lap => P (snd x)) (Dict.set cl c lap).
Proof.
  intros Hcl Hlap. induction Hcl as [|[k v] cl Hv Hrest IH]; cbn [Dict.set].
  - constructor; [exact Hlap | constructor].
  - destruct (keq k c); constructor; auto.
Qed.

Lemma all_laps_ensure P (tb : LapTable) n :
  all_laps P tb -> all_laps P (if Dict.mem tb n then tb else Dict.set tb n []).
Proof.
  intros H. destruct (Dict.mem tb n); [exact H|].
  apply all_laps_set; [exact H | constructor].
Qed.

Lemma all_laps_upsert P tb n c lap :
  all_laps P tb -> P lap -> all_laps P (upsert tb n c lap).
Proof.
  intros Htb Hlap. unfold upsert.
  pose proof (all_laps_ensure P tb n Htb) as H1.
  set (tb1 := if Dict.mem tb n then tb else Dict.set tb n []) in *.
  destruct (match _ with None => true | Some old => (time_ms lap <? time_ms old)%Z end);
    [|exact H1].
  apply all_laps_set; [exact H1|]. apply carlaps_set; [|exact Hlap].
  destruct (Dict.get tb1 n) as [x|] eqn:E; [|constructor].
  eapply all_laps_get; eauto.
Qed.

End UpsertFacts.

(** X10.  A lap never loses a record and never makes one slower: every
    record stored before a lap that returns is still stored after it, with
    a time that is not greater; and it is the very same record unless it
    is the one of the lap's table, driver and car. *)
Theorem laps_only_improve cfg env t n cuts (ul dn : bool) m tr m' tr' k n' c' r :
  record_lap cfg env t n cuts ul dn m tr = Return tt m' tr' ->
  lookup (get_table k (state m)) n' c' = Some r ->
  exists r',
    lookup (get_table k (state m')) n' c' = Some r'
    /\ (time_ms r' <= time_ms r)%Z
    /\ (k <> table_of cuts \/ n' <> n
        \/ option_map car (Dict.get (online (state m)) n) <> Some c' ->
        r' = r).
Proof.
  intros Hrun Hr.
  destruct (record_lap_tables _ _ _ _ _ _ _ _ _ _ _ Hrun) as (ms & _ & _ & Htab).
  specialize (Htab k). destruct (table_eqb (table_of cuts) k) eqn:Ek.
  2:{ exists r. rewrite Htab. split; [exact Hr|]. split; [lia | reflexivity]. }
  pose proof (table_eqb_eq _ _ Ek) as Hk.
  destruct (Dict.get (online (state m)) n) as [d|] eqn:Hon.
  2:{ exists r. rewrite Htab. unfold with_entry.
      assert (E : lookup (get_table k (if Dict.mem (get_table k (state m)) n
                                     then state m
                                     else set_table k
                                            (Dict.set (get_table k (state m)) n [])
                                            (state m))) n' c'
                  = lookup (get_table k (state m)) n' c').
      { rewrite <- (lookup_ensure (get_table k (state m)) n n' c').
        destruct (Dict.mem _ _); [reflexivity|].
        rewrite get_set_table.
        replace (table_eqb k k) with true by (destruct k; reflexivity). reflexivity. }
      rewrite E. split; [exact Hr|]. split; [lia|reflexivity]. }
  rewrite Htab.
  destruct (String.eqb n' n) eqn:En; [apply String.eqb_eq in En; subst n'|].
  - destruct (opt_eqb c' (car d)) eqn:Ec.
    + apply opt_eqb_spec in Ec. subst c'.
      rewrite lookup_upsert_same, Hr. cbn [keep_faster time_ms].
      destruct (ms <? time_ms r)%Z eqn:Hlt.
      * apply Z.ltb_lt in Hlt. eexists. split; [reflexivity|].
        cbn [time_ms]. split; [lia|].
        intros [H|[H|H]]; [congruence | congruence | cbn in H; congruence].
      * exists r. split; [reflexivity|]. split; [lia | reflexivity].
    + exists r. rewrite lookup_upsert_other.
      * split; [exact Hr|]. split; [lia | reflexivity].
      * right. intros ->. rewrite (proj2 (opt_eqb_spec _ _) eq_refl) in Ec.
        discriminate.
  - apply String.eqb_neq in En. exists r. rewrite lookup_upsert_other by (left; exact En).
    split; [exact Hr|]. split; [lia | reflexivity].
Qed.

Lemma laps_only_improve_witness :
  let m := with_state
             (set_laps [("Alice", [(Some "abarth500", mkLap "01:20:000" 80000 0)])]
                       (state Sample.m_alice)) Sample.m_alice in
  let o := record_lap Sample.cfg Sample.up "01:23:456" "Alice" 0 true false m [] in
  exists r',
    lookup (laps (state (final_monitor o))) "Alice" (Some "abarth500") = Some r'
    /\ (time_ms r' <= 80000)%Z.
Proof.
  intros m o.
  assert (Hrun : o = Return tt (final_monitor o) (final_trace o))
    by (vm_compute; reflexivity).
  destruct (laps_only_improve Sample.cfg Sample.up "01:23:456" "Alice" 0%Z true false
              m [] (final_monitor o) (final_trace o) Laps "Alice" (Some "abarth500")
              (mkLap "01:20:000" 80000 0) Hrun eq_refl) as (r' & E & Hle & _).
  exists r'. split; [exact E | exact Hle].
Defined.

(** ** Invariants of the loop *)

(** A property of the state that the four event handlers keep is kept by
    every line. *)
Lemma parse_line_invariant cfg env (ld ul dn : bool) (P : State -> Prop) :
  (forall name m tr a m' tr',
      P (state m) -> driver_connects cfg env name ld dn m tr = Return a m' tr' ->
      P (state m')) ->
  (forall name m tr a m' tr',
      P (state m) -> driver_disconnects cfg name ld dn m tr = Return a m' tr' ->
      P (state m')) ->
  (forall t n cuts m tr a m' tr',
      P (state m) -> record_lap cfg env t n cuts ul dn m tr = Return a m' tr' ->
      P (state m')) ->
  (forall d m tr a m' tr',
      P (state m) -> new_track cfg env d m tr = Return a m' tr' -> P (state m')) ->
  forall line m tr a m' tr',
    P (state m) ->
    parse_line cfg env ld ul dn line m tr = Return a m' tr' ->
    P (state m').
Proof.
  intros Hjoin Hleave Hlap Htrack line m tr a m' tr' HP.
  unfold parse_line. run.
  set (m0 := with_history (firstn 10 (line :: history m)) m).
  assert (HP0 : P (state m0)) by exact HP.
  clearbody m0.
  destruct (startswith "REQUESTED CAR:" line).
  { destruct (race_json m0) as [rj|];
      [match goal with |- context [key_of_value ?x ?y] =>
         destruct (key_of_value x y) end|];
      intros [= _ <- _]; exact HP0. }
  destruct (startswith "DRIVER:" line); [apply Hjoin; exact HP0|].
  destruct (startswith "Clean exit, driver disconnected" line);
    [apply Hleave; exact HP0|].
  destruct (startswith "Connection is now closed" line); [apply Hleave; exact HP0|].
  destruct (startswith "Result.OnLapCompleted" line).
  { destruct (py_int (last_piece "Cuts:" line)) as [cuts|]; [|discriminate].
    destruct (find is_lap_line (history m0)) as [l|].
    - unfold lap_completed. apply Hlap. exact HP0.
    - intros [= _ <- _]. exact HP0. }
  destruct (startswith "TRACK=" line
            && negb (opt_eqb (Some (strip (last_piece "=" line)))
                             (track_directory (state m0))));
    [apply Htrack; exact HP0|].
  destruct (startswith "Num CPU:" line).
  { destruct (nth_error (history m0) 1); [|discriminate].
    intros [= _ <- _]. exact HP0. }
  intros [= _ <- _]. exact HP0.
Qed.

Lemma parse_lines_invariant cfg env (ld ul dn : bool) (P : State -> Prop) :
  (forall line m tr a m' tr',
      P (state m) -> parse_line cfg env ld ul dn line m tr = Return a m' tr' ->
      P (state m')) ->
  forall lines m tr a m' tr',
    P (state m) ->
    parse_lines cfg env lines ld ul dn m tr = Return a m' tr' ->
    P (state m').
Proof.
  intros Hline lines m tr a m' tr' HP. unfold parse_lines. run.
  set (m0 := with_history [] (with_last_requested_car None m)).
  assert (HP0 : P (state m0)) by exact HP. clearbody m0. clear HP.
  revert m0 tr HP0. induction lines as [|x l IH]; intros m0 tr HP0; cbn [for_each].
  - intros [= _ <- _]. exact HP0.
  - unfold bind.
    destruct (parse_line cfg env ld ul dn x m0 tr) as [u m1 tr1|] eqn:E; [|discriminate].
    apply IH. eapply Hline; eauto.
Qed.

Lemma record_lap_sound cfg env t n cuts ul dn m tr a m' tr' :
  sound_tables (state m) ->
  record_lap cfg env t n cuts ul dn m tr = Return a m' tr' ->
  sound_tables (state m').
Proof.
  intros (Hl & Hn) Hrun. destruct a.
  destruct (record_lap_tables _ _ _ _ _ _ _ _ _ _ _ Hrun) as (ms & Hms & _ & Htab).
  assert (Hentry : forall k Q, all_laps Q (get_table k (state m)) ->
                     all_laps Q (get_table k (with_entry k n (state m)))).
  { intros k Q HQ. unfold with_entry.
    destruct (Dict.mem (get_table k (state m)) n) eqn:E; [exact HQ|].
    rewrite get_set_table. replace (table_eqb k k) with true by (destruct k; reflexivity).
    apply all_laps_set; [exact HQ | constructor]. }
  pose proof (Htab Laps) as HL. pose proof (Htab Naughties) as HN.
  cbn [get_table] in HL, HN. unfold sound_tables. rewrite HL, HN.
  unfold table_of. destruct (cuts =? 0)%Z eqn:Ec; cbn [table_eqb].
  - apply Z.eqb_eq in Ec. split; [|exact Hn].
    destruct (Dict.get (online (state m)) n) as [d|].
    + apply all_laps_upsert; [exact Hl|]. split; [exact Ec | exact Hms].
    + apply (Hentry Laps). exact Hl.
  - apply Z.eqb_neq in Ec. split; [exact Hl|].
    destruct (Dict.get (online (state m)) n) as [d|].
    + apply all_laps_upsert; [exact Hn|]. split; [exact Ec | exact Hms].
    + apply (Hentry Naughties). exact Hn.
Qed.

(** X11.  The loop keeps the lap tables sound: if every valid lap has no
    cuts, every cut lap has some, and every lap carries the milliseconds
    of its time string, then the same holds after any lines that
    [parse_lines] reads to the end, in replay and in live mode. *)
Theorem loop_keeps_tables_sound cfg env (ld ul dn : bool) lines m tr a m' tr' :
  sound_tables (state m) ->
  parse_lines cfg env lines ld ul dn m tr = Return a m' tr' ->
  sound_tables (state m').
Proof.
  apply parse_lines_invariant. apply parse_line_invariant.
  - intros name m0 tr0 a0 m1 tr1 (Hl & Hn) H.
    destruct (driver_connects_result cfg env name ld dn m0 tr0)
      as (i & m2 & tr2 & E & _ & El & En & _).
    rewrite E in H. injection H as _ <- _. split; [rewrite El | rewrite En]; assumption.
  - intros name m0 tr0 a0 m1 tr1 (Hl & Hn) H.
    destruct (Dict.get (online (state m0)) name) as [d|] eqn:Hon.
    + destruct (driver_disconnects_result cfg name d ld dn m0 tr0 Hon)
        as (m2 & tr2 & E & _ & El & En & _).
      rewrite E in H. injection H as _ <- _.
      split; [rewrite El | rewrite En]; assumption.
    + unfold driver_disconnects in H. run. rewrite Hon in H.
      injection H as _ <- _. split; assumption.
  - intros t n cuts m0 tr0 a0 m1 tr1. apply record_lap_sound.
  - intros d m0 tr0 a0 m1 tr1 _ H.
    destruct (timestamp_last m0) as [ts|] eqn:Hts.
    + destruct (new_track_returns cfg env d m0 tr0 ts Hts)
        as (m2 & tr2 & E & _ & _ & El & En & _).
      rewrite E in H. injection H as _ <- _.
      split; [rewrite El | rewrite En]; constructor.
    + unfold new_track in H. run. rewrite Hts in H. discriminate H.
Qed.

Lemma loop_keeps_tables_sound_witness :
  let lines := ["REQUESTED CAR: abarth500*" ++ nl; "DRIVER: Alice []" ++ nl;
                "LAP Alice 01:23:456" ++ nl; "Result.OnLapCompleted. Cuts: 3" ++ nl] in
  sound_tables (state (final_monitor
                  (parse_lines Sample.cfg Sample.up lines true true false blank []))).
Proof.
  intro lines.
  set (o := parse_lines Sample.cfg Sample.up lines true true false blank []).
  assert (Hrun : o = Return tt (final_monitor o) (final_trace o))
    by (vm_compute; reflexivity).
  apply (loop_keeps_tables_sound Sample.cfg Sample.up true true false lines blank []
           tt (final_monitor o) (final_trace o)); [|exact Hrun].
  split; constructor.
Defined.

(** ** The snapshot file in step with the memory *)

Section Synced.
Import Snapshot.

Lemma last_written_snoc tr ev :
  last_written (tr ++ [ev])%list
  = match ev_call ev with
    | WriteState s => Some s
    | _ => last_written tr
    end.
Proof.
  induction tr as [|e tr IH]; cbn [app last_written].
  - destruct (ev_call ev); reflexivity.
  - rewrite IH. destruct (ev_call ev); try reflexivity.
Qed.

Lemma syncs_bind_r {A C} (c : M A) (k : A -> M C) :
  (forall a, syncs (k a)) -> syncs (bind c k).
Proof.
  intros Hk m tr a m' tr'. unfold bind.
  destruct (c m tr) as [x m1 tr1|]; [|discriminate]. apply Hk.
Qed.

Lemma syncs_then_keeps {A C} (c : M A) (k : A -> M C) :
  syncs c -> (forall a, keeps_synced (k a)) -> syncs (bind c k).
Proof.
  intros Hc Hk m tr a m' tr'. unfold bind.
  destruct (c m tr) as [x m1 tr1|] eqn:E; [|discriminate].
  apply Hk. eapply Hc. exact E.
Qed.

Lemma keeps_synced_bind {A C} (c : M A) (k : A -> M C) :
  keeps_synced c -> (forall a, keeps_synced (k a)) -> keeps_synced (bind c k).
Proof.
  intros Hc Hk m tr a m' tr' Hs. unfold bind.
  destruct (c m tr) as [x m1 tr1|] eqn:E; [|discriminate].
  apply Hk. eapply Hc; eauto.
Qed.

Lemma syncs_keeps {A} (c : M A) : syncs c -> keeps_synced c.
Proof. intros Hc m tr a m' tr' _. apply Hc. Qed.

Lemma keeps_synced_ret {A} (a : A) : keeps_synced (ret a).
Proof. intros m tr a' m' tr' Hs [= _ <- <-]. exact Hs. Qed.

Lemma keeps_synced_modify f :
  (forall m, state (f m) = state m) -> keeps_synced (modify f).
Proof.
  intros Hf m tr a m' tr' Hs [= _ <- <-]. unfold synced in *. rewrite Hf. exact Hs.
Qed.

(** A save that is not skipped puts the file in step. *)
Lemma save_syncs : syncs (save_and_archive_state false).
Proof.
  intros m tr a m' tr'. unfold save_and_archive_state, synced. run.
  cbn [state with_state].
  match goal with |- context [set_archive_path ?x _] => set (ap := x) end.
  destruct (truthy_str ap); [destruct ap as [p|]|];
    intros [= _ <- <-]; cbn [state with_state];
    rewrite ?last_written_snoc; cbn [ev_call];
    rewrite ?last_written_snoc; reflexivity.
Qed.

Lemma post_laps_keeps_synced cfg env message :
  keeps_synced (post_laps cfg env message).
Proof.
  unfold post_laps. destruct (url_webhook_laps cfg); [|apply keeps_synced_ret].
  assert (Hnew : syncs (i <- try_send env LapsSend message ;;
                        (match i with
                         | Some j => modify_state (set_track_message_id (Some j))
                         | None => ret tt
                         end) ;;
                        save_and_archive_state false)).
  { apply syncs_bind_r. intros i. apply syncs_bind_r. intros _. apply save_syncs. }
  intros m tr a m' tr' Hs. run.
  destruct (track_message_id (state m)) as [i|]; [|apply Hnew].
  destruct (truthy_int (Some i)); [|apply Hnew].
  destruct (edit_answer env tr (LapsEdit i message)); [|apply Hnew].
  intros [= _ <- <-]. unfold synced in *. rewrite last_written_snoc. exact Hs.
Qed.

Lemma send_laps_keeps_synced cfg env : keeps_synced (send_laps cfg env).
Proof.
  intros m tr a m' tr' Hs. unfold send_laps. run.
  destruct (laps_message cfg (state m)); [discriminate|].
  apply post_laps_keeps_synced. exact Hs.
Qed.

Lemma driver_connects_syncs cfg env name ld : syncs (driver_connects cfg env name ld false).
Proof.
  unfold driver_connects. apply syncs_bind_r. intros self.
  apply syncs_bind_r. intros i. apply syncs_bind_r. intros _.
  apply syncs_then_keeps; [apply save_syncs|]. intros _.
  apply keeps_synced_modify. reflexivity.
Qed.

Lemma driver_disconnects_keeps_synced cfg name ld :
  keeps_synced (driver_disconnects cfg name ld false).
Proof.
  unfold driver_disconnects. apply keeps_synced_bind.
  - intros m tr a m' tr' Hs [= _ <- <-]. exact Hs.
  - intros st. destruct (Dict.get (online st) name); [|apply keeps_synced_ret].
    apply syncs_keeps. apply syncs_bind_r. intros _. apply syncs_bind_r. intros _.
    apply save_syncs.
Qed.

Lemma new_track_syncs cfg env d : syncs (new_track cfg env d).
Proof.
  unfold new_track. do 8 (apply syncs_bind_r; intros ?).
  apply syncs_then_keeps; [apply save_syncs|]. intros _.
  apply send_laps_keeps_synced.
Qed.

(** A lap in live mode: the file stays in step, unless the driver is not
    online and the lap left an empty entry that is not saved. *)
Lemma record_lap_synced cfg env t n cuts ul m tr a m' tr' :
  synced m tr ->
  record_lap cfg env t n cuts ul false m tr = Return a m' tr' ->
  synced m' tr'
  \/ (Dict.get (online (state m)) n = None
      /\ state m' = with_entry (table_of cuts) n (state m) /\ tr' = tr).
Proof.
  intros Hs. unfold record_lap. destruct (to_ms t) as [e|ms]; [discriminate|].
  run. cbn [state with_state].
  fold (with_entry (table_of cuts) n (state m)).
  set (K := table_of cuts). set (st1 := with_entry K n (state m)).
  assert (Hon1 : online st1 = online (state m)).
  { subst st1. unfold with_entry.
    destruct (Dict.mem _ _); [reflexivity | apply online_set_table]. }
  rewrite Hon1. destruct (Dict.get (online (state m)) n) as [d|] eqn:Hon.
  2:{ intros [= _ <- <-]. right. repeat split. }
  set (mine := match Dict.get (get_table K st1) n with Some x => x | None => [] end).
  destruct (Dict.get mine (car d)) as [old|] eqn:Hmine.
  - assert (Hsame : st1 = state m).
    { subst st1 mine. unfold with_entry in *. unfold Dict.mem.
      destruct (Dict.get (get_table K (state m)) n) as [x|] eqn:E; [reflexivity|].
      exfalso. unfold Dict.mem in Hmine. rewrite E in Hmine.
      rewrite get_set_table in Hmine.
      replace (table_eqb K K) with true in Hmine by (destruct K; reflexivity).
      rewrite get_set_same in Hmine. discriminate Hmine. }
    destruct (ms <? time_ms old)%Z.
    + intros E. left. revert E.
      match goal with
      | |- match save_and_archive_state false ?m1 ?tr1 with _ => _ end = _ -> _ =>
          destruct (save_and_archive_state false m1 tr1) as [u m2 tr2|] eqn:Es;
            [|discriminate]
      end.
      apply save_syncs in Es. destruct ul.
      * apply send_laps_keeps_synced. exact Es.
      * intros [= _ <- <-]. exact Es.
    + intros [= _ <- <-]. left. unfold synced. cbn [state with_state].
      rewrite Hsame. exact Hs.
  - intros E. left. revert E.
    match goal with
    | |- match save_and_archive_state false ?m1 ?tr1 with _ => _ end = _ -> _ =>
        destruct (save_and_archive_state false m1 tr1) as [u m2 tr2|] eqn:Es;
          [|discriminate]
    end.
    apply save_syncs in Es. destruct ul.
    + apply send_laps_keeps_synced. exact Es.
    + intros [= _ <- <-]. exact Es.
Qed.

End Synced.

(** X12.  In live mode every line that [parse_lines] handles leaves
    web/state.json in step with the state in memory, if it was in step
    before: the roster and the lap tables are written out whenever they
    change.  The one exception is the lap of a driver who is not online,
    which adds an empty entry for the name to a lap table and saves
    nothing. *)
Theorem live_line_keeps_snapshot cfg env (ld ul : bool) line m tr a m' tr' :
  synced m tr ->
  parse_line cfg env ld ul false line m tr = Return a m' tr' ->
  synced m' tr'
  \/ (startswith "Result.OnLapCompleted" line = true
      /\ exists k n,
           Dict.get (online (state m)) n = None
           /\ state m' = with_entry k n (state m) /\ tr' = tr).
Proof.
  intros Hs. unfold parse_line. run.
  set (m0 := with_history (firstn 10 (line :: history m)) m).
  assert (Hs0 : synced m0 tr) by exact Hs.
  assert (Hst : state m0 = state m) by reflexivity.
  clearbody m0.
  destruct (startswith "REQUESTED CAR:" line).
  { destruct (race_json m0) as [rj|];
      [match goal with |- context [key_of_value ?x ?y] =>
         destruct (key_of_value x y) end|];
      intros [= _ <- <-]; left; exact Hs0. }
  destruct (startswith "DRIVER:" line).
  { intros H. left. exact (driver_connects_syncs _ _ _ _ _ _ _ _ _ H). }
  destruct (startswith "Clean exit, driver disconnected" line).
  { intros H. left. exact (driver_disconnects_keeps_synced _ _ _ _ _ _ _ _ Hs0 H). }
  destruct (startswith "Connection is now closed" line).
  { intros H. left. exact (driver_disconnects_keeps_synced _ _ _ _ _ _ _ _ Hs0 H). }
  destruct (startswith "Result.OnLapCompleted" line).
  { destruct (py_int (last_piece "Cuts:" line)) as [cuts|]; [|discriminate].
    destruct (find is_lap_line (history m0)) as [l|].
    - unfold lap_completed. intros H.
      destruct (record_lap_synced _ _ _ _ _ _ _ _ _ _ _ Hs0 H) as [Hd|(Hon & Hm & Ht)].
      + left. exact Hd.
      + right. split; [reflexivity|].
        exists (table_of cuts), (lap_name l). rewrite <- Hst. auto.
    - intros [= _ <- <-]. left. exact Hs0. }
  destruct (startswith "TRACK=" line
            && negb (opt_eqb (Some (strip (last_piece "=" line)))
                             (track_directory (state m0)))).
  { intros H. left. exact (new_track_syncs _ _ _ _ _ _ _ _ H). }
  destruct (startswith "Num CPU:" line).
  { destruct (nth_error (history m0) 1); [|discriminate].
    intros [= _ <- <-]. left. exact Hs0. }
  intros [= _ <- <-]. left. exact Hs0.
Qed.

Lemma live_line_keeps_snapshot_witness :
  let before := parse_lines Sample.cfg Sample.up
                  ["REQUESTED CAR: abarth500*" ++ nl; "DRIVER: Alice []" ++ nl;
                   "LAP Alice 01:23:456" ++ nl] true true false blank [] in
  let line := "Result.OnLapCompleted. Cuts: 0" ++ nl in
  let after := parse_line Sample.cfg Sample.up true true false line
                 (final_monitor before) (final_trace before) in
  synced (final_monitor after) (final_trace after)
  \/ (startswith "Result.OnLapCompleted" line = true
      /\ exists k n,
           Dict.get (online (state (final_monitor before))) n = None
           /\ state (final_monitor after) = with_entry k n (state (final_monitor before))
           /\ final_trace after = final_trace before).
Proof.
  intros before line after.
  assert (Hs : synced (final_monitor before) (final_trace before))
    by (vm_compute; reflexivity).
  assert (Hrun : after = Return tt (final_monitor after) (final_trace after))
    by (vm_compute; reflexivity).
  exact (live_line_keeps_snapshot Sample.cfg Sample.up true true line
           (final_monitor before) (final_trace before) tt
           (final_monitor after) (final_trace after) Hs Hrun).
Defined.

(** ** The replay at start-up *)

Lemma Forall_values_get {V} (Q : V -> Prop) (d : Dict.t string V) k v :
  Forall (fun kv => Q (snd kv)) d -> Dict.get d k = Some v -> Q v.
Proof.
  induction d as [|[k' v'] d IH]; cbn [Dict.get]; [discriminate|].
  intros H. inversion H as [|x l Hx Hrest]; subst.
  destruct (keq k' k).
  - intros [= <-]. exact Hx.
  - apply IH. exact Hrest.
Qed.

Lemma Forall_values_set {V} (Q : V -> Prop) (d : Dict.t string V) k v :
  Forall (fun kv => Q (snd kv)) d -> Q v ->
  Forall (fun kv => Q (snd kv)) (Dict.set d k v).
Proof.
  intros H Hv. induction d as [|[k' v'] d IH]; cbn [Dict.set].
  - constructor; [exact Hv | constructor].
  - inversion H as [|x l Hx Hrest]; subst. destruct (keq k' k).
    + constructor; [exact Hv | exact Hrest].
    + constructor; [exact Hx | apply IH; exact Hrest].
Qed.

Lemma Forall_values_pop {V} (Q : V -> Prop) (d : Dict.t string V) k :
  Forall (fun kv => Q (snd kv)) d ->
  Forall (fun kv => Q (snd kv)) (Dict.pop d k).
Proof.
  intros H. induction d as [|[k' v'] d IH]; cbn [Dict.pop]; [constructor|].
  inversion H as [|x l Hx Hrest]; subst. destruct (keq k' k).
  - apply IH. exact Hrest.
  - constructor; [exact Hx | apply IH; exact Hrest].
Qed.

(** One line of the replay that is no track line. *)
Lemma replay_line_silent cfg env line m tr a m' tr' :
  no_ids (state m) ->
  startswith "TRACK=" line = false ->
  parse_line cfg env false false true line m tr = Return a m' tr' ->
  tr' = tr /\ no_ids (state m').
Proof.
  intros Hn Ht. unfold parse_line. run.
  set (m0 := with_history (firstn 10 (line :: history m)) m).
  assert (Hn0 : no_ids (state m0)) by exact Hn.
  clearbody m0.
  destruct (startswith "REQUESTED CAR:" line).
  { destruct (race_json m0) as [rj|];
      [match goal with |- context [key_of_value ?x ?y] =>
         destruct (key_of_value x y) end|];
      intros [= _ <- <-]; (split; [reflexivity | exact Hn0]). }
  destruct (startswith "DRIVER:" line).
  { unfold driver_connects, save_and_archive_state. cbn [andb]. run.
    intros [= _ <- <-]. split; [reflexivity|].
    unfold no_ids. cbn [state with_state with_last_requested_car online set_online].
    apply (Forall_values_set (fun d => truthy_int (id d) = false));
      [exact Hn0 | reflexivity]. }
  assert (Hleave : forall name,
            driver_disconnects cfg name false true m0 tr = Return a m' tr' ->
            tr' = tr /\ no_ids (state m')).
  { intros name. unfold driver_disconnects, save_and_archive_state. run.
    destruct (Dict.get (online (state m0)) name) as [d|] eqn:Hon.
    - rewrite (Forall_values_get (fun d => truthy_int (id d) = false) _ _ _ Hn0 Hon).
      rewrite andb_false_r. intros [= _ <- <-]. split; [reflexivity|].
      unfold no_ids. cbn [state with_state online set_online].
      apply (Forall_values_pop (fun d => truthy_int (id d) = false)). exact Hn0.
    - intros [= _ <- <-]. split; [reflexivity | exact Hn0]. }
  destruct (startswith "Clean exit, driver disconnected" line); [apply Hleave|].
  destruct (startswith "Connection is now closed" line); [apply Hleave|].
  clear Hleave.
  destruct (startswith "Result.OnLapCompleted" line).
  { destruct (py_int (last_piece "Cuts:" line)) as [cuts|]; [|discriminate].
    destruct (find is_lap_line (history m0)) as [l|].
    - unfold lap_completed, record_lap, save_and_archive_state.
      destruct (to_ms (lap_time l)) as [e|ms]; [discriminate|]. run.
      cbn [state with_state].
      set (K := table_of cuts).
      set (st1 := if Dict.mem (get_table K (state m0)) (lap_name l) then state m0
                  else set_table K (Dict.set (get_table K (state m0)) (lap_name l) [])
                         (state m0)).
      assert (Hon1 : online st1 = online (state m0)).
      { subst st1. destruct (Dict.mem _ _); [reflexivity | apply online_set_table]. }
      destruct (Dict.get (online st1) (lap_name l)) as [d|].
      + match goal with |- context [if ?b then _ else _] => destruct b end;
          intros [= _ <- <-]; (split; [reflexivity|]);
          unfold no_ids; cbn [state with_state];
          rewrite ?online_set_table, Hon1; exact Hn0.
      + intros [= _ <- <-]. split; [reflexivity|].
        unfold no_ids. cbn [state with_state]. rewrite Hon1. exact Hn0.
    - intros [= _ <- <-]. split; [reflexivity | exact Hn0]. }
  rewrite Ht. cbn [andb].
  destruct (startswith "Num CPU:" line).
  { destruct (nth_error (history m0) 1); [|discriminate].
    intros [= _ <- <-]. split; [reflexivity | exact Hn0]. }
  intros [= _ <- <-]. split; [reflexivity | exact Hn0].
Qed.

(** X13.  The replay of the log at start-up ([log_drivers] and
    [update_laps] off, [do_not_save_state] on) is silent as long as the
    track does not change: when no driver of the roster has a join message
    and no line starts with "TRACK=", the replay makes no webhook call and
    writes no file, and the drivers it adds to the roster have no join
    message either. *)
Theorem replay_is_silent cfg env lines m tr a m' tr' :
  no_ids (state m) ->
  Forall (fun line => startswith "TRACK=" line = false) lines ->
  parse_lines cfg env lines false false true m tr = Return a m' tr' ->
  tr' = tr /\ no_ids (state m').
Proof.
  intros Hn Hl. unfold parse_lines. run.
  set (m0 := with_history [] (with_last_requested_car None m)).
  assert (Hn0 : no_ids (state m0)) by exact Hn. clearbody m0. clear Hn.
  revert m0 Hn0. induction Hl as [|x l Hx Hl IH]; intros m0 Hn0; cbn [for_each].
  - intros [= _ <- <-]. split; [reflexivity | exact Hn0].
  - unfold bind.
    destruct (parse_line cfg env false false true x m0 tr) as [u m1 tr1|] eqn:E;
      [|discriminate].
    destruct (replay_line_silent _ _ _ _ _ _ _ _ Hn0 Hx E) as (-> & Hn1).
    apply IH. exact Hn1.
Qed.

Lemma replay_is_silent_witness :
  let lines := ["REQUESTED CAR: abarth500*" ++ nl; "DRIVER: Alice []" ++ nl;
                "LAP Alice 01:23:456" ++ nl; "Result.OnLapCompleted. Cuts: 0" ++ nl] in
  let o := parse_lines Sample.cfg Sample.up lines false false true blank [] in
  final_trace o = [] /\ no_ids (state (final_monitor o)).
Proof.
  intros lines o.
  assert (Hrun : o = Return tt (final_monitor o) (final_trace o))
    by (vm_compute; reflexivity).
  assert (Hn : no_ids (state blank)) by constructor.
  assert (Hl : Forall (fun line => startswith "TRACK=" line = false) lines)
    by (repeat (constructor; [reflexivity|]); constructor).
  exact (replay_is_silent Sample.cfg Sample.up lines blank [] tt
           (final_monitor o) (final_trace o) Hn Hl Hrun).
Defined.

(** X14.  A track change is saved even in the replay: [new_track] calls
    [save_and_archive_state] without the skip flag, so after a "TRACK="
    line with a directory other than the stored one web/state.json holds
    the new state, also when [do_not_save_state] is on. *)
Theorem track_change_saves_in_replay cfg env (ld ul : bool) line m tr a m' tr' :
  startswith "REQUESTED CAR:" line = false ->
  startswith "DRIVER:" line = false ->
  startswith "Clean exit, driver disconnected" line = false ->
  startswith "Connection is now closed" line = false ->
  startswith "Result.OnLapCompleted" line = false ->
  startswith "TRACK=" line = true ->
  track_directory (state m) <> Some (strip (last_piece "=" line)) ->
  parse_line cfg env ld ul true line m tr = Return a m' tr' ->
  synced m' tr'.
Proof.
  intros H1 H2 H3 H4 H5 H6 Hd. unfold parse_line. run.
  rewrite H1, H2, H3, H4, H5, H6. cbn [andb state with_history].
  destruct (opt_eqb (Some (strip (last_piece "=" line))) (track_directory (state m)))
    eqn:E.
  - exfalso. apply Hd. destruct (track_directory (state m)) as [d|]; [|discriminate E].
    cbn [opt_eqb] in E. apply String.eqb_eq in E. congruence.
  - cbn [negb]. apply new_track_syncs.
Qed.

(** ** Logs in which every join comes with a car *)

Section DictKeys.
Context {K V : Type} `{EqKey K}.

Lemma keys_set_in (d : Dict.t K V) k v x :
  In x (Dict.keys (Dict.set d k v)) -> x = k \/ In x (Dict.keys d).
Proof.
  induction d as [|[k' v'] d IH]; cbn [Dict.set Dict.keys map fst In].
  - intros [<-|[]]. left. reflexivity.
  - destruct (keq k' k); cbn [map fst In].
    + intros [E|Hin]; right; [left; exact E | right; exact Hin].
    + intros [E|Hin]; [right; left; exact E|].
      destruct (IH Hin) as [E|Hin']; [left; exact E | right; right; exact Hin'].
Qed.

Lemma keys_set_nodup (d : Dict.t K V) k v :
  NoDup (Dict.keys d) -> NoDup (Dict.keys (Dict.set d k v)).
Proof.
  induction d as [|[k' v'] d IH]; cbn [Dict.set Dict.keys map fst]; intros Hnd.
  - constructor; [intros [] | constructor].
  - inversion Hnd as [|x l Hnot Hrest]; subst.
    destruct (keq k' k) eqn:E; cbn [map fst].
    + constructor; assumption.
    + constructor; [|apply IH; exact Hrest].
      intros Hin. destruct (keys_set_in _ _ _ _ Hin) as [E'|Hin'].
      * subst k'. rewrite keq_refl in E. discriminate E.
      * apply Hnot. exact Hin'.
Qed.

Lemma keys_pop_in (d : Dict.t K V) k x :
  In x (Dict.keys (Dict.pop d k)) -> In x (Dict.keys d).
Proof.
  induction d as [|[k' v'] d IH]; cbn [Dict.pop Dict.keys map fst In]; [intros []|].
  destruct (keq k' k); cbn [map fst In].
  - intros Hin. right. apply IH. exact Hin.
  - intros [E|Hin]; [left; exact E | right; apply IH; exact Hin].
Qed.

Lemma keys_pop_nodup (d : Dict.t K V) k :
  NoDup (Dict.keys d) -> NoDup (Dict.keys (Dict.pop d k)).
Proof.
  induction d as [|[k' v'] d IH]; cbn [Dict.pop Dict.keys map fst]; intros Hnd.
  - constructor.
  - inversion Hnd as [|x l Hnot Hrest]; subst.
    destruct (keq k' k); cbn [map fst]; [apply IH; exact Hrest|].
    constructor; [|apply IH; exact Hrest].
    intros Hin. apply Hnot. eapply keys_pop_in. exact Hin.
Qed.

Lemma Forall_keys_set (R : K -> Prop) (d : Dict.t K V) k v :
  Forall (fun kv => R (fst kv)) d -> R k ->
  Forall (fun kv => R (fst kv)) (Dict.set d k v).
Proof.
  intros Hd Hk. induction Hd as [|[k' v'] d Hx Hrest IH]; cbn [Dict.set].
  - constructor; [exact Hk | constructor].
  - destruct (keq k' k); constructor; auto.
Qed.

End DictKeys.

Section Named.
Import RoundTrip.

Lemma named_cars_ensure (tb : LapTable) n :
  named_cars tb -> named_cars (if Dict.mem tb n then tb else Dict.set tb n []).
Proof.
  intros (Hk & Hr). destruct (Dict.mem tb n); [split; assumption|].
  split; [apply keys_set_nodup; exact Hk|].
  apply (Forall_values_set named_row); [exact Hr|].
  split; constructor.
Qed.

Lemma named_cars_upsert (tb : LapTable) n c lap :
  named_cars tb -> named_cars (upsert tb n (Some c) lap).
Proof.
  intros Htb. unfold upsert.
  pose proof (named_cars_ensure tb n Htb) as H1.
  set (tb1 := if Dict.mem tb n then tb else Dict.set tb n []) in *.
  destruct (match _ with None => true | Some old => (time_ms lap <? time_ms old)%Z end);
    [|exact H1].
  destruct H1 as (Hk & Hr).
  split; [apply keys_set_nodup; exact Hk|].
  apply (Forall_values_set named_row); [exact Hr|].
  assert (Hmine : named_row (match Dict.get tb1 n with Some x => x | None => [] end)).
  { destruct (Dict.get tb1 n) as [x|] eqn:E; [|split; constructor].
    exact (Forall_values_get named_row _ _ _ Hr E). }
  destruct Hmine as (Hmk & Hmr).
  split; [apply keys_set_nodup; exact Hmk|].
  apply (Forall_keys_set (fun k : option string => exists c0, k = Some c0));
    [exact Hmr | eexists; reflexivity].
Qed.

Lemma get_table_with_entry k n st :
  get_table k (with_entry k n st)
  = if Dict.mem (get_table k st) n then get_table k st
    else Dict.set (get_table k st) n [].
Proof.
  unfold with_entry. destruct (Dict.mem (get_table k st) n); [reflexivity|].
  rewrite get_set_table. replace (table_eqb k k) with true by (destruct k; reflexivity).
  reflexivity.
Qed.

Lemma record_lap_named cfg env t n cuts ul dn m tr a m' tr' :
  named (state m) ->
  record_lap cfg env t n cuts ul dn m tr = Return a m' tr' ->
  named (state m').
Proof.
  intros ((Ho & Hl & Hn) & Hc) Hrun. destruct a.
  destruct (record_lap_tables _ _ _ _ _ _ _ _ _ _ _ Hrun) as (ms & _ & Hon & Htab).
  assert (Hnew : forall k, named_cars (get_table k (state m)) ->
            named_cars (match Dict.get (online (state m)) n with
                        | None => get_table k (with_entry k n (state m))
                        | Some d => upsert (get_table k (state m)) n (car d)
                                      (mkLap t ms cuts)
                        end)).
  { intros k Hk. destruct (Dict.get (online (state m)) n) as [d|] eqn:E.
    - pose proof (Forall_values_get (fun d => car d <> None) _ _ _ Hc E) as Hcar.
      cbv beta in Hcar.
      destruct (car d) as [c|]; [|exfalso; apply Hcar; reflexivity].
      apply named_cars_upsert. exact Hk.
    - rewrite get_table_with_entry. apply named_cars_ensure. exact Hk. }
  pose proof (Htab Laps) as HL. pose proof (Htab Naughties) as HN.
  cbn [get_table] in HL, HN.
  unfold named, restorable. rewrite Hon, HL, HN.
  split; [|exact Hc]. split; [exact Ho|].
  destruct (table_of cuts); cbn [table_eqb]; split;
    first [exact Hl | exact Hn | apply (Hnew Laps); exact Hl
          | apply (Hnew Naughties); exact Hn].
Qed.

(** One line: the state stays [named] when a join has a car at hand, and
    the pending car request is tracked as [cars_requested] does. *)
Lemma parse_line_named cfg env (ld ul dn : bool) line m tr a m' tr' :
  named (state m) ->
  (startswith "REQUESTED CAR:" line = false -> startswith "DRIVER:" line = true ->
   last_requested_car m <> None) ->
  parse_line cfg env ld ul dn line m tr = Return a m' tr' ->
  named (state m')
  /\ (if startswith "REQUESTED CAR:" line then last_requested_car m' <> None
      else if startswith "DRIVER:" line then True
      else last_requested_car m' = last_requested_car m).
Proof.
  intros Hn Hcar. unfold parse_line. run.
  set (m0 := with_history (firstn 10 (line :: history m)) m).
  assert (Hn0 : named (state m0)) by exact Hn.
  assert (Hc0 : last_requested_car m0 = last_requested_car m) by reflexivity.
  clearbody m0. rewrite <- Hc0 in *. clear Hc0 Hn.
  destruct (startswith "REQUESTED CAR:" line).
  { destruct (race_json m0) as [rj|];
      [match goal with |- context [key_of_value ?x ?y] =>
         destruct (key_of_value x y) end|];
      intros [= _ <- _]; (split; [exact Hn0 | discriminate]). }
  destruct (startswith "DRIVER:" line).
  { intros H. split; [|exact I].
    destruct (last_requested_car m0) as [c|] eqn:Hc;
      [|exfalso; apply Hcar; reflexivity].
    match type of H with driver_connects _ _ ?name _ _ _ _ = _ =>
      destruct (driver_connects_result cfg env name ld dn m0 tr)
        as (i & m2 & tr2 & E & Eo & El & En & _) end.
    rewrite E in H. injection H as _ <- _.
    destruct Hn0 as ((Ho & Hl & Hnn) & Hcs).
    unfold named, restorable. rewrite Eo, El, En, Hc.
    split; [split; [apply keys_set_nodup; exact Ho | split; assumption]|].
    apply (Forall_values_set (fun d => car d <> None)); [exact Hcs | discriminate]. }
  assert (Hleave : forall name,
            driver_disconnects cfg name ld dn m0 tr = Return a m' tr' ->
            named (state m') /\ last_requested_car m' = last_requested_car m0).
  { intros name H. split.
    - destruct (Dict.get (online (state m0)) name) as [d|] eqn:Hon.
      + destruct (driver_disconnects_result cfg name d ld dn m0 tr Hon)
          as (m2 & tr2 & E & Eo & El & En & _).
        rewrite E in H. injection H as _ <- _.
        destruct Hn0 as ((Ho & Hl & Hnn) & Hcs).
        unfold named, restorable. rewrite Eo, El, En.
        split; [split; [apply keys_pop_nodup; exact Ho | split; assumption]|].
        apply (Forall_values_pop (fun d => car d <> None)). exact Hcs.
      + unfold driver_disconnects in H. run. rewrite Hon in H.
        injection H as _ <- _. exact Hn0.
    - revert H. apply (keeps_driver_disconnects (@last_requested_car));
        intros; reflexivity. }
  destruct (startswith "Clean exit, driver disconnected" line); [apply Hleave|].
  destruct (startswith "Connection is now closed" line); [apply Hleave|].
  clear Hleave.
  destruct (startswith "Result.OnLapCompleted" line).
  { destruct (py_int (last_piece "Cuts:" line)) as [cuts|]; [|discriminate].
    destruct (find is_lap_line (history m0)) as [l|].
    - unfold lap_completed. intros H. split.
      + exact (record_lap_named _ _ _ _ _ _ _ _ _ _ _ _ Hn0 H).
      + revert H. apply (keeps_record_lap (@last_requested_car));
          intros; reflexivity.
    - intros [= _ <- _]. split; [exact Hn0 | reflexivity]. }
  destruct (startswith "TRACK=" line
            && negb (opt_eqb (Some (strip (last_piece "=" line)))
                             (track_directory (state m0)))).
  { intros H. split.
    - destruct (timestamp_last m0) as [ts|] eqn:Hts.
      + destruct (new_track_returns cfg env (strip (last_piece "=" line)) m0 tr ts Hts)
          as (m2 & tr2 & E & _ & Eo & El & En & _).
        rewrite E in H. injection H as _ <- _.
        unfold named, restorable, named_cars. rewrite Eo, El, En.
        repeat split; constructor.
      + unfold new_track in H. run. rewrite Hts in H. discriminate H.
    - revert H. apply (keeps_new_track (@last_requested_car));
        intros; reflexivity. }
  destruct (startswith "Num CPU:" line).
  { destruct (nth_error (history m0) 1); [|discriminate].
    intros [= _ <- _]. split; [exact Hn0 | reflexivity]. }
  intros [= _ <- _]. split; [exact Hn0 | reflexivity].
Qed.

End Named.

(** X15.  The snapshot stays readable when every join comes with a car.
    If every driver of the roster has a car and every lap is filed under a
    car name, and every "DRIVER:" line of the lines read follows a
    "REQUESTED CAR:" line with no other join in between, then after
    [parse_lines] the same holds again, and the state in memory is read
    back from its snapshot exactly as it is written. *)
Theorem requested_cars_keep_snapshot_readable cfg env (ld ul dn : bool)
        lines m tr a m' tr' :
  named (state m) ->
  cars_requested false lines = true ->
  parse_lines cfg env lines ld ul dn m tr = Return a m' tr' ->
  named (state m')
  /\ Snapshot.load_state (Snapshot.dump_state (state m')) = Some (state m').
Proof.
  intros Hn Hl Hrun.
  assert (Hnamed : named (state m')).
  { revert Hrun. unfold parse_lines. run.
    set (m0 := with_history [] (with_last_requested_car None m)).
    assert (Hn0 : named (state m0)) by exact Hn.
    assert (Hp : false = true -> last_requested_car m0 <> None) by discriminate.
    clearbody m0. clear Hn.
    revert m0 tr Hn0 Hp Hl. generalize false as pending.
    induction lines as [|x l IH]; intros pending m0 tr Hn0 Hp Hl; cbn [for_each].
    - intros [= _ <- _]. exact Hn0.
    - unfold bind.
      destruct (parse_line cfg env ld ul dn x m0 tr) as [u m1 tr1|] eqn:E;
        [|discriminate].
      cbn [cars_requested] in Hl.
      assert (Hjoin : startswith "REQUESTED CAR:" x = false ->
                      startswith "DRIVER:" x = true -> last_requested_car m0 <> None).
      { intros H1 H2. rewrite H1, H2 in Hl. apply andb_prop in Hl.
        apply Hp. apply Hl. }
      destruct (parse_line_named _ _ _ _ _ _ _ _ _ _ _ Hn0 Hjoin E) as (Hn1 & Hc1).
      destruct (startswith "REQUESTED CAR:" x).
      + apply (IH true); [exact Hn1 | intros _; exact Hc1 | exact Hl].
      + destruct (startswith "DRIVER:" x).
        * apply andb_prop in Hl. apply (IH false); [exact Hn1 | discriminate | apply Hl].
        * apply (IH pending); [exact Hn1 | rewrite Hc1; exact Hp | exact Hl]. }
  split; [exact Hnamed|]. apply snapshot_round_trip. apply Hnamed.
Qed.

Lemma requested_cars_keep_snapshot_readable_witness :
  let lines := ["REQUESTED CAR: abarth500*" ++ nl; "DRIVER: Alice []" ++ nl;
                "LAP Alice 01:23:456" ++ nl; "Result.OnLapCompleted. Cuts: 0" ++ nl] in
  let o := parse_lines Sample.cfg Sample.up lines true true false blank [] in
  named (state (final_monitor o))
  /\ Snapshot.load_state (Snapshot.dump_state (state (final_monitor o)))
     = Some (state (final_monitor o)).
Proof.
  intros lines o.
  assert (Hrun : o = Return tt (final_monitor o) (final_trace o))
    by (vm_compute; reflexivity).
  assert (Hn : named (state blank)).
  { split; [split; [constructor | split; split; constructor] | constructor]. }
  exact (requested_cars_keep_snapshot_readable Sample.cfg Sample.up true true false
           lines blank [] tt (final_monitor o) (final_trace o) Hn eq_refl Hrun).
Defined.

Lemma track_change_saves_in_replay_witness :
  let m := with_timestamp_last (Some "2021-01-01.") Sample.m_alice in
  let o := parse_line Sample.cfg Sample.up false false true ("TRACK=monza" ++ nl) m [] in
  synced (final_monitor o) (final_trace o).
Proof.
  intros m o.
  assert (Hrun : o = Return tt (final_monitor o) (final_trace o))
    by (vm_compute; reflexivity).
  assert (Hd : track_directory (state m)
               <> Some (strip (last_piece "=" ("TRACK=monza" ++ nl))))
    by (vm_compute; discriminate).
  exact (track_change_saves_in_replay Sample.cfg Sample.up false false
           ("TRACK=monza" ++ nl) m [] tt (final_monitor o) (final_trace o)
           eq_refl eq_refl eq_refl eq_refl eq_refl eq_refl Hd Hrun).
Defined.

(** ** A car request and the join that follows it *)

Lemma key_of_value_spec cars v :
  match key_of_value cars v with
  | Some k => In (k, v) cars
  | None => ~ In v (Dict.values cars)
  end.
Proof.
  induction cars as [|[k v'] cars IH]; cbn [key_of_value Dict.values map snd In].
  - intros [].
  - destruct (String.eqb v' v) eqn:E.
    + apply String.eqb_eq in E. subst v'. left. reflexivity.
    + apply String.eqb_neq in E. destruct (key_of_value cars v).
      * right. exact IH.
      * intros [E'|Hin]; [apply E; exact E' | apply IH; exact Hin].
Qed.

(** X16.  The car of a join is the car of the request before it.  After a
    "REQUESTED CAR:" line and a "DRIVER:" line, the driver named on the
    second line (the text before the first bracket, stripped) is online
    with a car: the directory of the first line, stars removed and
    stripped, or, when race.json is loaded and lists that directory, a
    nice name that race.json maps to it. *)
Theorem requested_car_is_recorded cfg env (ld ul dn : bool) req join m tr m' tr' :
  startswith "REQUESTED CAR:" req = true ->
  startswith "REQUESTED CAR:" join = false ->
  startswith "DRIVER:" join = true ->
  (parse_line cfg env ld ul dn req ;; parse_line cfg env ld ul dn join) m tr
  = Return tt m' tr' ->
  let dir := strip (replace "*" "" (drop 14 req)) in
  let name := strip (first_piece "[" (drop 7 join)) in
  exists d c,
    Dict.get (online (state m')) name = Some d
    /\ car d = Some c
    /\ match race_json m with
       | Some rj =>
           In (c, dir) (rj_cars rj)
           \/ (c = dir /\ ~ In dir (Dict.values (rj_cars rj)))
       | None => c = dir
       end.
Proof.
  intros H1 H2 H3 Hrun dir name. unfold bind in Hrun.
  destruct (parse_line cfg env ld ul dn req m tr) as [u m1 tr1|] eqn:E1;
    [|discriminate].
  assert (Hreq : exists c,
            last_requested_car m1 = Some c
            /\ race_json m1 = race_json m
            /\ match race_json m with
               | Some rj =>
                   In (c, dir) (rj_cars rj)
                   \/ (c = dir /\ ~ In dir (Dict.values (rj_cars rj)))
               | None => c = dir
               end).
  { revert E1. unfold parse_line. run. rewrite H1.
    cbn [race_json with_history]. fold dir.
    destruct (race_json m) as [rj|] eqn:Hrj.
    - pose proof (key_of_value_spec (rj_cars rj) dir) as Hk.
      destruct (key_of_value (rj_cars rj) dir) as [nice|];
        intros [= _ <- _]; eexists; (split; [reflexivity|]);
        (split; [exact Hrj|]); [left | right]; auto.
    - intros [= _ <- _]. eexists. split; [reflexivity|]. split; [exact Hrj|].
      reflexivity. }
  destruct Hreq as (c & Hc & _ & Hcar). clear E1.
  revert Hrun. unfold parse_line. run. rewrite H2, H3.
  set (m2 := with_history (firstn 10 (join :: history m1)) m1).
  assert (Hc2 : last_requested_car m2 = Some c) by exact Hc.
  clearbody m2. fold name. intros Hrun.
  destruct (driver_connects_result cfg env name ld dn m2 tr1)
    as (i & m3 & tr3 & E & Eo & _).
  rewrite E in Hrun. injection Hrun as <- _.
  exists (mkDriver i (last_requested_car m2)), c.
  rewrite Eo, get_set_same, Hc2.
  split; [reflexivity|]. split; [reflexivity | exact Hcar].
Qed.

Lemma requested_car_is_recorded_witness :
  let req := "REQUESTED CAR: abarth500*" ++ nl in
  let join := "DRIVER: Alice []" ++ nl in
  let o := (parse_line Sample.cfg Sample.up true true false req ;;
            parse_line Sample.cfg Sample.up true true false join) blank [] in
  exists d c,
    Dict.get (online (state (final_monitor o))) "Alice" = Some d
    /\ car d = Some c
    /\ c = "abarth500".
Proof.
  intros req join o.
  assert (Hrun : o = Return tt (final_monitor o) (final_trace o))
    by (vm_compute; reflexivity).
  exact (requested_car_is_recorded Sample.cfg Sample.up true true false req join
           blank [] (final_monitor o) (final_trace o) eq_refl eq_refl eq_refl Hrun).
Defined.
